(** * ai-semantic-search: a shallow embedding of the build / load / query scripts

    The repository consists of three small scripts around two external
    libraries (a sentence embedder and a flat inner-product FAISS index):

    - [index_build.py]  reads [data/*.txt], embeds the texts and writes
      [artifacts/faiss.index], [artifacts/docs.json], [artifacts/meta.json];
    - [search.py]       a command-line loop that loads the index and the
      documents and prints the top 3 hits of every query;
    - [app.py]          a Streamlit page that loads the three artifacts and
      renders the top-k hits with a [snippet] of each document.

    Python strings are modelled as lists of Unicode code points, the file
    system as a finite map from paths to nodes, and every script as a
    computation in a small state-and-exception monad over a [world]
    (directory listing, files, resource cache, event log).  The embedder,
    the serialisers and [IndexFlatIP.search] are external: they are section
    variables, constrained only by the part of their documented contract a
    statement needs. *)

From Stdlib Require Import ZArith NArith Lia Ascii String DecimalString.
From stdpp Require Import base decidable option list sorting gmap.

Local Open Scope N_scope.

(** ** Python primitives *)

Module Py.

(** A [str] is a sequence of code points; [len] counts code points. *)
Abbreviation str := (list N).

(** An ASCII literal of the source, as a [str]. *)
Definition lit (s : string) : str :=
  N_of_ascii <$> list_ascii_of_string s.

(** [str.isspace] on one code point (CPython's [_PyUnicode_IsWhitespace]). *)
Definition isspace (c : N) : bool :=
  ((9 <=? c) && (c <=? 13)) || ((28 <=? c) && (c <=? 32))
  || (c =? 133) || (c =? 160) || (c =? 5760)
  || ((8192 <=? c) && (c <=? 8202))
  || (c =? 8232) || (c =? 8233) || (c =? 8239) || (c =? 8287) || (c =? 12288).

(** [s.lstrip()], [s.rstrip()], [s.strip()]. *)
Fixpoint lstrip (s : str) : str :=
  match s with
  | c :: s' => if isspace c then lstrip s' else s
  | [] => []
  end.

Definition rstrip (s : str) : str := reverse (lstrip (reverse s)).

Definition strip (s : str) : str := rstrip (lstrip s).

(** [s.split()]: the maximal runs of non-whitespace, in order. *)
Definition push_char (c : N) (ws : list str) : list str :=
  match ws with
  | w :: ws' => (c :: w) :: ws'
  | [] => [[c]]
  end.

Fixpoint split (s : str) : list str :=
  match s with
  | [] => []
  | c :: s' =>
      if isspace c then split s'
      else match s' with
           | c' :: _ => if isspace c' then [c] :: split s' else push_char c (split s')
           | [] => [[c]]
           end
  end.

(** [sep.join(ws)]. *)
Fixpoint join (sep : str) (ws : list str) : str :=
  match ws with
  | [] => []
  | [w] => w
  | w :: ws' => w ++ sep ++ join sep ws'
  end.

(** [s.lower()] on the ASCII letters; other code points are kept.  (No
    code point outside [A-Z] lower-cases to a single ASCII letter of
    ["exit"] or ["quit"], the only use of [lower] in the scripts.) *)
Definition lower_char (c : N) : N :=
  if (65 <=? c) && (c <=? 90) then c + 32 else c.

Definition lower (s : str) : str := lower_char <$> s.

(** [str(n)] for a non-negative integer. *)
Definition str_of_nat (n : nat) : str :=
  lit (NilZero.string_of_uint (Nat.to_uint n)).

(** [l[i]] with Python's negative indices; [None] stands for [IndexError]. *)
Definition index {A} (l : list A) (i : Z) : option A :=
  if (0 <=? i)%Z then l !! Z.to_nat i
  else if (- Z.of_nat (length l) <=? i)%Z then l !! Z.to_nat (Z.of_nat (length l) + i)
  else None.

(** [s[:n]] for [n >= 0]. *)
Definition slice_to {A} (n : nat) (s : list A) : list A := take n s.

(** Lexicographic order on code points: [a <= b] on [str]. *)
Fixpoint str_leb (a b : str) : bool :=
  match a, b with
  | [], _ => true
  | _ :: _, [] => false
  | x :: a', y :: b' =>
      if x <? y then true else if x =? y then str_leb a' b' else false
  end.

Definition str_le (a b : str) : Prop := str_leb a b = true.

Global Instance str_le_dec a b : Decision (str_le a b).
Proof. unfold str_le. apply _. Defined.

(** [sorted(l)] on a list of [str]. *)
Definition sorted (l : list str) : list str := merge_sort str_le l.

End Py.

Example isspace_tab : Py.isspace 9 = true.
Proof. reflexivity. Qed.

Example split_ex :
  Py.split (Py.lit "  ab  c d ") = [Py.lit "ab"; Py.lit "c"; Py.lit "d"].
Proof. reflexivity. Qed.

Example strip_ex : Py.strip (Py.lit "  ab  c d ") = Py.lit "ab  c d".
Proof. reflexivity. Qed.

Example sorted_ex :
  Py.sorted [Py.lit "data/b.txt"; Py.lit "data/a.txt"; Py.lit "data/B.txt"]
  = [Py.lit "data/B.txt"; Py.lit "data/a.txt"; Py.lit "data/b.txt"].
Proof. vm_compute. reflexivity. Qed.

Example str_of_nat_ex : Py.str_of_nat 12 = Py.lit "12".
Proof. reflexivity. Qed.

Example index_ex : Py.index [10; 20; 30] (-1) = Some 30 /\ Py.index [10] (-2) = None
  /\ Py.index (@nil N) (-1) = None /\ Py.index [10; 20] 2 = None.
Proof. repeat split. Qed.

(** ** Display previews *)

(** [app.py], [snippet(text, n=280)]:
    [t = " ".join(text.strip().split())], then [t] or [t[:n] + "…"]. *)
Definition collapse (text : Py.str) : Py.str :=
  Py.join (Py.lit " ") (Py.split (Py.strip text)).

Definition snippet (text : Py.str) (n : nat) : Py.str :=
  let t := Py.join (Py.lit " ") (Py.split (Py.strip text)) in
  if (length t <=? n)%nat then t else Py.slice_to n t ++ [8230].

(** The default argument of [snippet]. *)
Definition snippet_n : nat := 280.

(** [search.py], the preview of one hit:
    [docs[idx][:160] + ("..." if len(docs[idx]) > 160 else "")]. *)
Definition preview (d : Py.str) : Py.str :=
  Py.slice_to 160 d ++ (if (160 <? length d)%nat then Py.lit "..." else []).

Example snippet_ex :
  snippet (Py.lit "  the   cat
 sat ") snippet_n = Py.lit "the cat sat".
Proof. reflexivity. Qed.

Example snippet_cut_ex : snippet (Py.lit "ab   cd  ef") 4 = Py.lit "ab c" ++ [8230].
Proof. reflexivity. Qed.

(** ** Facts about the string primitives *)

Section strings.
Import Py.

(** A word: a non-empty run without whitespace. *)
Definition word (w : str) : Prop :=
  w ≠ [] ∧ Forall (λ c, isspace c = false) w.

(** No two neighbours of [t] are related by [P]'s complement. *)
Definition adjacent (P : N → N → Prop) (t : str) : Prop :=
  ∀ i a b, t !! i = Some a → t !! S i = Some b → P a b.

Lemma adjacent_nil P : adjacent P [].
Proof. intros i a b Hi. by rewrite lookup_nil in Hi. Qed.

Lemma adjacent_cons P x t :
  (∀ y, head t = Some y → P x y) → adjacent P t → adjacent P (x :: t).
Proof.
  intros Hx Ht [|i] a b Ha Hb; simpl in *.
  - injection Ha as <-. apply Hx. by destruct t; simplify_eq/=.
  - by eapply Ht.
Qed.

Lemma adjacent_app P l1 l2 :
  adjacent P l1 → adjacent P l2 →
  (∀ a b, last l1 = Some a → head l2 = Some b → P a b) →
  adjacent P (l1 ++ l2).
Proof.
  induction l1 as [|x l1 IH]; intros H1 H2 H12; [done|].
  simpl. apply adjacent_cons.
  - intros y Hy. destruct l1 as [|x' l1]; simpl in *.
    + by apply H12.
    + injection Hy as <-. by apply (H1 0%nat).
  - apply IH; [| done |].
    + intros i a b Ha Hb. by apply (H1 (S i)).
    + intros a b Ha Hb. apply H12; [|done]. by destruct l1.
Qed.

Lemma adjacent_word P w :
  (∀ a b, isspace a = false → isspace b = false → P a b) →
  Forall (λ c, isspace c = false) w → adjacent P w.
Proof.
  intros HP Hw i a b Ha Hb. rewrite Forall_lookup in Hw. eauto.
Qed.

Lemma lstrip_spec s :
  ∃ ws, s = ws ++ lstrip s ∧ Forall (λ c, isspace c = true) ws.
Proof.
  induction s as [|c s (ws & IH & Hws)]; simpl.
  - by exists [].
  - destruct (isspace c) eqn:Hc.
    + exists (c :: ws). split; [by rewrite <-app_comm_cons, <-IH | by constructor].
    + by exists [].
Qed.

Lemma lstrip_head s c : head (lstrip s) = Some c → isspace c = false.
Proof.
  induction s as [|x s IH]; simpl; [done|].
  destruct (isspace x) eqn:Hx; [done|]. simpl. by intros [= <-].
Qed.

Lemma rstrip_spec s :
  ∃ ws, s = rstrip s ++ ws ∧ Forall (λ c, isspace c = true) ws.
Proof.
  unfold rstrip. destruct (lstrip_spec (reverse s)) as (ws & Hs & Hws).
  exists (reverse ws). split; [|by apply Forall_reverse].
  rewrite <-reverse_app, <-Hs. by rewrite reverse_involutive.
Qed.

Lemma rstrip_last s c : last (rstrip s) = Some c → isspace c = false.
Proof.
  unfold rstrip. rewrite last_reverse. apply lstrip_head.
Qed.

Lemma split_spaces ws : Forall (λ c, isspace c = true) ws → split ws = [].
Proof. induction 1 as [|c ws Hc _ IH]; simpl; [done|]. by rewrite Hc. Qed.

Lemma split_app_spaces s ws :
  Forall (λ c, isspace c = true) ws → split (s ++ ws) = split s.
Proof.
  intros Hws. induction s as [|c s IH]; simpl.
  - by apply split_spaces.
  - destruct (isspace c); [done|].
    destruct s as [|c' s]; simpl in *.
    + destruct Hws as [|c' ws Hc' Hws]; [done|]. rewrite Hc'.
      f_equal. rewrite <-(split_spaces (c' :: ws)); [done|by constructor].
    + by rewrite IH.
Qed.

Lemma split_spaces_app ws s :
  Forall (λ c, isspace c = true) ws → split (ws ++ s) = split s.
Proof. induction 1 as [|c ws Hc _ IH]; simpl; [done|]. by rewrite Hc. Qed.

Lemma split_strip s : split (strip s) = split s.
Proof.
  unfold strip.
  destruct (lstrip_spec s) as (ws1 & H1 & Hws1).
  destruct (rstrip_spec (lstrip s)) as (ws2 & H2 & Hws2).
  rewrite H1 at 2. rewrite split_spaces_app by done.
  rewrite H2 at 2. by rewrite split_app_spaces.
Qed.

End strings.

Section words.
Import Py.

Lemma push_char_words c ws :
  isspace c = false → Forall word ws → Forall word (push_char c ws).
Proof.
  intros Hc [|w ws' [Hw1 Hw2] Hws]; simpl.
  - constructor; [|constructor]. split; [done|by constructor].
  - constructor; [|done]. split; [done|by constructor].
Qed.

Lemma split_words s : Forall word (split s).
Proof.
  induction s as [|c s IH]; simpl; [constructor|].
  destruct (isspace c) eqn:Hc; [done|].
  destruct s as [|c' s].
  - constructor; [|constructor]. split; [done|by constructor].
  - destruct (isspace c') eqn:Hc'.
    + constructor; [|done]. split; [done|by constructor].
    + by apply push_char_words.
Qed.

Lemma split_word_alone w : word w → split w = [w].
Proof.
  intros [Hne Hw]. induction Hw as [|c w Hc Hw IH]; [done|].
  simpl. rewrite Hc. destruct w as [|c' w]; [done|].
  inversion Hw as [|?? Hc' _]; subst. rewrite Hc'.
  by rewrite IH.
Qed.

Lemma split_word_app w c r :
  word w → isspace c = true → split (w ++ c :: r) = w :: split (c :: r).
Proof.
  intros [Hne Hw] Hc. induction Hw as [|x w Hx Hw IH]; [done|].
  rewrite <-app_comm_cons. cbn [split]. rewrite Hx.
  destruct w as [|x' w].
  - cbn [app split]. by rewrite Hc.
  - inversion Hw as [|?? Hx' _]; subst.
    rewrite <-app_comm_cons, Hx'. rewrite app_comm_cons, IH by done. done.
Qed.

Lemma join_cons2 sep w w' ws :
  join sep (w :: w' :: ws) = w ++ sep ++ join sep (w' :: ws).
Proof. done. Qed.

(** Joining words with one space and splitting again gives the words back. *)
Lemma split_join ws : Forall word ws → split (join (lit " ") ws) = ws.
Proof.
  induction 1 as [|w ws Hw Hws IH]; [done|].
  destruct ws as [|w' ws].
  - by apply split_word_alone.
  - rewrite join_cons2. change (lit " " ++ ?r) with (32 :: r).
    rewrite split_word_app by done.
    f_equal. cbn [split]. by change (isspace 32) with true.
Qed.

Lemma join_head ws c :
  Forall word ws → head (join (lit " ") ws) = Some c → isspace c = false.
Proof.
  intros [|w ws' [Hne Hw] Hws]; [done|].
  destruct w as [|x w]; [done|]. inversion Hw; subst.
  destruct ws'; simpl; by intros [= <-].
Qed.

Lemma join_last ws c :
  Forall word ws → last (join (lit " ") ws) = Some c → isspace c = false.
Proof.
  induction 1 as [|w ws [Hne Hw] Hws IH]; [done|].
  destruct ws as [|w' ws].
  - simpl. rewrite Forall_forall in Hw. intros Hl. apply Hw.
    apply last_Some in Hl as [l' ->]. set_solver.
  - rewrite join_cons2. change (lit " " ++ ?r) with ([32] ++ r).
    rewrite !last_app. inversion Hws as [|?? [Hne' _] _]; subst.
    destruct (last (join (lit " ") (w' :: ws))) eqn:Hl; [by auto|].
    apply last_None in Hl. destruct w'; [done|]. destruct ws; done.
Qed.

(** The only whitespace of a joined text are the separators. *)
Lemma join_only_spaces ws :
  Forall word ws →
  Forall (λ c, isspace c = true → c = 32) (join (lit " ") ws).
Proof.
  induction 1 as [|w ws [Hne Hw] Hws IH]; [constructor|].
  assert (Forall (λ c, isspace c = true → c = 32) w) as Hw'.
  { eapply Forall_impl; [exact Hw|]. simpl. congruence. }
  destruct ws as [|w' ws]; [done|].
  rewrite join_cons2. apply Forall_app. split; [done|].
  apply Forall_app. split; [|done]. by repeat constructor.
Qed.

(** Two neighbours of a joined text are never both whitespace. *)
Lemma join_no_runs ws :
  Forall word ws →
  adjacent (λ a b, isspace a = false ∨ isspace b = false) (join (lit " ") ws).
Proof.
  induction 1 as [|w ws Hw Hws IH]; [apply adjacent_nil|].
  assert (adjacent (λ a b, isspace a = false ∨ isspace b = false) w) as Hadj.
  { apply adjacent_word; [auto|apply Hw]. }
  destruct ws as [|w' ws]; [done|].
  rewrite join_cons2. change (lit " " ++ ?r) with (32 :: r).
  apply adjacent_app; [done| |].
  - apply adjacent_cons; [|done].
    intros y Hy. right. by eapply join_head.
  - intros a b Ha _. left. destruct Hw as [_ Hw].
    rewrite Forall_forall in Hw. apply Hw.
    apply last_Some in Ha as [l' ->]. set_solver.
Qed.

End words.

(** ** [sorted] yields one order for one set of paths *)

Section order.
Import Py.

Lemma str_leb_refl a : str_leb a a = true.
Proof.
  induction a as [|x a IH]; simpl; [done|].
  by rewrite N.ltb_irrefl, N.eqb_refl.
Qed.

Global Instance str_le_total : Total str_le.
Proof.
  intros a. unfold str_le. induction a as [|x a IH]; intros [|y b]; simpl; auto.
  destruct (N.ltb_spec x y), (N.ltb_spec y x); auto; try lia.
  assert (x = y) as -> by lia. rewrite N.eqb_refl. apply IH.
Qed.

Global Instance str_le_trans : Transitive str_le.
Proof.
  intros a. unfold str_le.
  induction a as [|x a IH]; intros [|y b] [|z c]; simpl; auto; try done.
  destruct (N.ltb_spec x y), (N.ltb_spec y z), (N.ltb_spec x z);
    auto; try lia;
    destruct (N.eqb_spec x y), (N.eqb_spec y z), (N.eqb_spec x z);
    auto; try lia; try done.
  apply IH.
Qed.

Global Instance str_le_antisymm : AntiSymm (=) str_le.
Proof.
  intros a. unfold str_le.
  induction a as [|x a IH]; intros [|y b]; simpl; auto; try done.
  destruct (N.ltb_spec x y), (N.ltb_spec y x),
    (N.eqb_spec x y), (N.eqb_spec y x); try lia; try done.
  subst. intros H1 H2. f_equal. by apply IH.
Qed.

Lemma sorted_Permutation l : sorted l ≡ₚ l.
Proof. apply merge_sort_Permutation. Qed.

Lemma sorted_StronglySorted l : StronglySorted str_le (sorted l).
Proof. apply (StronglySorted_merge_sort str_le). Qed.

(** The listing order does not matter once the paths are sorted. *)
Lemma sorted_order_irrelevant l1 l2 : l1 ≡ₚ l2 → sorted l1 = sorted l2.
Proof.
  intros Hp. apply (StronglySorted_unique str_le).
  - apply sorted_StronglySorted.
  - apply sorted_StronglySorted.
  - by rewrite !sorted_Permutation.
Qed.

(** A common directory prefix does not change the order of the names. *)
Lemma str_leb_prefix p a b : str_leb (p ++ a) (p ++ b) = str_leb a b.
Proof.
  induction p as [|x p IH]; simpl; [done|].
  by rewrite N.ltb_irrefl, N.eqb_refl.
Qed.

End order.

(** ** The world the scripts run in *)

(** What [json.load] returns (numbers are kept as integers: the scripts
    never compute with them). *)
#[local] Set Warnings "-register-all".
Inductive json :=
| JNull
| JNum (z : Z)
| JStr (s : Py.str)
| JList (l : list json)
| JDict (kvs : list (Py.str * json)).

(** The exceptions the scripts can end with.  [FaissError] is the
    [RuntimeError] that [faiss.read_index] and [faiss.write_index] raise;
    [TypeError] also stands for the [KeyError] and [AttributeError] that
    indexing or slicing a JSON value of the wrong shape gives. *)
Inductive exn :=
| SystemExit (msg : Py.str)
| FileExistsError (p : Py.str)
| FileNotFoundError (p : Py.str)
| NotADirectoryError (p : Py.str)
| IsADirectoryError (p : Py.str)
| UnicodeDecodeError (p : Py.str)
| JSONDecodeError (p : Py.str)
| FaissError (p : Py.str)
| IndexError
| KeyError
| TypeError
| EOFError.

Inductive outcome (A : Type) :=
| Ret (a : A)
| Raise (e : exn).
Arguments Ret {A} a.
Arguments Raise {A} e.

(** What a script does to the outside, in order. *)
Inductive event :=
| Print (line : Py.str)             (* print(line) *)
| Prompt (text : Py.str)            (* input(text) *)
| LoadModel (name : Py.str)         (* SentenceTransformer(name) *)
| Encode (texts : list Py.str)      (* model.encode(texts, ...) *)
| Search (k : nat)                  (* index.search(q_emb, k) *)
| StPageConfig (page_title page_icon layout : Py.str) (* st.set_page_config(...) *)
| StTitle (s : Py.str)
| StCaption (s : Py.str)
| StTextInput (label placeholder : Py.str)   (* st.text_input(label, placeholder=...) *)
| StSlider (label : Py.str) (lo hi value : Z) (* st.slider(label, lo, hi, value) *)
| StSubheader (s : Py.str)
| StMarkdown (s : Py.str)
| StWrite (s : Py.str)
| StDivider
| StInfo (s : Py.str).

(** Paths ([os.path], for the relative paths the scripts build). *)
Module Path.
Import Py.

Definition has_slash (p : str) : bool := existsb (N.eqb 47) p.

(** [os.path.join(a, b)] for a non-empty [a] without trailing slash and a
    relative [b]. *)
Definition join (a b : str) : str := a ++ lit "/" ++ b.

(** [os.path.basename(p)]: what follows the last slash. *)
Fixpoint basename (p : str) : str :=
  match p with
  | [] => []
  | c :: p' =>
      if has_slash p' then basename p' else if c =? 47 then p' else p
  end.

(** [os.path.dirname(p)]: what precedes the last slash. *)
Fixpoint dirname (p : str) : str :=
  match p with
  | [] => []
  | c :: p' => if has_slash p' then c :: dirname p' else []
  end.

(** [name.endswith(suffix)]. *)
Definition endswith (suffix name : str) : bool :=
  (length suffix <=? length name)%nat
  && bool_decide (drop (length name - length suffix) name = suffix).

(** [glob]'s rule for a pattern that does not start with a dot. *)
Definition ishidden (name : str) : bool :=
  match name with
  | 46 :: _ => true
  | _ => false
  end.

End Path.

Example basename_ex : Path.basename (Py.lit "data/a.txt") = Py.lit "a.txt".
Proof. reflexivity. Qed.

Example dirname_ex : Path.dirname (Py.lit "artifacts/docs.json") = Py.lit "artifacts".
Proof. reflexivity. Qed.

Example endswith_ex :
  Path.endswith (Py.lit ".txt") (Py.lit "a.txt") = true
  /\ Path.endswith (Py.lit ".txt") (Py.lit "txt") = false
  /\ Path.endswith (Py.lit ".txt") (Py.lit "a.txt.bak") = false.
Proof. repeat split. Qed.

(** ** The scripts *)

Section scripts.
Import Py.

(** The bytes of a file, and [numpy.float32]. *)
Context {blob f32 : Type}.

(** *** External libraries

    Each is a black box.  [None] stands for the library's exception. *)

(** [f.read()] on a file opened with [encoding="utf-8"]. *)
Variable utf8_read : blob → option str.
(** [json.dump(v, f, indent=2)], as the bytes written, and the parser of
    [json.load(f)] on the text read. *)
Variable json_dump : json → blob.
Variable json_loads : str → option json.

(** [json.load(f)] on a file of bytes [b] opened with [encoding="utf-8"]:
    the value, when the bytes decode and the text parses. *)
Definition json_load (b : blob) : option json := utf8_read b ≫= json_loads.

(** [faiss.IndexFlatIP]: the dimension and the rows added so far. *)
Record IndexFlatIP := mkIndex {
  ix_d : nat;
  ix_xb : list (list f32)
}.

Definition ntotal (ix : IndexFlatIP) : nat := length (ix_xb ix).

(** [index.add(rows)]. *)
Definition add (ix : IndexFlatIP) (rows : list (list f32)) : IndexFlatIP :=
  mkIndex (ix_d ix) (ix_xb ix ++ rows).

(** [faiss.write_index] and [faiss.read_index], on the bytes. *)
Variable write_index : IndexFlatIP → blob.
Variable read_index : blob → option IndexFlatIP.

(** [model.encode(texts, convert_to_numpy=True,
    normalize_embeddings=True).astype(np.float32)]: the rows of the matrix. *)
Variable encode : list str → list (list f32).

(** [index.search] for one query row: [k] pairs (score, label). *)
Variable search : IndexFlatIP → list f32 → nat → list (f32 * Z).

(** [f"{score:.3f}"], and [str] of a JSON value that is not a string. *)
Variable fmt3 : f32 → str.
Variable repr : json → str.

(** *** State *)

Inductive node :=
| File (b : blob)
| Dir.

Record world := mkWorld {
  listing : list str;                    (* the names in ./data, as the OS lists them *)
  files : gmap (list N) node;            (* path -> node *)
  cache : option (IndexFlatIP * json * json);   (* st.cache_resource of load_data *)
  log : list event
}.

Definition set_files (f : gmap (list N) node → gmap (list N) node) (w : world) : world :=
  mkWorld (listing w) (f (files w)) (cache w) (log w).

Definition set_cache (c : option (IndexFlatIP * json * json)) (w : world) : world :=
  mkWorld (listing w) (files w) c (log w).

Definition add_log (e : event) (w : world) : world :=
  mkWorld (listing w) (files w) (cache w) (log w ++ [e]).

(** *** The monad: state [world], exceptions [exn] *)

Definition M (A : Type) : Type := world → outcome A * world.

Definition ret {A} (a : A) : M A := λ w, (Ret a, w).

Definition raise {A} (e : exn) : M A := λ w, (Raise e, w).

Definition bind {A B} (m : M A) (k : A → M B) : M B :=
  λ w, match m w with
       | (Ret a, w') => k a w'
       | (Raise e, w') => (Raise e, w')
       end.

Notation "x <- m ;; k" := (bind m (λ x, k))
  (at level 20, m at level 99, k at level 200, only parsing).
Notation "' p <- m ;; k" := (bind m (λ x, let 'p := x in k))
  (at level 20, p pattern, m at level 99, k at level 200, only parsing).
Notation "m ;;; k" := (bind m (λ _, k))
  (at level 100, k at level 200, only parsing, right associativity).

Definition emit (e : event) : M unit := λ w, (Ret (), add_log e w).

Definition print (line : str) : M unit := emit (Print line).

(** [option] results of pure lookups, with the exception to raise. *)
Definition lift {A} (o : option A) (e : exn) : M A :=
  match o with
  | Some a => ret a
  | None => raise e
  end.

(** *** File system calls *)

(** [os.makedirs(p, exist_ok=True)] for a one-component path. *)
Definition makedirs (p : str) : M unit :=
  λ w, match files w !! p with
       | Some (File _) => (Raise (FileExistsError p), w)
       | Some Dir => (Ret (), w)
       | None => (Ret (), set_files (insert p Dir) w)
       end.

(** [glob.glob(os.path.join(dir, "*" + suffix))]: the names of [dir] that
    match, joined to [dir], in the order of the listing. *)
Definition glob_match (suffix name : str) : Prop :=
  Path.ishidden name = false ∧ Path.endswith suffix name = true.

Global Instance glob_match_dec suffix name : Decision (glob_match suffix name).
Proof. unfold glob_match. apply _. Defined.

Definition glob (dir suffix : str) : M (list str) :=
  λ w, (Ret (Path.join dir <$> filter (glob_match suffix) (listing w)), w).

(** Opening [p] for reading: the bytes, or [OSError]. *)
Definition open_r (p : str) : M blob :=
  λ w, match files w !! p with
       | None => (Raise (FileNotFoundError p), w)
       | Some Dir => (Raise (IsADirectoryError p), w)
       | Some (File b) => (Ret b, w)
       end.

(** [with open(p, "r", encoding="utf-8") as f: f.read()]. *)
Definition read_text (p : str) : M str :=
  b <- open_r p ;; lift (utf8_read b) (UnicodeDecodeError p).

(** Why [p] cannot be opened for writing, if so. *)
Definition write_error (fs : gmap (list N) node) (p : str) : option exn :=
  match fs !! p with
  | Some Dir => Some (IsADirectoryError p)
  | _ =>
      match fs !! Path.dirname p with
      | Some Dir => None
      | Some (File _) => Some (NotADirectoryError p)
      | None => Some (FileNotFoundError p)
      end
  end.

(** [with open(p, "w") as f: json.dump(v, f, indent=2)]. *)
Definition dump_json (v : json) (p : str) : M unit :=
  λ w, match write_error (files w) p with
       | Some e => (Raise e, w)
       | None => (Ret (), set_files (insert p (File (json_dump v))) w)
       end.

(** [json.load(open(p, "r", encoding="utf-8"))]: the file is opened, read
    and decoded, and the text is parsed. *)
Definition load_json (p : str) : M json :=
  text <- read_text p ;; lift (json_loads text) (JSONDecodeError p).

(** [faiss.write_index(ix, p)] and [faiss.read_index(p)]. *)
Definition faiss_write_index (ix : IndexFlatIP) (p : str) : M unit :=
  λ w, match write_error (files w) p with
       | Some _ => (Raise (FaissError p), w)
       | None => (Ret (), set_files (insert p (File (write_index ix))) w)
       end.

Definition faiss_read_index (p : str) : M IndexFlatIP :=
  λ w, match files w !! p with
       | Some (File b) => lift (read_index b) (FaissError p) w
       | _ => (Raise (FaissError p), w)
       end.

(** *** Calls to the model and to the index *)

Definition SentenceTransformer (name : str) : M unit := emit (LoadModel name).

Definition model_encode (texts : list str) : M (list (list f32)) :=
  emit (Encode texts) ;;; ret (encode texts).

(** [index.search(q_emb, k)]: one row of pairs per query row. *)
Definition index_search (ix : IndexFlatIP) (q_emb : list (list f32)) (k : nat)
  : M (list (list (f32 * Z))) :=
  emit (Search k) ;;; ret ((λ q, search ix q k) <$> q_emb).

(** [scores, ids = index.search(q_emb, k)]. *)
Definition scores_of (res : list (list (f32 * Z))) : list (list f32) :=
  (λ row : list (f32 * Z), fst <$> row) <$> res.

Definition ids_of (res : list (list (f32 * Z))) : list (list Z) :=
  (λ row : list (f32 * Z), snd <$> row) <$> res.

(** [embeddings.shape[1]]. *)
Definition shape1 (m : list (list f32)) : nat :=
  match m with
  | r :: _ => length r
  | [] => 0%nat
  end.

(** *** JSON values used as Python objects *)

(** [v[i]] for an integer [i]. *)
Definition getitem (v : json) (i : Z) : M json :=
  match v with
  | JList l => lift (Py.index l i) IndexError
  | JStr s => lift ((λ c, JStr [c]) <$> Py.index s i) IndexError
  | JDict _ => raise KeyError
  | JNull | JNum _ => raise TypeError
  end.

(** [v[key]] for a string [key] (the keys of a loaded dict are distinct). *)
Definition getkey (v : json) (key : str) : M json :=
  match v with
  | JDict kvs => lift ((λ r, r.2.2) <$> list_find (λ kv, kv.1 = key) kvs) KeyError
  | _ => raise TypeError
  end.

(** [f"{v}"]. *)
Definition format (v : json) : str :=
  match v with
  | JStr s => s
  | _ => repr v
  end.

(** *** index_build.py *)

Definition DATA_DIR : str := lit "data".
Definition OUT_DIR : str := lit "artifacts".
Definition MODEL_NAME : str := lit "all-MiniLM-L6-v2".

Definition msg_found (n : nat) : str :=
  [128196] ++ lit " Found " ++ str_of_nat n ++ lit " documents".
Definition msg_no_files : str := [10060] ++ lit " No .txt files found in ./data".
Definition msg_empty : str := [10060] ++ lit " Documents are empty".
Definition msg_built : str := [9989] ++ lit " Index built successfully".
Definition msg_saved : str := [128193] ++ lit " Files saved in /artifacts".

(** [for p in paths: ...], with the lists [docs] and [meta] it appends to. *)
Fixpoint build_read (paths : list str) (docs : list str) (meta : list json)
  : M (list str * list json) :=
  match paths with
  | [] => ret (docs, meta)
  | p :: paths' =>
      text <- (s <- read_text p ;; ret (strip s)) ;;
      match text with
      | _ :: _ =>
          build_read paths' (docs ++ [text])
            (meta ++ [JDict [(lit "source", JStr (Path.basename p))]])
      | [] => build_read paths' docs meta
      end
  end.

(** [main()].  The source returns [None]; the model returns the locals
    [index], [docs] and [meta] it ends with, so that statements can speak of
    the store built in memory. *)
Definition build_main : M (IndexFlatIP * list str * list json) :=
  makedirs OUT_DIR ;;;
  paths <- (l <- glob DATA_DIR (lit ".txt") ;; ret (sorted l)) ;;
  print (msg_found (length paths)) ;;;
  match paths with
  | [] => raise (SystemExit msg_no_files)
  | _ :: _ =>
      ' (docs, meta) <- build_read paths [] [] ;;
      match docs with
      | [] => raise (SystemExit msg_empty)
      | _ :: _ =>
          SentenceTransformer MODEL_NAME ;;;
          embeddings <- model_encode docs ;;
          let index := add (mkIndex (shape1 embeddings) []) embeddings in
          faiss_write_index index (Path.join OUT_DIR (lit "faiss.index")) ;;;
          dump_json (JList (JStr <$> docs)) (Path.join OUT_DIR (lit "docs.json")) ;;;
          dump_json (JList meta) (Path.join OUT_DIR (lit "meta.json")) ;;;
          print msg_built ;;;
          print msg_saved ;;;
          ret (index, docs, meta)
      end
  end.

(** *** search.py *)

Definition INDEX_PATH : str := lit "artifacts/faiss.index".
Definition DOCS_PATH : str := lit "artifacts/docs.json".

Definition msg_ready : str := [128269] ++ lit " Semantic Search Ready".
Definition msg_help : str :=
  lit "Type a query and press Enter (type 'exit' to quit)" ++ [10].
Definition msg_bye : str := [128075] ++ lit " Exiting search".
Definition msg_top : str := [10] ++ lit "Top results:".

(** [docs[idx][:160] + ("..." if len(docs[idx]) > 160 else "")]. *)
Definition json_preview (d : json) : M str :=
  match d with
  | JStr s => ret (preview s)
  | _ => raise TypeError
  end.

(** [for rank, idx in enumerate(ids[0], start=1): ...]. *)
Fixpoint search_show (docs : json) (ids : list Z) (rank : nat) : M unit :=
  match ids with
  | [] => ret ()
  | idx :: ids' =>
      d <- getitem docs idx ;;
      p <- json_preview d ;;
      print (str_of_nat rank ++ lit ". " ++ p) ;;;
      search_show docs ids' (S rank)
  end.

(** The body of [while True:] once [query] is known not to end the loop. *)
Definition search_answer (index : IndexFlatIP) (docs : json) (query : str) : M unit :=
  q_emb <- model_encode [query] ;;
  res <- index_search index q_emb 3 ;;
  ids0 <- lift (Py.index (ids_of res) 0) IndexError ;;
  print msg_top ;;;
  search_show docs ids0 1 ;;;
  print [].

(** [while True: ...]; [stdin] holds the lines [input] will read. *)
Fixpoint search_loop (index : IndexFlatIP) (docs : json) (stdin : list str) : M unit :=
  match stdin with
  | [] => emit (Prompt (lit "Query: ")) ;;; raise EOFError
  | line :: stdin' =>
      emit (Prompt (lit "Query: ")) ;;;
      let query := strip line in
      if bool_decide (lower query ∈ [lit "exit"; lit "quit"])
      then print msg_bye
      else search_answer index docs query ;;; search_loop index docs stdin'
  end.

(** [main()]. *)
Definition search_main (stdin : list str) : M unit :=
  print msg_ready ;;;
  print msg_help ;;;
  index <- faiss_read_index INDEX_PATH ;;
  docs <- load_json DOCS_PATH ;;
  SentenceTransformer MODEL_NAME ;;;
  search_loop index docs stdin.

(** *** app.py *)

Definition page_config : event :=
  StPageConfig (lit "AI Semantic Search") [128270] (lit "wide").
Definition msg_title : str := [128270] ++ lit " AI Semantic Search Engine".
Definition msg_caption : str :=
  lit "Search documents by meaning using embeddings + FAISS.".
Definition msg_info : str := lit "Type a query to search your documents.".
Definition msg_placeholder : str :=
  lit "Ask anything" ++ [8230] ++ lit " e.g. 'ETL automation and dashboards'".

(** [load_model()]. *)
Definition load_model : M unit := SentenceTransformer MODEL_NAME.

(** [load_data()], without its cache. *)
Definition load_data : M (IndexFlatIP * json * json) :=
  index <- faiss_read_index (OUT_DIR ++ lit "/faiss.index") ;;
  docs <- load_json (OUT_DIR ++ lit "/docs.json") ;;
  meta <- load_json (OUT_DIR ++ lit "/meta.json") ;;
  ret (index, docs, meta).

(** [@st.cache_resource]: the first successful result is kept and handed
    out, the same objects, to every later run. *)
Definition cache_resource (m : M (IndexFlatIP * json * json))
  : M (IndexFlatIP * json * json) :=
  λ w, match cache w with
       | Some v => (Ret v, w)
       | None =>
           match m w with
           | (Ret v, w') => (Ret v, set_cache (Some v) w')
           | (Raise e, w') => (Raise e, w')
           end
       end.

(** [snippet(docs[idx])] on the loaded value. *)
Definition json_snippet (d : json) : M str :=
  match d with
  | JStr s => ret (snippet s snippet_n)
  | _ => raise TypeError
  end.

(** [for rank, (score, idx) in enumerate(zip(scores[0], ids[0]), 1): ...]. *)
Fixpoint app_show (docs meta : json) (hits : list (f32 * Z)) (rank : nat) : M unit :=
  match hits with
  | [] => ret ()
  | (score, idx) :: hits' =>
      m <- getitem meta idx ;;
      source <- getkey m (lit "source") ;;
      emit (StMarkdown (lit "**" ++ str_of_nat rank ++ lit ". " ++ format source
                        ++ lit "** " ++ [8212] ++ lit " score `" ++ fmt3 score ++ lit "`")) ;;;
      d <- getitem docs idx ;;
      s <- json_snippet d ;;
      emit (StWrite s) ;;;
      emit StDivider ;;;
      app_show docs meta hits' (S rank)
  end.

(** One run of the page, with the text box holding [query] and the slider
    at [top_k] (an integer from 1 to 10): the page is configured, the two
    widgets are drawn and return these values.  [load_model] is cached as well; the model being a
    constant of the run, its cache is not modelled and the call is logged
    every time. *)
Definition app_main (query : str) (top_k : nat) : M unit :=
  emit page_config ;;;
  emit (StTitle msg_title) ;;;
  emit (StCaption msg_caption) ;;;
  emit (StTextInput [] msg_placeholder) ;;;
  emit (StSlider (lit "Top results") 1 10 5) ;;;
  load_model ;;;
  ' (index, docs, meta) <- cache_resource load_data ;;
  match query with
  | _ :: _ =>
      q_emb <- model_encode [query] ;;
      res <- index_search index q_emb top_k ;;
      scores0 <- lift (Py.index (scores_of res) 0) IndexError ;;
      ids0 <- lift (Py.index (ids_of res) 0) IndexError ;;
      emit (StSubheader (lit "Results")) ;;;
      app_show docs meta (zip scores0 ids0) 1
  | [] => emit (StInfo msg_info)
  end.

(** ** Running the scripts: basic facts *)

Lemma bind_Ret {A B} (m : M A) (k : A → M B) w a w' :
  m w = (Ret a, w') → bind m k w = k a w'.
Proof. unfold bind. by intros ->. Qed.

Lemma bind_Raise {A B} (m : M A) (k : A → M B) w e w' :
  m w = (Raise e, w') → bind m k w = (Raise e, w').
Proof. unfold bind. by intros ->. Qed.

(** The text [read_text] finds at [p], if any. *)
Definition text_of (fs : gmap (list N) node) (p : str) : option str :=
  match fs !! p with
  | Some (File b) => utf8_read b
  | _ => None
  end.

(** The exception [read_text] raises at [p] otherwise. *)
Definition read_error (fs : gmap (list N) node) (p : str) : exn :=
  match fs !! p with
  | None => FileNotFoundError p
  | Some Dir => IsADirectoryError p
  | Some (File _) => UnicodeDecodeError p
  end.

Lemma read_text_run p w :
  read_text p w
  = (match text_of (files w) p with
     | Some s => Ret s
     | None => Raise (read_error (files w) p)
     end, w).
Proof.
  unfold read_text, bind, open_r, text_of, read_error.
  destruct (files w !! p) as [[b|]|]; [|done..].
  unfold lift. by destruct (utf8_read b).
Qed.

(** The stripped text of [p]; empty when [p] cannot be read. *)
Definition doc_text (fs : gmap (list N) node) (p : str) : str :=
  strip (default [] (text_of fs p)).

(** The paths whose file becomes a row. *)
Definition indexed (fs : gmap (list N) node) (p : str) : Prop :=
  doc_text fs p ≠ [].

Global Instance indexed_dec fs p : Decision (indexed fs p).
Proof. unfold indexed. apply _. Defined.

Definition source_of (p : str) : json :=
  JDict [(lit "source", JStr (Path.basename p))].

Definition readable (fs : gmap (list N) node) (p : str) : Prop :=
  is_Some (text_of fs p).

(** The loop reads and never writes. *)
Lemma build_read_world paths docs meta w :
  (build_read paths docs meta w).2 = w.
Proof.
  revert docs meta. induction paths as [|p paths IH]; intros docs meta; [done|].
  cbn [build_read]. unfold bind at 1 2. rewrite read_text_run.
  destruct (text_of (files w) p) as [s|]; [|done].
  unfold ret. destruct (strip s); apply IH.
Qed.

(** When every path can be read the loop keeps the non-empty texts, in
    order, with the base name of their file. *)
Lemma build_read_ok paths docs meta w :
  Forall (readable (files w)) paths →
  build_read paths docs meta w
  = (Ret (docs ++ (doc_text (files w) <$> filter (indexed (files w)) paths),
          meta ++ (source_of <$> filter (indexed (files w)) paths)), w).
Proof.
  intros Hall. revert docs meta.
  induction Hall as [|p paths [s Hs] _ IH]; intros docs meta.
  - simpl. by rewrite !app_nil_r.
  - cbn [build_read]. unfold bind at 1 2. rewrite read_text_run, Hs. unfold ret.
    assert (doc_text (files w) p = strip s) as Hdoc.
    { unfold doc_text. by rewrite Hs. }
    rewrite filter_cons. destruct (strip s) as [|c t] eqn:Hstrip.
    + rewrite decide_False by (unfold indexed; by rewrite Hdoc; intros []).
      apply IH.
    + rewrite decide_True by (unfold indexed; by rewrite Hdoc).
      rewrite IH. simpl. rewrite Hdoc. by rewrite <-!app_assoc.
Qed.

(** The first path that cannot be read ends the loop with its error. *)
Lemma build_read_fail paths docs meta w :
  ¬ Forall (readable (files w)) paths →
  ∃ p, p ∈ paths ∧ text_of (files w) p = None
       ∧ build_read paths docs meta w = (Raise (read_error (files w) p), w).
Proof.
  revert docs meta. induction paths as [|p paths IH]; intros docs meta Hnot.
  - destruct Hnot. constructor.
  - destruct (text_of (files w) p) as [s|] eqn:Hs.
    + assert (¬ Forall (readable (files w)) paths) as Hnot'.
      { intros H. apply Hnot. constructor; [by exists s|done]. }
      cbn [build_read]. unfold bind at 1 2. rewrite read_text_run, Hs. unfold ret.
      destruct (strip s);
        [destruct (IH docs meta Hnot') as (p' & ? & ? & ?)
        |destruct (IH (docs ++ [n :: l])
                      (meta ++ [JDict [(lit "source", JStr (Path.basename p))]]) Hnot')
           as (p' & ? & ? & ?)];
        exists p'; (split; [by right|done]).
    + exists p. split; [by left|]. split; [done|].
      cbn [build_read]. unfold bind at 1 2. by rewrite read_text_run, Hs.
Qed.

(** ** What a run of [index_build.main] leaves behind *)

(** The sorted paths, the output directory once [makedirs] has run, the
    paths that become rows, and the three artifacts. *)
Definition build_paths (w : world) : list str :=
  sorted (Path.join DATA_DIR <$> filter (glob_match (lit ".txt")) (listing w)).

Definition out_fs (fs : gmap (list N) node) : gmap (list N) node :=
  match fs !! OUT_DIR with
  | None => <[OUT_DIR := Dir]> fs
  | Some _ => fs
  end.

Definition build_kept (w : world) : list str :=
  filter (indexed (files w)) (build_paths w).

Definition build_docs (w : world) : list str :=
  doc_text (files w) <$> build_kept w.

Definition build_meta (w : world) : list json :=
  source_of <$> build_kept w.

Definition build_index (w : world) : IndexFlatIP :=
  add (mkIndex (shape1 (encode (build_docs w))) []) (encode (build_docs w)).

Definition index_file : str := Path.join OUT_DIR (lit "faiss.index").
Definition docs_file : str := Path.join OUT_DIR (lit "docs.json").
Definition meta_file : str := Path.join OUT_DIR (lit "meta.json").

Definition fs_index (w : world) : gmap (list N) node :=
  <[index_file := File (write_index (build_index w))]> (out_fs (files w)).

Definition fs_docs (w : world) : gmap (list N) node :=
  <[docs_file := File (json_dump (JList (JStr <$> build_docs w)))]> (fs_index w).

Definition fs_meta (w : world) : gmap (list N) node :=
  <[meta_file := File (json_dump (JList (build_meta w)))]> (fs_docs w).

Definition ev_found (w : world) : event := Print (msg_found (length (build_paths w))).

Definition ev_embed (w : world) : list event :=
  [ev_found w; LoadModel MODEL_NAME; Encode (build_docs w)].

(** The ways a run can end: the result, the files and the events added. *)
Inductive build_run (w : world)
  : outcome (IndexFlatIP * list str * list json) → gmap (list N) node → list event → Prop :=
| run_out_is_file b :
    files w !! OUT_DIR = Some (File b) →
    build_run w (Raise (FileExistsError OUT_DIR)) (files w) []
| run_no_files :
    build_paths w = [] →
    build_run w (Raise (SystemExit msg_no_files)) (out_fs (files w)) [ev_found w]
| run_unreadable p :
    p ∈ build_paths w →
    text_of (files w) p = None →
    build_run w (Raise (read_error (files w) p)) (out_fs (files w)) [ev_found w]
| run_empty :
    build_paths w ≠ [] →
    Forall (readable (files w)) (build_paths w) →
    build_kept w = [] →
    build_run w (Raise (SystemExit msg_empty)) (out_fs (files w)) [ev_found w]
| run_index_fails e :
    Forall (readable (files w)) (build_paths w) →
    build_kept w ≠ [] →
    write_error (out_fs (files w)) index_file = Some e →
    build_run w (Raise (FaissError index_file)) (out_fs (files w)) (ev_embed w)
| run_docs_fails e :
    Forall (readable (files w)) (build_paths w) →
    build_kept w ≠ [] →
    write_error (out_fs (files w)) index_file = None →
    write_error (fs_index w) docs_file = Some e →
    build_run w (Raise e) (fs_index w) (ev_embed w)
| run_meta_fails e :
    Forall (readable (files w)) (build_paths w) →
    build_kept w ≠ [] →
    write_error (out_fs (files w)) index_file = None →
    write_error (fs_index w) docs_file = None →
    write_error (fs_docs w) meta_file = Some e →
    build_run w (Raise e) (fs_docs w) (ev_embed w)
| run_ok :
    Forall (readable (files w)) (build_paths w) →
    build_kept w ≠ [] →
    write_error (out_fs (files w)) index_file = None →
    write_error (fs_index w) docs_file = None →
    write_error (fs_docs w) meta_file = None →
    build_run w (Ret (build_index w, build_docs w, build_meta w)) (fs_meta w)
      (ev_embed w ++ [Print msg_built; Print msg_saved]).

(** Paths of the corpus and of the artifacts never meet. *)
Lemma data_path_not_out name : Path.join DATA_DIR name ≠ OUT_DIR.
Proof. intros H. vm_compute in H. discriminate H. Qed.

Lemma build_paths_data w p :
  p ∈ build_paths w → ∃ name, name ∈ listing w ∧ p = Path.join DATA_DIR name.
Proof.
  unfold build_paths. rewrite sorted_Permutation.
  intros (name & -> & Hin)%list_elem_of_fmap.
  apply list_elem_of_filter in Hin as [_ Hin]. eauto.
Qed.

Lemma out_fs_lookup_ne fs p : p ≠ OUT_DIR → out_fs fs !! p = fs !! p.
Proof.
  intros Hp. unfold out_fs. destruct (fs !! OUT_DIR); [done|].
  by rewrite lookup_insert_ne.
Qed.

Lemma out_fs_dir fs :
  (∀ b, fs !! OUT_DIR ≠ Some (File b)) → out_fs fs !! OUT_DIR = Some Dir.
Proof.
  intros Hout. unfold out_fs. destruct (fs !! OUT_DIR) as [[b|]|] eqn:H.
  - by destruct (Hout b).
  - done.
  - by rewrite lookup_insert_eq.
Qed.

Lemma text_of_out_fs w p :
  p ∈ build_paths w → text_of (out_fs (files w)) p = text_of (files w) p.
Proof.
  intros (name & _ & ->)%build_paths_data. unfold text_of.
  by rewrite out_fs_lookup_ne by apply data_path_not_out.
Qed.

Lemma read_error_out_fs w p :
  p ∈ build_paths w → read_error (out_fs (files w)) p = read_error (files w) p.
Proof.
  intros (name & _ & ->)%build_paths_data. unfold read_error.
  by rewrite out_fs_lookup_ne by apply data_path_not_out.
Qed.

Lemma readable_out_fs w :
  Forall (readable (out_fs (files w))) (build_paths w)
  ↔ Forall (readable (files w)) (build_paths w).
Proof.
  rewrite !Forall_forall. unfold readable.
  split; intros H p Hp; specialize (H p Hp); by rewrite text_of_out_fs in *.
Qed.

Lemma filter_ext_in {A} (P Q : A → Prop)
    `{!∀ x, Decision (P x), !∀ x, Decision (Q x)} (l : list A) :
  (∀ x, x ∈ l → P x ↔ Q x) → filter P l = filter Q l.
Proof.
  induction l as [|x l IH]; intros Hext; [done|].
  rewrite !filter_cons. rewrite IH by (intros y Hy; apply Hext; by right).
  destruct (decide (P x)) as [HP|HP], (decide (Q x)) as [HQ|HQ]; try done.
  - destruct HQ. by apply (Hext x); [left|].
  - destruct HP. by apply (Hext x); [left|].
Qed.

Lemma build_kept_out_fs w :
  filter (indexed (out_fs (files w))) (build_paths w) = build_kept w.
Proof.
  apply filter_ext_in. intros p Hp. unfold indexed, doc_text.
  by rewrite text_of_out_fs.
Qed.

Lemma build_docs_out_fs w :
  doc_text (out_fs (files w)) <$> build_kept w = build_docs w.
Proof.
  apply list_fmap_ext. intros i p Hp. unfold doc_text.
  rewrite text_of_out_fs; [done|].
  apply list_elem_of_lookup_2 in Hp. unfold build_kept in Hp.
  by apply list_elem_of_filter in Hp as [_ ?].
Qed.

Lemma makedirs_run w :
  (∀ b, files w !! OUT_DIR ≠ Some (File b)) →
  makedirs OUT_DIR w = (Ret (), set_files out_fs w).
Proof.
  intros Hout. unfold makedirs, set_files, out_fs.
  destruct w as [ls fs c lg]; cbn [files listing cache log] in *.
  destruct (fs !! OUT_DIR) as [[b|]|]; [by destruct (Hout b)|done..].
Qed.

Lemma glob_sorted_run w :
  bind (glob DATA_DIR (lit ".txt")) (λ l, ret (sorted l)) w = (Ret (build_paths w), w).
Proof. done. Qed.

Ltac step := erewrite bind_Ret by (first [eassumption | reflexivity]).

Lemma build_main_run w :
  ∃ o fs evs,
    build_main w = (o, mkWorld (listing w) fs (cache w) (log w ++ evs))
    ∧ build_run w o fs evs.
Proof.
  destruct (files w !! OUT_DIR) as [[b|]|] eqn:Hout.
  { eexists _, (files w), []. split; [|by eapply run_out_is_file].
    unfold build_main. erewrite bind_Raise.
    - rewrite app_nil_r. by destruct w.
    - unfold makedirs. by rewrite Hout. }
  all: assert (makedirs OUT_DIR w = (Ret (), set_files out_fs w)) as Hmk
    by (apply makedirs_run; intros b'; by rewrite Hout).
  all: clear Hout; unfold build_main; step.
  all: erewrite bind_Ret by apply glob_sorted_run.
  all: step.
  all: change (build_paths (set_files out_fs w)) with (build_paths w).
  all: set (w1 := add_log _ _).
  all: assert (files w1 = out_fs (files w)) as Hw1 by done.
  all: destruct (build_paths w) as [|p0 paths0] eqn:Hpaths.
  1,3: eexists _, _, [ev_found w]; split;
    [unfold raise, w1, ev_found; by rewrite Hpaths|by apply run_no_files].
  all: rewrite <-Hpaths.
  all: destruct (decide (Forall (readable (files w)) (build_paths w)))
         as [Hall|Hnot].
  2,4: rewrite <-readable_out_fs, <-Hw1 in Hnot;
    destruct (build_read_fail (build_paths w) [] [] w1 Hnot) as (p & Hp & Hnone & Hrun);
    erewrite bind_Raise by exact Hrun;
    eexists _, _, [ev_found w]; split;
    [unfold w1, ev_found; by rewrite Hpaths
    |rewrite Hw1, text_of_out_fs in Hnone by done;
     replace (read_error _ p) with (read_error (files w) p)
       by (symmetry; apply (read_error_out_fs w p Hp));
     by apply run_unreadable].
  all: erewrite bind_Ret by (apply build_read_ok; by rewrite Hw1, readable_out_fs).
  all: rewrite Hw1; cbn [app].
  all: rewrite build_kept_out_fs, build_docs_out_fs.
  all: change (source_of <$> build_kept w) with (build_meta w).
  all: destruct (build_docs w) as [|d0 docs0] eqn:Hdocs.
  1,3: eexists _, _, [ev_found w]; split;
    [unfold raise, w1, ev_found; by rewrite Hpaths
    |apply run_empty; [by rewrite Hpaths|done|];
     unfold build_docs in Hdocs; by apply fmap_nil_inv in Hdocs].
  all: (assert (build_kept w ≠ []) as Hkept
         by (intros Hk; unfold build_docs in Hdocs; by rewrite Hk in Hdocs)).
  all: rewrite <-Hdocs. 
  all: do 2 step.
  all: change (add _ _) with (build_index w).
  all: change (Path.join OUT_DIR (lit "faiss.index")) with index_file.
  all: change (Path.join OUT_DIR (lit "docs.json")) with docs_file.
  all: change (Path.join OUT_DIR (lit "meta.json")) with meta_file.
  all: set (w2 := add_log _ (add_log _ w1)).
  all: assert (files w2 = out_fs (files w)) as Hw2 by done.
  all: destruct (write_error (out_fs (files w)) index_file) as [e1|] eqn:He1.
  1,3: erewrite bind_Raise by (unfold faiss_write_index; by rewrite Hw2, He1);
    eexists _, _, (ev_embed w); split;
    [unfold w2, w1, ev_embed, ev_found; rewrite Hpaths; unfold add_log, set_files; cbn [listing files cache log]; by rewrite <-?app_assoc
    |by eapply run_index_fails].
  all: erewrite bind_Ret by (unfold faiss_write_index; by rewrite Hw2, He1).
  all: set (w3 := set_files _ w2).
  all: assert (files w3 = fs_index w) as Hw3 by reflexivity.
  all: destruct (write_error (fs_index w) docs_file) as [e2|] eqn:He2.
  1,3: erewrite bind_Raise by (unfold dump_json; by rewrite Hw3, He2);
    eexists _, _, (ev_embed w); split;
    [unfold w3, w2, w1, ev_embed, ev_found; rewrite Hpaths; unfold add_log, set_files; cbn [listing files cache log]; by rewrite <-?app_assoc
    |by eapply run_docs_fails].
  all: erewrite bind_Ret by (unfold dump_json; by rewrite Hw3, He2).
  all: set (w4 := set_files _ w3).
  all: assert (files w4 = fs_docs w) as Hw4 by reflexivity.
  all: destruct (write_error (fs_docs w) meta_file) as [e3|] eqn:He3.
  1,3: erewrite bind_Raise by (unfold dump_json; by rewrite Hw4, He3);
    eexists _, _, (ev_embed w); split;
    [unfold w4, w3, w2, w1, ev_embed, ev_found; rewrite Hpaths; unfold add_log, set_files; cbn [listing files cache log]; by rewrite <-?app_assoc
    |by eapply run_meta_fails].
  all: erewrite bind_Ret by (unfold dump_json; by rewrite Hw4, He3).
  all: do 2 step.
  all: eexists _, (fs_meta w), (ev_embed w ++ [Print msg_built; Print msg_saved]); split;
    [|by eapply run_ok].
  all: unfold ret, fs_meta; rewrite <-Hw4.
  all: unfold w4, w3, w2, w1, ev_embed, ev_found; rewrite Hpaths; unfold add_log, set_files; cbn [listing files cache log]; by rewrite <-?app_assoc.
Qed.

(** ** Two runs over one directory (row order) *)

(** Two worlds that differ at most in the order of the listing. *)
Definition same_dir (w1 w2 : world) : Prop :=
  listing w1 ≡ₚ listing w2 ∧ files w1 = files w2
  ∧ cache w1 = cache w2 ∧ log w1 = log w2.

(** [m] cannot tell such worlds apart. *)
Definition order_blind {A} (m : M A) : Prop :=
  ∀ w1 w2, same_dir w1 w2 →
    (m w1).1 = (m w2).1 ∧ same_dir (m w1).2 (m w2).2.

Lemma order_blind_ret {A} (a : A) : order_blind (ret a).
Proof. by intros w1 w2 H. Qed.

Lemma order_blind_raise {A} e : order_blind (@raise A e).
Proof. by intros w1 w2 H. Qed.

Lemma order_blind_bind {A B} (m : M A) (k : A → M B) :
  order_blind m → (∀ a, order_blind (k a)) → order_blind (bind m k).
Proof.
  intros Hm Hk w1 w2 H. unfold bind.
  destruct (Hm w1 w2 H) as [Ho Hw].
  destruct (m w1) as [[a1|e1] w1'], (m w2) as [[a2|e2] w2'];
    simpl in Ho; simplify_eq; [by apply Hk|done].
Qed.

Lemma order_blind_files {A} (m : M A) :
  (∀ w, ∃ f evs o, ∀ l c lg,
      m (mkWorld l (files w) c lg) = (o, mkWorld l (f (files w)) c (lg ++ evs))) →
  order_blind m.
Proof.
  intros Hm [l1 fs1 c1 lg1] [l2 fs2 c2 lg2] (Hl & Hf & Hc & Hlg).
  cbn [listing files cache log] in *. subst.
  destruct (Hm (mkWorld l1 fs2 c2 lg2)) as (f & evs & o & Hrun).
  cbn [files] in Hrun. by rewrite !Hrun.
Qed.

Lemma order_blind_emit e : order_blind (emit e).
Proof.
  apply order_blind_files. intros w.
  by exists (λ fs, fs), [e], (Ret ()).
Qed.

Lemma order_blind_makedirs p : order_blind (makedirs p).
Proof.
  apply order_blind_files. intros w. unfold makedirs, set_files. cbn [files].
  destruct (files w !! p) as [[b|]|].
  - exists (λ fs, fs), [], (Raise (FileExistsError p)). intros. by rewrite app_nil_r.
  - exists (λ fs, fs), [], (Ret ()). intros. by rewrite app_nil_r.
  - exists (insert p Dir), [], (Ret ()). intros. cbn. by rewrite app_nil_r.
Qed.

Lemma order_blind_read_text p : order_blind (read_text p).
Proof.
  apply order_blind_files. intros w.
  exists (λ fs, fs), [], (match text_of (files w) p with
                          | Some s => Ret s
                          | None => Raise (read_error (files w) p)
                          end).
  intros. rewrite read_text_run. by rewrite app_nil_r.
Qed.

Lemma order_blind_dump_json v p : order_blind (dump_json v p).
Proof.
  apply order_blind_files. intros w. unfold dump_json, set_files. cbn [files].
  destruct (write_error (files w) p) as [e|].
  - exists (λ fs, fs), [], (Raise e). intros. by rewrite app_nil_r.
  - exists (insert p (File (json_dump v))), [], (Ret ()). intros. cbn. by rewrite app_nil_r.
Qed.

Lemma order_blind_faiss_write_index ix p : order_blind (faiss_write_index ix p).
Proof.
  apply order_blind_files. intros w. unfold faiss_write_index, set_files. cbn [files].
  destruct (write_error (files w) p) as [e|].
  - exists (λ fs, fs), [], (Raise (FaissError p)). intros. by rewrite app_nil_r.
  - exists (insert p (File (write_index ix))), [], (Ret ()). intros. cbn. by rewrite app_nil_r.
Qed.

Lemma build_paths_order w1 w2 :
  listing w1 ≡ₚ listing w2 → build_paths w1 = build_paths w2.
Proof.
  intros Hl. unfold build_paths. apply sorted_order_irrelevant. by rewrite Hl.
Qed.

(** The one place where the listing is read: sorting hides its order. *)
Lemma order_blind_glob_sorted :
  order_blind (bind (glob DATA_DIR (lit ".txt")) (λ l, ret (sorted l))).
Proof.
  intros w1 w2 H. rewrite !glob_sorted_run. simpl. split; [|done].
  f_equal. apply build_paths_order, H.
Qed.

Lemma order_blind_build_read paths docs meta :
  order_blind (build_read paths docs meta).
Proof.
  revert docs meta. induction paths as [|p paths IH]; intros docs meta.
  - apply order_blind_ret.
  - cbn [build_read]. apply order_blind_bind.
    + apply order_blind_bind; [apply order_blind_read_text|].
      intros s. apply order_blind_ret.
    + intros [|c t]; apply IH.
Qed.

Lemma order_blind_build_main : order_blind build_main.
Proof.
  unfold build_main.
  apply order_blind_bind; [apply order_blind_makedirs|intros _].
  apply order_blind_bind; [apply order_blind_glob_sorted|intros paths].
  apply order_blind_bind; [apply order_blind_emit|intros _].
  destruct paths as [|p paths]; [apply order_blind_raise|].
  apply order_blind_bind; [apply order_blind_build_read|intros [docs meta]].
  destruct docs as [|d docs]; [apply order_blind_raise|].
  unfold SentenceTransformer, model_encode, print.
  repeat first
    [ apply order_blind_bind; [|intros ?]
    | apply order_blind_emit
    | apply order_blind_ret
    | apply order_blind_faiss_write_index
    | apply order_blind_dump_json ].
Qed.

(** The sorted paths are the matching names in lexicographic order. *)
Lemma StronglySorted_join_dir dir names :
  StronglySorted str_le names → StronglySorted str_le (Path.join dir <$> names).
Proof.
  induction 1 as [|n names Hs IH Hn]; simpl; constructor; [done|].
  rewrite Forall_fmap. eapply Forall_impl; [exact Hn|].
  intros m Hm. unfold str_le, Path.join in *. simpl.
  by rewrite !str_leb_prefix.
Qed.

Lemma sorted_join_dir dir names :
  sorted (Path.join dir <$> names) = Path.join dir <$> sorted names.
Proof.
  apply (StronglySorted_unique str_le).
  - apply sorted_StronglySorted.
  - apply StronglySorted_join_dir, sorted_StronglySorted.
  - by rewrite !sorted_Permutation.
Qed.

(** ** The artifacts *)

(** The three scripts spell the same three paths. *)
Lemma artifact_paths :
  INDEX_PATH = index_file ∧ DOCS_PATH = docs_file
  ∧ OUT_DIR ++ lit "/faiss.index" = index_file
  ∧ OUT_DIR ++ lit "/docs.json" = docs_file
  ∧ OUT_DIR ++ lit "/meta.json" = meta_file.
Proof. repeat split; vm_compute; reflexivity. Qed.

Lemma artifact_paths_distinct :
  index_file ≠ docs_file ∧ index_file ≠ meta_file ∧ docs_file ≠ meta_file
  ∧ index_file ≠ OUT_DIR ∧ docs_file ≠ OUT_DIR ∧ meta_file ≠ OUT_DIR.
Proof. repeat split; intros H; vm_compute in H; discriminate H. Qed.

Lemma artifact_dirname :
  Path.dirname index_file = OUT_DIR ∧ Path.dirname docs_file = OUT_DIR
  ∧ Path.dirname meta_file = OUT_DIR.
Proof. repeat split; vm_compute; reflexivity. Qed.

Lemma write_error_None fs p :
  fs !! p ≠ Some Dir → fs !! Path.dirname p = Some Dir → write_error fs p = None.
Proof.
  intros Hp Hd. unfold write_error. rewrite Hd.
  by destruct (fs !! p) as [[b|]|].
Qed.

Lemma write_error_None_inv fs p :
  write_error fs p = None → fs !! p ≠ Some Dir ∧ fs !! Path.dirname p = Some Dir.
Proof.
  unfold write_error.
  destruct (fs !! p) as [[b|]|]; destruct (fs !! Path.dirname p) as [[b'|]|]; done.
Qed.

(** Inside a directory the only obstacle to a write is a directory at the
    path itself. *)
Lemma write_error_in_dir fs p :
  fs !! Path.dirname p = Some Dir →
  write_error fs p
  = match fs !! p with Some Dir => Some (IsADirectoryError p) | _ => None end.
Proof. intros Hd. unfold write_error. by rewrite Hd. Qed.

Lemma fs_index_lookup w :
  fs_index w !! index_file = Some (File (write_index (build_index w))).
Proof. apply lookup_insert_eq. Qed.

Lemma fs_docs_lookup w :
  fs_docs w !! index_file = Some (File (write_index (build_index w)))
  ∧ fs_docs w !! docs_file = Some (File (json_dump (JList (JStr <$> build_docs w)))).
Proof.
  destruct artifact_paths_distinct as (H1 & H2 & H3 & _).
  unfold fs_docs. split.
  - rewrite lookup_insert_ne by done. apply fs_index_lookup.
  - apply lookup_insert_eq.
Qed.

Lemma fs_meta_lookup w :
  fs_meta w !! index_file = Some (File (write_index (build_index w)))
  ∧ fs_meta w !! docs_file = Some (File (json_dump (JList (JStr <$> build_docs w))))
  ∧ fs_meta w !! meta_file = Some (File (json_dump (JList (build_meta w)))).
Proof.
  destruct artifact_paths_distinct as (H1 & H2 & H3 & _).
  destruct (fs_docs_lookup w) as [Hi Hd].
  unfold fs_meta. repeat split.
  - by rewrite lookup_insert_ne.
  - by rewrite lookup_insert_ne.
  - apply lookup_insert_eq.
Qed.

(** When the output directory can be made and no artifact path is taken by
    a directory, the three writes go through. *)
Definition out_writable (fs : gmap (list N) node) : Prop :=
  (∀ b, fs !! OUT_DIR ≠ Some (File b))
  ∧ fs !! index_file ≠ Some Dir ∧ fs !! docs_file ≠ Some Dir
  ∧ fs !! meta_file ≠ Some Dir.

Lemma out_writable_no_error w :
  out_writable (files w) →
  write_error (out_fs (files w)) index_file = None
  ∧ write_error (fs_index w) docs_file = None
  ∧ write_error (fs_docs w) meta_file = None.
Proof.
  intros (Hout & Hi & Hd & Hm).
  destruct artifact_paths_distinct as (H1 & H2 & H3 & H4 & H5 & H6).
  destruct artifact_dirname as (D1 & D2 & D3).
  pose proof (out_fs_dir _ Hout) as Hdir.
  repeat split; apply write_error_None; rewrite ?D1, ?D2, ?D3;
    unfold fs_docs, fs_index;
    rewrite ?lookup_insert_ne by done; rewrite ?out_fs_lookup_ne by done; done.
Qed.

(** A file at the path of the output directory stops the run at once. *)
Lemma build_main_out_is_file w b :
  files w !! OUT_DIR = Some (File b) →
  build_main w = (Raise (FileExistsError OUT_DIR), w).
Proof.
  intros Hb. unfold build_main. erewrite bind_Raise; [done|].
  unfold makedirs. by rewrite Hb.
Qed.

(** The three writes, from the files the run starts with. *)
Lemma build_write_errors w :
  (∀ b, files w !! OUT_DIR ≠ Some (File b)) →
  write_error (out_fs (files w)) index_file
  = match files w !! index_file with
    | Some Dir => Some (IsADirectoryError index_file)
    | _ => None
    end
  ∧ write_error (fs_index w) docs_file
    = match files w !! docs_file with
      | Some Dir => Some (IsADirectoryError docs_file)
      | _ => None
      end
  ∧ write_error (fs_docs w) meta_file
    = match files w !! meta_file with
      | Some Dir => Some (IsADirectoryError meta_file)
      | _ => None
      end.
Proof.
  intros Hout.
  destruct artifact_paths_distinct as (H1 & H2 & H3 & H4 & H5 & H6).
  destruct artifact_dirname as (D1 & D2 & D3).
  pose proof (out_fs_dir _ Hout) as Hdir.
  repeat split; rewrite write_error_in_dir;
    rewrite ?D1, ?D2, ?D3; unfold fs_docs, fs_index;
    rewrite ?lookup_insert_ne by done; rewrite ?out_fs_lookup_ne by done; done.
Qed.

(** What the artifact paths hold after each write. *)
Lemma fs_index_others w :
  fs_index w !! docs_file = files w !! docs_file
  ∧ fs_index w !! meta_file = files w !! meta_file.
Proof.
  destruct artifact_paths_distinct as (H1 & H2 & H3 & H4 & H5 & H6).
  unfold fs_index. rewrite !lookup_insert_ne by done.
  by rewrite !out_fs_lookup_ne by done.
Qed.

Lemma fs_docs_others w : fs_docs w !! meta_file = files w !! meta_file.
Proof.
  destruct artifact_paths_distinct as (H1 & H2 & H3 & H4 & H5 & H6).
  unfold fs_docs. rewrite lookup_insert_ne by done. apply fs_index_others.
Qed.

Lemma out_fs_artifacts fs :
  out_fs fs !! index_file = fs !! index_file
  ∧ out_fs fs !! docs_file = fs !! docs_file
  ∧ out_fs fs !! meta_file = fs !! meta_file.
Proof.
  destruct artifact_paths_distinct as (H1 & H2 & H3 & H4 & H5 & H6).
  by rewrite !out_fs_lookup_ne by done.
Qed.

Lemma build_main_succeeds w :
  out_writable (files w) →
  Forall (readable (files w)) (build_paths w) →
  build_kept w ≠ [] →
  build_main w
  = (Ret (build_index w, build_docs w, build_meta w),
     mkWorld (listing w) (fs_meta w) (cache w)
             (log w ++ ev_embed w ++ [Print msg_built; Print msg_saved])).
Proof.
  intros Hw Hall Hkept.
  destruct (out_writable_no_error w Hw) as (E1 & E2 & E3).
  destruct Hw as (Hout & _).
  destruct (build_main_run w) as (o & fs & evs & -> & Hrun).
  inversion Hrun as [b Hb|Hp|p Hp Hnone|Hp Hr Hk|e' Hr Hk He|e' Hr Hk H1 He
                     |e' Hr Hk H1 H2 He|Hr Hk H1 H2 H3];
    subst; try congruence.
  - unfold build_kept in Hkept. rewrite Hp in Hkept. by destruct Hkept.
  - rewrite Forall_forall in Hall. destruct (Hall p Hp) as [s Hs]. congruence.
Qed.

(** ** Statements about [index_build.py] *)

(** C8.  Running [main] over one directory gives the same result, the same
    files and the same output whatever the order in which the system lists
    the directory: the paths are the matching names in lexicographic order,
    and the rows of the document list and of the metadata list follow the
    sorted paths that have a non-empty text, so a second run assigns every
    document the row it had.  In particular, when the output can be written,
    the listed files can be read and one of them has a non-empty text, both
    runs return the store whose rows are those files in the order of their
    names. *)
Theorem build_row_order_deterministic w l' :
  listing w ≡ₚ l' →
  let w' := mkWorld l' (files w) (cache w) (log w) in
  (build_main w).1 = (build_main w').1
  ∧ files (build_main w).2 = files (build_main w').2
  ∧ log (build_main w).2 = log (build_main w').2
  ∧ build_paths w' = build_paths w
  ∧ (∃ names, names ≡ₚ filter (glob_match (lit ".txt")) (listing w)
              ∧ StronglySorted str_le names
              ∧ build_paths w = Path.join DATA_DIR <$> names)
  ∧ (∀ ix docs meta, (build_main w).1 = Ret (ix, docs, meta) →
       docs = doc_text (files w) <$> filter (indexed (files w)) (build_paths w)
       ∧ meta = source_of <$> filter (indexed (files w)) (build_paths w))
  ∧ (∀ names,
       names ≡ₚ filter (glob_match (lit ".txt")) (listing w) →
       StronglySorted str_le names →
       let rows := filter (indexed (files w)) (Path.join DATA_DIR <$> names) in
       let docs := doc_text (files w) <$> rows in
       let store := (add (mkIndex (shape1 (encode docs)) []) (encode docs),
                     docs, source_of <$> rows) in
       out_writable (files w) →
       Forall (readable (files w)) (Path.join DATA_DIR <$> names) →
       rows ≠ [] →
       (build_main w).1 = Ret store ∧ (build_main w').1 = Ret store).
Proof.
  intros Hl w'.
  assert (same_dir w w') as Hsim by done.
  destruct (order_blind_build_main w w' Hsim) as (Ho & _ & Hf & _ & Hlog).
  assert (build_paths w' = build_paths w) as Hpaths'
    by (symmetry; by apply build_paths_order).
  split; [exact Ho|]. split; [exact Hf|]. split; [exact Hlog|].
  split; [exact Hpaths'|]. split; [|split].
  - exists (sorted (filter (glob_match (lit ".txt")) (listing w))).
    split; [apply sorted_Permutation|].
    split; [apply sorted_StronglySorted|].
    apply sorted_join_dir.
  - intros ix docs meta Hret.
    destruct (build_main_run w) as (o & fs & evs & Hrun & Hcase).
    rewrite Hrun in Hret. simpl in Hret. subst o.
    inversion Hcase; by subst.
  - intros names Hperm Hsorted rows docs store Hw Hall Hrows.
    assert (build_paths w = Path.join DATA_DIR <$> names) as Hpaths.
    { unfold build_paths. rewrite sorted_join_dir. f_equal.
      apply (StronglySorted_unique str_le);
        [apply sorted_StronglySorted|done|by rewrite sorted_Permutation]. }
    unfold store, docs, rows in *. rewrite <-Hpaths in *.
    assert ((build_main w).1
            = Ret (build_index w, build_docs w, build_meta w)) as Hret
      by (by rewrite build_main_succeeds).
    split; [exact Hret|]. by rewrite <-Ho.
Qed.

(** C7 (amended).  When no file sits at the path of the output directory
    (there [os.makedirs] raises before anything is read) and every listed
    file can be read, a file whose text strips to empty is left out without
    an error and without a record of it: the run exits with [SystemExit]
    exactly when no path is listed or no text is left; when a text is left
    and no artifact path is taken by a directory it returns one row per
    non-empty text; the only count it prints is the number of listed paths,
    skipped files included. *)
Theorem build_skips_empty_files w :
  (∀ b, files w !! OUT_DIR ≠ Some (File b)) →
  Forall (readable (files w)) (build_paths w) →
  let kept := filter (indexed (files w)) (build_paths w) in
  ((∃ msg, (build_main w).1 = Raise (SystemExit msg))
   ↔ build_paths w = [] ∨ kept = [])
  ∧ (build_paths w = [] → (build_main w).1 = Raise (SystemExit msg_no_files))
  ∧ (build_paths w ≠ [] → kept = [] →
     (build_main w).1 = Raise (SystemExit msg_empty))
  ∧ (kept ≠ [] → files w !! index_file ≠ Some Dir →
     files w !! docs_file ≠ Some Dir → files w !! meta_file ≠ Some Dir →
     (build_main w).1
     = Ret (build_index w, doc_text (files w) <$> kept, source_of <$> kept))
  ∧ (∃ evs, log (build_main w).2
            = log w ++ Print (msg_found (length (build_paths w))) :: evs
            ∧ evs `prefix_of` [LoadModel MODEL_NAME; Encode (doc_text (files w) <$> kept);
                               Print msg_built; Print msg_saved]).
Proof.
  intros Hout Hall kept.
  destruct (build_main_run w) as (o & fs & evs & Hrun & Hcase).
  rewrite Hrun. cbn [fst snd log].
  assert (∀ p, p ∈ build_paths w → text_of (files w) p ≠ None) as Hread.
  { intros p Hp. rewrite Forall_forall in Hall. by destruct (Hall p Hp) as [s ->]. }
  change (filter _ (build_paths w)) with (build_kept w) in kept.
  inversion Hcase as [b Hb|Hp|p Hp Hnone|Hp Hr Hk|e' Hr Hk He|e' Hr Hk H1 He
                     |e' Hr Hk H1 H2 He|Hr Hk H1 H2 H3]; subst.
  - by destruct (Hout b).
  - repeat split; eauto; try done.
    + intros Hk _ _ _. unfold kept, build_kept in Hk. rewrite Hp in Hk. by destruct Hk.
    + exists []. split; [done|]. apply prefix_nil.
  - by destruct (Hread p Hp).
  - repeat split; eauto; try done.
    exists []. split; [done|]. apply prefix_nil.
  - assert (∀ msg, FaissError index_file ≠ SystemExit msg) as Hne by done.
    repeat split; try done.
    + intros [msg Hmsg]. by destruct (Hne msg); simplify_eq.
    + intros [Hp|Hk']; [|done]. unfold build_kept in Hk. rewrite Hp in Hk. by destruct Hk.
    + intros Hp. unfold build_kept in Hk. rewrite Hp in Hk. by destruct Hk.
    + intros _ Hi Hd Hm.
      destruct (out_writable_no_error w) as (E1 & _); [done|]. congruence.
    + exists [LoadModel MODEL_NAME; Encode (build_docs w)]. split; [done|].
      by exists [Print msg_built; Print msg_saved].
  - assert (∀ msg, e' ≠ SystemExit msg) as Hne.
    { intros msg ->. unfold write_error in He.
      repeat case_match; simplify_eq. }
    repeat split; try done.
    + intros [msg Hmsg]. by destruct (Hne msg); simplify_eq.
    + intros [Hp|Hk']; [|done]. unfold build_kept in Hk. rewrite Hp in Hk. by destruct Hk.
    + intros Hp. unfold build_kept in Hk. rewrite Hp in Hk. by destruct Hk.
    + intros _ Hi Hd Hm.
      destruct (out_writable_no_error w) as (_ & E2 & _); [done|]. congruence.
    + exists [LoadModel MODEL_NAME; Encode (build_docs w)]. split; [done|].
      by exists [Print msg_built; Print msg_saved].
  - assert (∀ msg, e' ≠ SystemExit msg) as Hne.
    { intros msg ->. unfold write_error in He.
      repeat case_match; simplify_eq. }
    repeat split; try done.
    + intros [msg Hmsg]. by destruct (Hne msg); simplify_eq.
    + intros [Hp|Hk']; [|done]. unfold build_kept in Hk. rewrite Hp in Hk. by destruct Hk.
    + intros Hp. unfold build_kept in Hk. rewrite Hp in Hk. by destruct Hk.
    + intros _ Hi Hd Hm.
      destruct (out_writable_no_error w) as (_ & _ & E3); [done|]. congruence.
    + exists [LoadModel MODEL_NAME; Encode (build_docs w)]. split; [done|].
      by exists [Print msg_built; Print msg_saved].
  - repeat split; try done.
    + by intros [msg Hmsg].
    + intros [Hp|Hk']; [|done]. unfold build_kept in Hk. rewrite Hp in Hk. by destruct Hk.
    + intros Hp. unfold build_kept in Hk. rewrite Hp in Hk. by destruct Hk.
    + by exists [LoadModel MODEL_NAME; Encode (build_docs w); Print msg_built; Print msg_saved].
Qed.

(** A run that returns has written the three artifacts of its store. *)
Lemma build_main_Ret_files w ix docs meta :
  (build_main w).1 = Ret (ix, docs, meta) →
  files (build_main w).2 = fs_meta w
  ∧ ix = build_index w ∧ docs = build_docs w ∧ meta = build_meta w.
Proof.
  destruct (build_main_run w) as (o & fs & evs & -> & Hcase).
  cbn [fst snd files]. intros ->.
  inversion Hcase; by subst.
Qed.

(** C5 (amended).  [main] writes the three artifacts straight into the
    output directory, the index first, then the documents, then the
    metadata, with no staging and nothing undone on a failure.  When a file
    sits at the path of the output directory the run raises and changes no
    file.  Otherwise the directory is made, and: when a listed file cannot
    be read, no text is left after stripping (an empty listing included) or
    a directory sits at the path of the index, the run raises and the three
    artifact paths hold what they held before; when the first write goes
    through and a directory sits at the path of the documents, the run
    raises with the index of this build in place; when the first two go
    through and a directory sits at the path of the metadata, it raises with
    the index and the documents of this build in place; in the remaining
    case it returns with all three in place. *)
Theorem build_writes_without_staging w :
  let o := (build_main w).1 in
  let fs' := files (build_main w).2 in
  let new_index := Some (File (write_index (build_index w))) in
  let new_docs := Some (File (json_dump (JList (JStr <$> build_docs w)))) in
  let new_meta := Some (File (json_dump (JList (build_meta w)))) in
  (∀ b, files w !! OUT_DIR = Some (File b) →
     o = Raise (FileExistsError OUT_DIR) ∧ fs' = files w)
  ∧ ((∀ b, files w !! OUT_DIR ≠ Some (File b)) →
     (¬ Forall (readable (files w)) (build_paths w)
      ∨ build_kept w = []
      ∨ files w !! index_file = Some Dir →
      (∃ e, o = Raise e)
      ∧ fs' = out_fs (files w)
      ∧ fs' !! index_file = files w !! index_file
      ∧ fs' !! docs_file = files w !! docs_file
      ∧ fs' !! meta_file = files w !! meta_file)
     ∧ (Forall (readable (files w)) (build_paths w) →
        build_kept w ≠ [] →
        (files w !! index_file = Some Dir → o = Raise (FaissError index_file))
        ∧ (files w !! index_file ≠ Some Dir →
           (files w !! docs_file = Some Dir →
            o = Raise (IsADirectoryError docs_file)
            ∧ fs' = fs_index w
            ∧ fs' !! index_file = new_index
            ∧ fs' !! docs_file = Some Dir
            ∧ fs' !! meta_file = files w !! meta_file)
           ∧ (files w !! docs_file ≠ Some Dir →
              (files w !! meta_file = Some Dir →
               o = Raise (IsADirectoryError meta_file)
               ∧ fs' = fs_docs w
               ∧ fs' !! index_file = new_index
               ∧ fs' !! docs_file = new_docs
               ∧ fs' !! meta_file = Some Dir)
              ∧ (files w !! meta_file ≠ Some Dir →
                 o = Ret (build_index w, build_docs w, build_meta w)
                 ∧ fs' = fs_meta w
                 ∧ fs' !! index_file = new_index
                 ∧ fs' !! docs_file = new_docs
                 ∧ fs' !! meta_file = new_meta))))).
Proof.
  intros o fs' new_index new_docs new_meta.
  unfold o, fs', new_index, new_docs, new_meta. clear.
  destruct (build_main_run w) as (o & fs & evs & Hrun & Hcase).
  rewrite Hrun. cbn [fst snd files].
  destruct (fs_meta_lookup w) as (M1 & M2 & M3).
  destruct (fs_docs_lookup w) as (D1 & D2).
  pose proof (fs_index_lookup w) as I1.
  destruct (fs_index_others w) as (I2 & I3).
  pose proof (fs_docs_others w) as D3.
  destruct (out_fs_artifacts (files w)) as (O1 & O2 & O3).
  split.
  { intros b Hb. rewrite (build_main_out_is_file w b Hb) in Hrun.
    injection Hrun as <- Hw. split; [done|]. by rewrite Hw. }
  intros Hout. destruct (build_write_errors w Hout) as (E1 & E2 & E3).
  inversion Hcase as [b' Hb'|Hp|p Hp Hnone|Hp Hr Hk|e' Hr Hk He|e' Hr Hk H1 He
                      |e' Hr Hk H1 H2 He|Hr Hk H1 H2 H3]; subst;
    [by destruct (Hout b')|..]; rewrite ?E1, ?E2, ?E3 in *.
  all: split; [intros Hor; eauto 10|intros Hall Hkept].
  all: try (exfalso; unfold build_kept in Hkept; rewrite Hp in Hkept; by destruct Hkept).
  all: try (exfalso; rewrite Forall_forall in Hall; destruct (Hall p Hp) as [? ?]; congruence).
  all: try done.
  all: destruct (files w !! index_file) as [[?|]|] eqn:Fi;
       destruct (files w !! docs_file) as [[?|]|] eqn:Fd;
       destruct (files w !! meta_file) as [[?|]|] eqn:Fm; simplify_eq.
  all: try (destruct Hor as [?|[?|?]]; done).
  all: try (repeat split; intros; simplify_eq; done).
  all: try (repeat split; intros; simplify_eq; congruence).
Qed.
(** Reading an artifact. *)
Lemma faiss_read_index_run p w :
  faiss_read_index p w
  = (match files w !! p with
     | Some (File b) =>
         match read_index b with
         | Some ix => Ret ix
         | None => Raise (FaissError p)
         end
     | _ => Raise (FaissError p)
     end, w).
Proof.
  unfold faiss_read_index. destruct (files w !! p) as [[b|]|]; [|done..].
  by destruct (read_index b).
Qed.

Lemma load_json_run p w :
  load_json p w
  = (match files w !! p with
     | None => Raise (FileNotFoundError p)
     | Some Dir => Raise (IsADirectoryError p)
     | Some (File b) =>
         match json_load b with
         | Some v => Ret v
         | None =>
             Raise match utf8_read b with
                   | None => UnicodeDecodeError p
                   | Some _ => JSONDecodeError p
                   end
         end
     end, w).
Proof.
  unfold load_json, json_load, bind at 1. rewrite read_text_run.
  unfold text_of, read_error.
  destruct (files w !! p) as [[b|]|]; [|done..].
  destruct (utf8_read b) as [text|]; [|done]. simpl.
  by destruct (json_loads text).
Qed.

(** C3.  Given serialisers that read back what they wrote, the artifacts a
    successful run leaves are loaded as the very store the run built in
    memory, rows in the same order and nothing recomputed, by [app.py] and by
    [search.py] alike, so every search on the loaded index answers as on
    the built one; and a run succeeds on every corpus that has a non-empty
    text, can be read and can be written out. *)
Theorem load_after_build_same_store w :
  (∀ v, json_load (json_dump v) = Some v) →
  (∀ ix, read_index (write_index ix) = Some ix) →
  (out_writable (files w) → Forall (readable (files w)) (build_paths w) →
   filter (indexed (files w)) (build_paths w) ≠ [] →
   ∃ ix docs meta, (build_main w).1 = Ret (ix, docs, meta) ∧ docs ≠ [])
  ∧ (∀ ix docs meta, (build_main w).1 = Ret (ix, docs, meta) →
     let w' := (build_main w).2 in
     load_data w' = (Ret (ix, JList (JStr <$> docs), JList meta), w')
     ∧ faiss_read_index INDEX_PATH w' = (Ret ix, w')
     ∧ load_json DOCS_PATH w' = (Ret (JList (JStr <$> docs)), w')
     ∧ (∀ ix' docs' meta' w'', load_data w' = (Ret (ix', docs', meta'), w'') →
        docs' = JList (JStr <$> docs) ∧ meta' = JList meta
        ∧ ∀ q k, search ix' q k = search ix q k)).
Proof.
  intros Hjson Hindex. split.
  - intros Hw Hall Hkept. rewrite build_main_succeeds by done.
    eexists _, _, _. split; [done|].
    unfold build_docs. intros Hnil%fmap_nil_inv. done.
  - intros ix docs meta Hret w'.
    assert (files w' !! index_file = Some (File (write_index ix))
            ∧ files w' !! docs_file = Some (File (json_dump (JList (JStr <$> docs))))
            ∧ files w' !! meta_file = Some (File (json_dump (JList meta))))
      as (Hi & Hd & Hm).
    { destruct (build_main_Ret_files w ix docs meta Hret) as (Hfs & -> & -> & ->).
      unfold w'. rewrite Hfs. apply fs_meta_lookup. }
    destruct artifact_paths as (P1 & P2 & P3 & P4 & P5).
    assert (faiss_read_index index_file w' = (Ret ix, w')) as Ri.
    { unfold faiss_read_index. by rewrite Hi, Hindex. }
    assert (load_json docs_file w' = (Ret (JList (JStr <$> docs)), w')) as Rd.
    { by rewrite load_json_run, Hd, Hjson. }
    assert (load_json meta_file w' = (Ret (JList meta), w')) as Rm.
    { by rewrite load_json_run, Hm, Hjson. }
    assert (load_data w' = (Ret (ix, JList (JStr <$> docs), JList meta), w')) as Rl.
    { unfold load_data. rewrite P3, P4, P5.
      erewrite bind_Ret by exact Ri. erewrite bind_Ret by exact Rd.
      by erewrite bind_Ret by exact Rm. }
    rewrite P1, P2. split; [done|]. split; [done|]. split; [done|].
    intros ix' docs' meta' w'' Hload. rewrite Rl in Hload. by simplify_eq.
Qed.

(** ** Statements about loading *)

(** What [load_data] finds at the three paths. *)
Definition parsed_index (fs : gmap (list N) node) : option IndexFlatIP :=
  match fs !! index_file with
  | Some (File b) => read_index b
  | _ => None
  end.

Definition parsed_json (fs : gmap (list N) node) (p : str) : option json :=
  match fs !! p with
  | Some (File b) => json_load b
  | _ => None
  end.

(** The number of rows of a loaded list. *)
Definition rows (v : json) : nat :=
  match v with
  | JList l => length l
  | _ => 0%nat
  end.

(** The exception [json.load(open(p, ...))] ends with when it gives no
    value: the one of [open], of the decoder, or of the parser. *)
Definition json_error (fs : gmap (list N) node) (p : str) : exn :=
  match fs !! p with
  | None => FileNotFoundError p
  | Some Dir => IsADirectoryError p
  | Some (File b) =>
      match utf8_read b with
      | None => UnicodeDecodeError p
      | Some _ => JSONDecodeError p
      end
  end.

Lemma load_json_cases p w :
  load_json p w
  = (match parsed_json (files w) p with
     | Some v => Ret v
     | None => Raise (json_error (files w) p)
     end, w).
Proof.
  rewrite load_json_run. unfold parsed_json, json_error.
  destruct (files w !! p) as [[b|]|]; [|done..].
  by destruct (json_load b).
Qed.

Lemma load_data_cases w :
  (load_data w).2 = w
  ∧ (parsed_index (files w) = None →
     (load_data w).1 = Raise (FaissError index_file))
  ∧ (∀ ix, parsed_index (files w) = Some ix →
     parsed_json (files w) docs_file = None →
     (load_data w).1 = Raise (json_error (files w) docs_file))
  ∧ (∀ ix docs, parsed_index (files w) = Some ix →
     parsed_json (files w) docs_file = Some docs →
     parsed_json (files w) meta_file = None →
     (load_data w).1 = Raise (json_error (files w) meta_file))
  ∧ (∀ ix docs meta, parsed_index (files w) = Some ix →
     parsed_json (files w) docs_file = Some docs →
     parsed_json (files w) meta_file = Some meta →
     (load_data w).1 = Ret (ix, docs, meta)).
Proof.
  destruct artifact_paths as (_ & _ & P3 & P4 & P5).
  unfold load_data, parsed_index, bind.
  rewrite P3, P4, P5, faiss_read_index_run.
  destruct (files w !! index_file) as [[bi|]|]; [|by repeat split..].
  destruct (read_index bi) as [ix|]; [|by repeat split].
  rewrite load_json_cases.
  destruct (parsed_json (files w) docs_file) as [docs|];
    [|repeat split; try done; intros; simplify_eq; auto].
  rewrite load_json_cases.
  destruct (parsed_json (files w) meta_file) as [meta|];
    repeat split; try done; intros; simplify_eq; auto.
Qed.



(** ** Answering a query *)

(** The documented contract of the two libraries, as far as the statements
    below need it: the embedder returns one row per text, and
    [index.search] returns [k] labels, first every stored row at most once
    (all of them when [k] reaches [ntotal]), then [-1] for the slots it
    cannot fill. *)
Definition embedder_contract : Prop :=
  ∀ texts, length (encode texts) = length texts.

Definition search_contract : Prop :=
  ∀ ix q k, ∃ found : list nat,
    NoDup found ∧ Forall (λ r, (r < ntotal ix)%nat) found
    ∧ length found = (k `min` ntotal ix)%nat
    ∧ (search ix q k).*2 = (Z.of_nat <$> found) ++ replicate (k - ntotal ix) (-1)%Z.

(** A loaded store of [n] documents with their sources. *)
Definition source_json (name : str) : json := JDict [(lit "source", JStr name)].
Definition docs_json (ds : list str) : json := JList (JStr <$> ds).
Definition meta_json (srcs : list str) : json := JList (source_json <$> srcs).

(** The row a label stands for in a list of [n] rows, Python's way. *)
Definition row_of (n : nat) (id : Z) : nat :=
  if (0 <=? id)%Z then Z.to_nat id else (n - Z.to_nat (- id))%nat.

Definition label_ok (n : nat) (id : Z) : Prop := (- Z.of_nat n ≤ id < Z.of_nat n)%Z.

Definition doc_at (ds : list str) (r : nat) : str := default [] (ds !! r).

Definition add_logs (evs : list event) (w : world) : world :=
  mkWorld (listing w) (files w) (cache w) (log w ++ evs).

Lemma add_logs_nil w : add_logs [] w = w.
Proof. destruct w. unfold add_logs. simpl. by rewrite app_nil_r. Qed.

Lemma add_logs_app evs1 evs2 w : add_logs evs2 (add_logs evs1 w) = add_logs (evs1 ++ evs2) w.
Proof. unfold add_logs. simpl. by rewrite app_assoc. Qed.

Lemma emit_run e w : emit e w = (Ret (), add_logs [e] w).
Proof. done. Qed.

Lemma index_row {A} (l : list A) id :
  label_ok (length l) id → Py.index l id = l !! row_of (length l) id.
Proof.
  unfold label_ok, Py.index, row_of. intros [Hlo Hhi].
  destruct (0 <=? id)%Z eqn:H0; [done|].
  apply Z.leb_gt in H0.
  rewrite (proj2 (Z.leb_le _ _)) by done. f_equal. lia.
Qed.

Lemma index_docs ds id :
  label_ok (length ds) id →
  Py.index (JStr <$> ds) id = Some (JStr (doc_at ds (row_of (length ds) id))).
Proof.
  intros Hok. rewrite index_row by (by rewrite length_fmap).
  rewrite length_fmap, list_lookup_fmap. unfold doc_at.
  destruct (ds !! row_of (length ds) id) eqn:Hl; [done|].
  apply lookup_ge_None in Hl. unfold label_ok, row_of in *.
  destruct (0 <=? id)%Z eqn:H0; [apply Z.leb_le in H0|apply Z.leb_gt in H0]; lia.
Qed.

Lemma index_none {A} (l : list A) id :
  ¬ label_ok (length l) id → Py.index l id = None.
Proof.
  unfold label_ok, Py.index. intros Hno.
  destruct (0 <=? id)%Z eqn:H0.
  - apply Z.leb_le in H0. apply lookup_ge_None. lia.
  - apply Z.leb_gt in H0.
    destruct (- Z.of_nat (length l) <=? id)%Z eqn:H1; [|done].
    apply Z.leb_le in H1. lia.
Qed.

(** The lines [search.py] prints for the rows [shown], from [rank] on. *)
Fixpoint cli_lines (ds : list str) (shown : list nat) (rank : nat) : list event :=
  match shown with
  | [] => []
  | r :: shown' =>
      Print (str_of_nat rank ++ lit ". " ++ preview (doc_at ds r))
      :: cli_lines ds shown' (S rank)
  end.

Lemma search_show_run ds ids rank w :
  Forall (label_ok (length ds)) ids →
  search_show (docs_json ds) ids rank w
  = (Ret (), add_logs (cli_lines ds (row_of (length ds) <$> ids) rank) w).
Proof.
  intros Hids. revert rank w.
  induction Hids as [|id ids Hid _ IH]; intros rank w.
  - simpl. by rewrite add_logs_nil.
  - cbn [search_show fmap list_fmap cli_lines].
    erewrite bind_Ret;
      [|unfold getitem, docs_json; by rewrite index_docs].
    cbn [json_preview]. do 2 step. rewrite IH.
    change (add_log ?e ?x) with (add_logs [e] x). by rewrite add_logs_app.
Qed.


(** What [app.py] renders for the hits (score, row), from [rank] on. *)
Fixpoint app_blocks (ds srcs : list str) (hits : list (f32 * nat)) (rank : nat)
  : list event :=
  match hits with
  | [] => []
  | (score, r) :: hits' =>
      StMarkdown (lit "**" ++ str_of_nat rank ++ lit ". " ++ doc_at srcs r
                  ++ lit "** " ++ [8212] ++ lit " score `" ++ fmt3 score ++ lit "`")
      :: StWrite (snippet (doc_at ds r) snippet_n)
      :: StDivider
      :: app_blocks ds srcs hits' (S rank)
  end.

Lemma getkey_source name w :
  getkey (source_json name) (lit "source") w = (Ret (JStr name), w).
Proof. reflexivity. Qed.

Lemma index_meta srcs id :
  label_ok (length srcs) id →
  Py.index (source_json <$> srcs) id
  = Some (source_json (doc_at srcs (row_of (length srcs) id))).
Proof.
  intros Hok. rewrite index_row by (by rewrite length_fmap).
  rewrite length_fmap, list_lookup_fmap. unfold doc_at.
  destruct (srcs !! row_of (length srcs) id) eqn:Hl; [done|].
  apply lookup_ge_None in Hl. unfold label_ok, row_of in *.
  destruct (0 <=? id)%Z eqn:H0; [apply Z.leb_le in H0|apply Z.leb_gt in H0]; lia.
Qed.

Lemma app_show_run ds srcs hits rank w :
  length srcs = length ds →
  Forall (λ h, label_ok (length ds) h.2) hits →
  app_show (docs_json ds) (meta_json srcs) hits rank w
  = (Ret (), add_logs (app_blocks ds srcs
                         ((λ h, (h.1, row_of (length ds) h.2)) <$> hits) rank) w).
Proof.
  intros Hlen Hhits. revert rank w.
  induction Hhits as [|[score id] hits Hid _ IH]; intros rank w.
  - simpl. by rewrite add_logs_nil.
  - cbn [app_show fmap list_fmap app_blocks fst snd] in *.
    erewrite bind_Ret;
      [|unfold getitem, meta_json; by rewrite index_meta by (by rewrite Hlen)].
    erewrite bind_Ret by apply getkey_source.
    erewrite bind_Ret by apply emit_run.
    erewrite bind_Ret;
      [|unfold getitem, docs_json; by rewrite index_docs].
    cbn [json_snippet]. step.
    erewrite bind_Ret by apply emit_run.
    erewrite bind_Ret by apply emit_run.
    rewrite IH, !add_logs_app. rewrite Hlen. done.
Qed.

Lemma app_show_fail ds srcs score id hits rank w :
  ¬ label_ok (length srcs) id →
  app_show (docs_json ds) (meta_json srcs) ((score, id) :: hits) rank w
  = (Raise IndexError, w).
Proof.
  intros Hid. cbn [app_show].
  erewrite bind_Raise; [done|].
  unfold getitem, meta_json.
  rewrite index_none; [done|]. by rewrite length_fmap.
Qed.











(** The start of a run of the page: the page configuration, the title,
    the caption, the two widgets and the model. *)
Definition app_header : list event :=
  [page_config; StTitle msg_title; StCaption msg_caption;
   StTextInput [] msg_placeholder; StSlider (lit "Top results") 1 10 5;
   LoadModel MODEL_NAME].

Lemma app_main_cached query top_k w ix docs meta :
  cache w = Some (ix, docs, meta) →
  app_main query top_k w
  = match query with
    | _ :: _ =>
        bind (model_encode [query]) (λ q_emb,
        bind (index_search ix q_emb top_k) (λ res,
        bind (lift (Py.index (scores_of res) 0) IndexError) (λ scores0,
        bind (lift (Py.index (ids_of res) 0) IndexError) (λ ids0,
        bind (emit (StSubheader (lit "Results"))) (λ _,
        app_show docs meta (zip scores0 ids0) 1)))))
    | [] => emit (StInfo msg_info)
    end (add_logs app_header w).
Proof.
  intros Hc. unfold app_main.
  do 6 (erewrite bind_Ret by apply emit_run).
  erewrite bind_Ret;
    [|unfold cache_resource; cbn [cache add_logs]; by rewrite Hc].
  by rewrite !add_logs_app.
Qed.






(** ** Fewer rows than hits asked for *)

Lemma found_labels_ok n (found : list nat) m :
  Forall (λ r, (r < n)%nat) found → (1 ≤ n)%nat →
  Forall (label_ok n) ((Z.of_nat <$> found) ++ replicate m (-1)%Z).
Proof.
  intros Hf Hn. apply Forall_app. split.
  - rewrite Forall_fmap. eapply Forall_impl; [exact Hf|].
    intros r Hr. unfold label_ok. simpl in *. lia.
  - apply Forall_replicate. unfold label_ok. lia.
Qed.

Lemma found_rows n (found : list nat) m :
  row_of n <$> ((Z.of_nat <$> found) ++ replicate m (-1)%Z)
  = found ++ replicate m (n - 1)%nat.
Proof.
  rewrite fmap_app, fmap_replicate. f_equal.
  rewrite <-list_fmap_compose. rewrite <-(list_fmap_id found) at 2.
  apply list_fmap_ext. intros i r _. unfold row_of. simpl.
  rewrite (proj2 (Z.leb_le _ _)) by lia. lia.
Qed.


Lemma fmap_snd_zip {A B C} (f : B → C) (l : list (A * B)) :
  (λ h, (h.1, f h.2)) <$> l = zip l.*1 (f <$> l.*2).
Proof. induction l as [|[a b] l IH]; [done|]. simpl. f_equal. exact IH. Qed.

Lemma app_blocks_length ds srcs hits rank :
  length (app_blocks ds srcs hits rank) = (3 * length hits)%nat.
Proof.
  revert rank. induction hits as [|[score r] hits IH]; intros rank; [done|].
  cbn [app_blocks length]. rewrite IH. lia.
Qed.

Lemma cli_lines_length ds shown rank : length (cli_lines ds shown rank) = length shown.
Proof.
  revert rank. induction shown as [|r shown IH]; intros rank; [done|].
  cbn [cli_lines length]. by rewrite IH.
Qed.

(** C2 (amended).  [index.search] hands back [k] entries whatever the
    number [N] of documents, and the page renders every one of them: with
    [k > N >= 1] the first [N] blocks show the stored rows, each once, and
    the other [k - N] blocks, whose label is [-1], show the last row again;
    on an empty store the first block already raises [IndexError]. *)
Theorem app_renders_k_hits ix ds srcs c query top_k w :
  embedder_contract → search_contract →
  ntotal ix = length ds → length srcs = length ds →
  cache w = Some (ix, docs_json ds, meta_json srcs) →
  ∃ qv found,
    encode [c :: query] = [qv]
    ∧ NoDup found ∧ Forall (λ r, (r < length ds)%nat) found
    ∧ length found = (top_k `min` length ds)%nat
    ∧ let shown := found ++ replicate (top_k - length ds) (length ds - 1)%nat in
      let blocks := app_blocks ds srcs (zip (search ix qv top_k).*1 shown) 1 in
      length shown = top_k
      ∧ ((1 ≤ length ds)%nat →
         app_main (c :: query) top_k w
         = (Ret (), add_logs (app_header
                              ++ [Encode [c :: query]; Search top_k;
                                  StSubheader (lit "Results")]
                              ++ blocks) w)
         ∧ length blocks = (3 * top_k)%nat)
      ∧ (length ds = 0%nat → (1 ≤ top_k)%nat →
         app_main (c :: query) top_k w
         = (Raise IndexError,
            add_logs (app_header
                      ++ [Encode [c :: query]; Search top_k;
                          StSubheader (lit "Results")]) w)).
Proof.
  intros Henc Hsearch Hix Hsrcs Hcache.
  pose proof (Henc [c :: query]) as Hq.
  destruct (encode [c :: query]) as [|qv [|??]] eqn:Hqv; try done. clear Hq.
  destruct (Hsearch ix qv top_k) as (found & Hnd & Hlt & Hlen & Hids).
  rewrite Hix in *.
  exists qv, found. split; [done|]. do 3 (split; [done|]).
  assert (length (search ix qv top_k) = top_k) as Hk.
  { rewrite <-(length_fmap snd), Hids, length_app, length_fmap, length_replicate. lia. }
  assert (app_main (c :: query) top_k w
          = app_show (docs_json ds) (meta_json srcs) (search ix qv top_k) 1
              (add_logs (app_header ++ [Encode [c :: query]; Search top_k;
                                        StSubheader (lit "Results")]) w)) as Hrun.
  { rewrite (app_main_cached _ _ _ _ _ _ Hcache).
    unfold model_encode, index_search.
    erewrite bind_Ret by (erewrite bind_Ret by apply emit_run; reflexivity).
    erewrite bind_Ret by (erewrite bind_Ret by apply emit_run; reflexivity).
    rewrite Hqv. cbn [fmap list_fmap scores_of ids_of Py.index Z.leb Z.to_nat lookup list_lookup lift].
    do 2 step. erewrite bind_Ret by apply emit_run.
    rewrite zip_fst_snd, !add_logs_app. by rewrite <-?app_assoc. }
  cbv zeta. split; [|split].
  - rewrite length_app, length_replicate. lia.
  - intros Hn. split.
    + rewrite Hrun, app_show_run; [|done|].
      * rewrite add_logs_app, <-?app_assoc.
        by rewrite fmap_snd_zip, Hids, found_rows.
      * assert (Forall (label_ok (length ds)) (search ix qv top_k).*2) as Hok
          by (rewrite Hids; by apply found_labels_ok).
        exact (proj1 (Forall_fmap _ _ _) Hok).
    + rewrite app_blocks_length, length_zip_with, length_fmap, Hk.
      rewrite length_app, length_replicate. lia.
  - intros Hn Hk1. rewrite Hrun.
    destruct (search ix qv top_k) as [|[score id] hits] eqn:Hs; [simpl in Hk; lia|].
    apply app_show_fail. rewrite Hsrcs, Hn.
    assert (id = (-1)%Z) as ->.
    { rewrite Hn, Nat.min_0_r in *. destruct found; [|done].
      destruct top_k; [lia|]. simpl in Hids. by injection Hids. }
    unfold label_ok. simpl. lia.
Qed.




(** ** Queries only read *)

Definition read_only {A} (m : M A) : Prop :=
  ∀ w, files (m w).2 = files w ∧ cache (m w).2 = cache w.

Lemma read_only_bind {A B} (m : M A) (k : A → M B) :
  read_only m → (∀ a, read_only (k a)) → read_only (bind m k).
Proof.
  intros Hm Hk w. unfold bind. destruct (Hm w) as [H1 H2].
  destruct (m w) as [[a|e] w1]; simpl in *; [|done].
  destruct (Hk a w1) as [H3 H4]. split; congruence.
Qed.

Lemma read_only_pure {A} (m : M A) : (∀ w, (m w).2 = w) → read_only m.
Proof. intros Hm w. by rewrite Hm. Qed.

Lemma read_only_emit e : read_only (emit e).
Proof. by intros w. Qed.

Lemma read_only_lift {A} (o : option A) e : read_only (lift o e).
Proof. apply read_only_pure. by destruct o. Qed.

Lemma read_only_getitem v i : read_only (getitem v i).
Proof. destruct v; try apply read_only_lift; by apply read_only_pure. Qed.

Lemma read_only_search_show docs ids rank : read_only (search_show docs ids rank).
Proof.
  revert rank. induction ids as [|id ids IH]; intros rank.
  - by apply read_only_pure.
  - cbn [search_show].
    apply read_only_bind; [apply read_only_getitem|intros d].
    apply read_only_bind; [destruct d; by apply read_only_pure|intros p].
    apply read_only_bind; [apply read_only_emit|intros _]. apply IH.
Qed.

Lemma read_only_app_show docs meta hits rank : read_only (app_show docs meta hits rank).
Proof.
  revert rank. induction hits as [|[score id] hits IH]; intros rank.
  - by apply read_only_pure.
  - cbn [app_show].
    apply read_only_bind; [apply read_only_getitem|intros m].
    apply read_only_bind;
      [destruct m; try (by apply read_only_pure); apply read_only_lift|intros s].
    apply read_only_bind; [apply read_only_emit|intros _].
    apply read_only_bind; [apply read_only_getitem|intros d].
    apply read_only_bind; [destruct d; by apply read_only_pure|intros p].
    apply read_only_bind; [apply read_only_emit|intros _].
    apply read_only_bind; [apply read_only_emit|intros _]. apply IH.
Qed.

Ltac solve_read_only :=
  repeat first
    [ apply read_only_bind; [|intros ?]
    | apply read_only_emit
    | apply read_only_lift
    | apply read_only_search_show
    | apply read_only_app_show
    | by apply read_only_pure ].

Lemma read_only_search_loop ix docs stdin : read_only (search_loop ix docs stdin).
Proof.
  induction stdin as [|line stdin IH]; cbn [search_loop].
  - solve_read_only.
  - apply read_only_bind; [apply read_only_emit|intros _].
    case_bool_decide; [apply read_only_emit|].
    apply read_only_bind; [|by intros _].
    unfold search_answer, model_encode, index_search, print. solve_read_only.
Qed.

Lemma read_only_search_main stdin : read_only (search_main stdin).
Proof.
  unfold search_main, print, SentenceTransformer.
  apply read_only_bind; [apply read_only_emit|intros _].
  apply read_only_bind; [apply read_only_emit|intros _].
  apply read_only_bind;
    [apply read_only_pure; intros w; by rewrite faiss_read_index_run|intros ix].
  apply read_only_bind;
    [apply read_only_pure; intros w; by rewrite load_json_run|intros docs].
  apply read_only_bind; [apply read_only_emit|intros _].
  apply read_only_search_loop.
Qed.

(** ** The previews *)

(** C9 (amended).  The page's [snippet] turns every run of whitespace of
    the document into one space, drops it at both ends, keeps the words, and
    cuts the result to its first 280 characters followed by an ellipsis
    when it is longer, adding nothing otherwise.  The command-line preview
    is another one: the first 160 characters of the stored text followed by
    three dots when the text is longer, the text itself otherwise, its
    whitespace untouched.  Neither changes the stored documents: a run of
    the page leaves the files and a filled cache as they were. *)
Theorem previews_spec (text : str) :
  let t := collapse text in
  split t = split text
  ∧ Forall (λ c, isspace c = true → c = 32) t
  ∧ adjacent (λ a b, isspace a = false ∨ isspace b = false) t
  ∧ (∀ c, head t = Some c ∨ last t = Some c → isspace c = false)
  ∧ ((length t ≤ 280)%nat → snippet text snippet_n = t)
  ∧ ((280 < length t)%nat → snippet text snippet_n = take 280 t ++ [8230])
  ∧ ((length text ≤ 160)%nat → preview text = text)
  ∧ ((160 < length text)%nat → preview text = take 160 text ++ lit "...")
  ∧ (∀ query top_k w store,
       cache w = Some store →
       files (app_main query top_k w).2 = files w
       ∧ cache (app_main query top_k w).2 = Some store)
  ∧ (∀ stdin w,
       files (search_main stdin w).2 = files w
       ∧ cache (search_main stdin w).2 = cache w).
Proof.
  cbv zeta. unfold collapse.
  pose proof (split_words (strip text)) as Hwords.
  split; [by rewrite split_join, split_strip|].
  split; [by apply join_only_spaces|].
  split; [by apply join_no_runs|].
  split; [intros c [Hc|Hc]; [by eapply join_head|by eapply join_last]|].
  split.
  { intros Hlen. unfold snippet, snippet_n.
    by rewrite (proj2 (Nat.leb_le _ _)) by done. }
  split.
  { intros Hlen. unfold snippet, snippet_n, slice_to.
    by rewrite (proj2 (Nat.leb_gt _ _)) by done. }
  split.
  { intros Hlen. unfold preview, slice_to.
    rewrite (proj2 (Nat.ltb_ge _ _)) by done.
    by rewrite app_nil_r, take_ge. }
  split.
  { intros Hlen. unfold preview, slice_to.
    by rewrite (proj2 (Nat.ltb_lt _ _)) by done. }
  split; [|intros stdin w; apply read_only_search_main].
  intros query top_k w [[ix docs] meta] Hc.
  rewrite (app_main_cached _ _ _ _ _ _ Hc). rewrite <-Hc.
  match goal with
  | |- context [?m (add_logs app_header w)] =>
      assert (read_only m) as Hro
  end.
  { destruct query; unfold model_encode, index_search; solve_read_only. }
  apply (Hro (add_logs app_header w)).
Qed.

(** ** Further properties of [index_build.py] *)

Lemma lstrip_fixed t :
  (∀ c, head t = Some c → isspace c = false) → lstrip t = t.
Proof.
  destruct t as [|c t]; [done|]. intros H. simpl. by rewrite (H c).
Qed.

Lemma rstrip_fixed t :
  (∀ c, last t = Some c → isspace c = false) → rstrip t = t.
Proof.
  intros H. unfold rstrip. rewrite lstrip_fixed.
  - apply reverse_involutive.
  - intros c Hc. apply H. by rewrite <-head_reverse.
Qed.

Lemma strip_head s c : head (strip s) = Some c → isspace c = false.
Proof.
  unfold strip. destruct (rstrip_spec (lstrip s)) as (ws & Hs & _).
  intros Hc. apply (lstrip_head s c). rewrite Hs.
  destruct (rstrip (lstrip s)); [done|]. exact Hc.
Qed.

Lemma strip_last s c : last (strip s) = Some c → isspace c = false.
Proof. apply rstrip_last. Qed.

(** Stripping twice is stripping once. *)
Lemma strip_idemp s : strip (strip s) = strip s.
Proof.
  unfold strip at 1. rewrite lstrip_fixed by apply strip_head.
  apply rstrip_fixed, strip_last.
Qed.

Lemma basename_join dir name :
  Path.has_slash name = false → Path.basename (Path.join dir name) = name.
Proof.
  intros Hname. unfold Path.join. induction dir as [|c dir IH].
  - cbn [app]. change (lit "/" ++ name) with (47 :: name).
    cbn [Path.basename]. by rewrite Hname.
  - cbn [app Path.basename].
    assert (Path.has_slash (dir ++ lit "/" ++ name) = true) as ->; [|exact IH].
    unfold Path.has_slash. rewrite existsb_app. apply orb_true_iff. right.
    reflexivity.
Qed.

Lemma StronglySorted_filter_keep {A} (R : relation A) (P : A → Prop)
    `{!∀ x, Decision (P x)} (l : list A) :
  StronglySorted R l → StronglySorted R (filter P l).
Proof.
  induction 1 as [|x l Hl IH Hx]; [constructor|].
  rewrite filter_cons. destruct (decide (P x)); [|done].
  constructor; [done|]. apply Forall_forall. intros y [_ Hy]%list_elem_of_filter.
  rewrite Forall_forall in Hx. by apply Hx.
Qed.

Lemma filter_fmap_comm {A B} (f : A → B) (P : B → Prop)
    `{!∀ x, Decision (P x)} (l : list A) :
  filter P (f <$> l) = f <$> filter (λ x, P (f x)) l.
Proof.
  induction l as [|x l IH]; [done|].
  cbn [fmap list_fmap]. rewrite !filter_cons, IH.
  by destruct (decide (P (f x))).
Qed.

(** X1.  A run that returns has built parallel lists: as many metadata
    records as documents, at least one document, every document non-empty
    and free of surrounding whitespace, and an index holding exactly the
    rows the embedder returned for the documents, in their order. *)
Theorem build_rows_invariant w ix docs meta :
  (build_main w).1 = Ret (ix, docs, meta) →
  length meta = length docs
  ∧ docs ≠ []
  ∧ Forall (λ d, d ≠ [] ∧ strip d = d) docs
  ∧ ix_xb ix = encode docs
  ∧ ix_d ix = shape1 (encode docs)
  ∧ ((∀ texts, length (encode texts) = length texts) → ntotal ix = length docs).
Proof.
  intros Hret.
  destruct (build_main_Ret_files w ix docs meta Hret) as (_ & -> & -> & ->).
  assert (build_kept w ≠ []) as Hkept.
  { destruct (build_main_run w) as (o & fs & evs & Hrun & Hcase).
    rewrite Hrun in Hret. simpl in Hret. subst o. by inversion Hcase. }
  split; [unfold build_meta, build_docs; by rewrite !length_fmap|].
  split; [unfold build_docs; by intros ?%fmap_nil_inv|].
  split.
  { unfold build_docs, build_kept. apply Forall_fmap, Forall_forall.
    intros p [Hp _]%list_elem_of_filter. split; [exact Hp|].
    unfold doc_text. apply strip_idemp. }
  split; [done|]. split; [done|].
  intros Henc. unfold ntotal, build_index, add. cbn [ix_xb app]. apply Henc.
Qed.

(** X2.  The source recorded for a row is the name of its file as the
    directory lists it: a name that ends in [.txt] and does not start with a
    dot, the names of the rows being in ascending order, and different for
    different rows when the listing has no name twice. *)
Theorem build_meta_names w ix docs meta :
  Forall (λ name, Path.has_slash name = false) (listing w) →
  (build_main w).1 = Ret (ix, docs, meta) →
  ∃ names,
    meta = (λ name, JDict [(lit "source", JStr name)]) <$> names
    ∧ length names = length docs
    ∧ StronglySorted str_le names
    ∧ (NoDup (listing w) → NoDup names)
    ∧ Forall (λ name, name ∈ listing w
                      ∧ Path.endswith (lit ".txt") name = true
                      ∧ Path.ishidden name = false) names.
Proof.
  intros Hnames Hret.
  destruct (build_main_Ret_files w ix docs meta Hret) as (_ & _ & -> & ->).
  unfold build_meta, build_docs, build_kept, build_paths.
  rewrite sorted_join_dir, filter_fmap_comm.
  set (matching := filter (glob_match (lit ".txt")) (listing w)).
  set (names := filter (λ x, indexed (files w) (Path.join DATA_DIR x)) (sorted matching)).
  assert (∀ name, name ∈ names → name ∈ matching) as Hsub.
  { intros name [_ Hin]%list_elem_of_filter. by rewrite sorted_Permutation in Hin. }
  exists names. split; [|split; [|split; [|split]]].
  - rewrite <-list_fmap_compose. apply list_fmap_ext. intros i name Hi.
    apply list_elem_of_lookup_2, Hsub in Hi.
    apply list_elem_of_filter in Hi as [_ Hi].
    rewrite Forall_forall in Hnames. unfold source_of, compose.
    by rewrite basename_join by (by apply Hnames).
  - by rewrite !length_fmap.
  - apply StronglySorted_filter_keep, sorted_StronglySorted.
  - intros Hnd. apply NoDup_filter. rewrite sorted_Permutation.
    by apply NoDup_filter.
  - apply Forall_forall. intros name Hin%Hsub.
    apply list_elem_of_filter in Hin as [[Hh He] Hin]. done.
Qed.

(** *** What a run leaves alone *)

Lemma data_path_not_artifact name :
  Path.join DATA_DIR name ∉ [OUT_DIR; index_file; docs_file; meta_file].
Proof.
  intros Hin.
  repeat (apply elem_of_cons in Hin as [Hin|Hin]; [vm_compute in Hin; discriminate Hin|]).
  by apply elem_of_nil in Hin.
Qed.

Lemma fs_meta_lookup_ne w p :
  p ∉ [OUT_DIR; index_file; docs_file; meta_file] → fs_meta w !! p = files w !! p.
Proof.
  intros Hp.
  assert (p ≠ OUT_DIR ∧ p ≠ index_file ∧ p ≠ docs_file ∧ p ≠ meta_file)
    as (H0 & H1 & H2 & H3) by (repeat split; intros ->; apply Hp; set_solver).
  unfold fs_meta, fs_docs, fs_index.
  rewrite !lookup_insert_ne by done. by apply out_fs_lookup_ne.
Qed.

(** X3.  A run, however it ends, changes no path other than the output
    directory and the three artifacts: the files of the corpus are left as
    they were, an entry that exists at the output directory is never
    replaced, and neither the directory listing nor the page's cache is
    touched; the log only grows. *)
Theorem build_touches_artifacts_only w :
  let w' := (build_main w).2 in
  (∀ p, p ∉ [OUT_DIR; index_file; docs_file; meta_file] →
        files w' !! p = files w !! p)
  ∧ (∀ name, files w' !! Path.join DATA_DIR name = files w !! Path.join DATA_DIR name)
  ∧ (∀ n, files w !! OUT_DIR = Some n → files w' !! OUT_DIR = Some n)
  ∧ listing w' = listing w
  ∧ cache w' = cache w
  ∧ log w `prefix_of` log w'.
Proof.
  cbv zeta.
  destruct (build_main_run w) as (o & fs & evs & -> & Hcase).
  cbn [fst snd files listing cache log].
  assert (∀ p, p ∉ [OUT_DIR; index_file; docs_file; meta_file] → fs !! p = files w !! p)
    as Hframe.
  { intros p Hp.
    assert (p ≠ OUT_DIR ∧ p ≠ index_file ∧ p ≠ docs_file ∧ p ≠ meta_file)
      as (H0 & H1 & H2 & H3) by (repeat split; intros ->; apply Hp; set_solver).
    inversion Hcase; subst; unfold fs_meta, fs_docs, fs_index;
      rewrite ?lookup_insert_ne by done; rewrite ?out_fs_lookup_ne by done; done. }
  split; [exact Hframe|].
  split; [intros name; apply Hframe, data_path_not_artifact|].
  split; [|split; [done|split; [done|by eexists]]].
  intros n Hn.
  destruct artifact_paths_distinct as (_ & _ & _ & H4 & H5 & H6).
  assert (out_fs (files w) !! OUT_DIR = Some n) as Hout
    by (unfold out_fs; by rewrite Hn).
  inversion Hcase; subst; unfold fs_meta, fs_docs, fs_index;
    rewrite ?lookup_insert_ne by done; done.
Qed.

(** *** Running [main] again *)

(** The store a run builds depends on the listing through the sorted paths
    and on the files through the texts at these paths. *)
Lemma build_same_inputs w1 w2 :
  build_paths w1 = build_paths w2 →
  (∀ p, p ∈ build_paths w1 → files w1 !! p = files w2 !! p) →
  build_kept w1 = build_kept w2 ∧ build_docs w1 = build_docs w2
  ∧ build_meta w1 = build_meta w2 ∧ build_index w1 = build_index w2
  ∧ (Forall (readable (files w1)) (build_paths w1)
     → Forall (readable (files w2)) (build_paths w2)).
Proof.
  intros Hpaths Hfiles.
  assert (∀ p, p ∈ build_paths w1 → text_of (files w1) p = text_of (files w2) p)
    as Htext by (intros p Hp; unfold text_of; by rewrite Hfiles).
  assert (build_kept w1 = build_kept w2) as Hkept.
  { unfold build_kept. rewrite <-Hpaths. apply filter_ext_in.
    intros p Hp. unfold indexed, doc_text. by rewrite Htext. }
  assert (build_docs w1 = build_docs w2) as Hdocs.
  { unfold build_docs. rewrite <-Hkept. apply list_fmap_ext. intros i p Hp.
    unfold doc_text. rewrite Htext; [done|].
    apply list_elem_of_lookup_2 in Hp. unfold build_kept in Hp.
    by apply list_elem_of_filter in Hp as [_ ?]. }
  split; [done|]. split; [done|].
  split; [unfold build_meta; by rewrite Hkept|].
  split; [unfold build_index; by rewrite Hdocs|].
  rewrite <-Hpaths, !Forall_forall. intros Hall p Hp.
  unfold readable. rewrite <-Htext by done. by apply Hall.
Qed.

(** X4.  Running [main] again after a run that returned, with the corpus
    unchanged and the artifacts of the first run in place, returns the same
    index, documents and metadata and leaves the files exactly as the first
    run left them. *)
Theorem build_twice_same w ix docs meta :
  (build_main w).1 = Ret (ix, docs, meta) →
  let w' := (build_main w).2 in
  (build_main w').1 = Ret (ix, docs, meta)
  ∧ files (build_main w').2 = files w'.
Proof.
  intros Hret w'.
  destruct (build_main_Ret_files w ix docs meta Hret) as (Hfs & -> & -> & ->).
  fold w' in Hfs.
  assert (listing w' = listing w
          ∧ Forall (readable (files w)) (build_paths w) ∧ build_kept w ≠ []
          ∧ write_error (out_fs (files w)) index_file = None)
    as (Hl & Hall & Hkept & Hwi).
  { unfold w'. destruct (build_main_run w) as (o & fs & evs & Hrun & Hcase).
    rewrite Hrun in Hret |- *. cbn [fst snd listing] in *. subst o.
    by inversion Hcase. }
  assert (build_paths w' = build_paths w) as Hpaths
    by (unfold build_paths; by rewrite Hl).
  destruct artifact_dirname as (D1 & _).
  assert (out_fs (files w) !! OUT_DIR = Some Dir) as Hdir.
  { unfold write_error in Hwi. rewrite D1 in Hwi.
    destruct (out_fs (files w) !! index_file) as [[?|]|];
      destruct (out_fs (files w) !! OUT_DIR) as [[?|]|]; done. }
  destruct artifact_paths_distinct as (_ & _ & _ & H4 & H5 & H6).
  assert (fs_meta w !! OUT_DIR = Some Dir) as Hdir'.
  { unfold fs_meta, fs_docs, fs_index. by rewrite !lookup_insert_ne by done. }
  destruct (fs_meta_lookup w) as (M1 & M2 & M3).
  destruct (build_same_inputs w w') as (Hk & Hd & Hm & Hi & Hr).
  { done. }
  { intros p (name & _ & ->)%build_paths_data. rewrite Hfs. symmetry.
    apply fs_meta_lookup_ne, data_path_not_artifact. }
  clearbody w'.
  rewrite build_main_succeeds.
  - cbn [fst snd files]. split; [by rewrite <-Hd, <-Hm, <-Hi|].
    unfold fs_meta, fs_docs, fs_index.
    rewrite <-Hi, <-Hd, <-Hm, Hfs.
    unfold out_fs. rewrite Hdir'.
    by rewrite (insert_id _ _ _ M1), (insert_id _ _ _ M2), (insert_id _ _ _ M3).
  - rewrite Hfs. unfold out_writable. rewrite Hdir', M1, M2, M3. done.
  - by apply Hr.
  - by rewrite <-Hk.
Qed.

(** *** Names the build does not look at *)

(** A computation that reads neither the listing nor the cache: on given
    files it ends the same way, leaves the same files and adds the same
    events. *)
Definition listing_free {A} (m : M A) : Prop :=
  ∀ fs, ∃ o fs' evs, ∀ l c lg,
    m (mkWorld l fs c lg) = (o, mkWorld l fs' c (lg ++ evs)).

Lemma listing_free_ret {A} (a : A) : listing_free (ret a).
Proof. intros fs. exists (Ret a), fs, []. intros. unfold ret. by rewrite app_nil_r. Qed.

Lemma listing_free_raise {A} e : listing_free (@raise A e).
Proof. intros fs. exists (Raise e), fs, []. intros. unfold raise. by rewrite app_nil_r. Qed.

Lemma listing_free_bind {A B} (m : M A) (k : A → M B) :
  listing_free m → (∀ a, listing_free (k a)) → listing_free (bind m k).
Proof.
  intros Hm Hk fs. destruct (Hm fs) as (o & fs1 & evs1 & H1).
  destruct o as [a|e].
  - destruct (Hk a fs1) as (o2 & fs2 & evs2 & H2).
    exists o2, fs2, (evs1 ++ evs2). intros. unfold bind.
    by rewrite H1, H2, app_assoc.
  - exists (Raise e), fs1, evs1. intros. unfold bind. by rewrite H1.
Qed.

Lemma listing_free_emit e : listing_free (emit e).
Proof. intros fs. by exists (Ret ()), fs, [e]. Qed.

Lemma listing_free_makedirs p : listing_free (makedirs p).
Proof.
  intros fs. unfold makedirs, set_files. cbn [files listing cache log].
  destruct (fs !! p) as [[b|]|].
  - exists (Raise (FileExistsError p)), fs, []. intros. by rewrite app_nil_r.
  - exists (Ret ()), fs, []. intros. by rewrite app_nil_r.
  - exists (Ret ()), (<[p:=Dir]> fs), []. intros. by rewrite app_nil_r.
Qed.

Lemma listing_free_read_text p : listing_free (read_text p).
Proof.
  intros fs.
  exists (match text_of fs p with
          | Some s => Ret s
          | None => Raise (read_error fs p)
          end), fs, [].
  intros. rewrite read_text_run. by rewrite app_nil_r.
Qed.

Lemma listing_free_dump_json v p : listing_free (dump_json v p).
Proof.
  intros fs. unfold dump_json, set_files. cbn [files listing cache log].
  destruct (write_error fs p) as [e|].
  - exists (Raise e), fs, []. intros. by rewrite app_nil_r.
  - exists (Ret ()), (<[p:=File (json_dump v)]> fs), []. intros. by rewrite app_nil_r.
Qed.

Lemma listing_free_faiss_write_index ix p : listing_free (faiss_write_index ix p).
Proof.
  intros fs. unfold faiss_write_index, set_files. cbn [files listing cache log].
  destruct (write_error fs p) as [e|].
  - exists (Raise (FaissError p)), fs, []. intros. by rewrite app_nil_r.
  - exists (Ret ()), (<[p:=File (write_index ix)]> fs), []. intros. by rewrite app_nil_r.
Qed.

Lemma listing_free_build_read paths docs meta :
  listing_free (build_read paths docs meta).
Proof.
  revert docs meta. induction paths as [|p paths IH]; intros docs meta.
  - apply listing_free_ret.
  - cbn [build_read]. apply listing_free_bind.
    + apply listing_free_bind; [apply listing_free_read_text|].
      intros s. apply listing_free_ret.
    + intros [|c t]; apply IH.
Qed.

(** [main] once the paths are known. *)
Definition build_from (paths : list str) : M (IndexFlatIP * list str * list json) :=
  print (msg_found (length paths)) ;;;
  match paths with
  | [] => raise (SystemExit msg_no_files)
  | _ :: _ =>
      ' (docs, meta) <- build_read paths [] [] ;;
      match docs with
      | [] => raise (SystemExit msg_empty)
      | _ :: _ =>
          SentenceTransformer MODEL_NAME ;;;
          embeddings <- model_encode docs ;;
          let index := add (mkIndex (shape1 embeddings) []) embeddings in
          faiss_write_index index (Path.join OUT_DIR (lit "faiss.index")) ;;;
          dump_json (JList (JStr <$> docs)) (Path.join OUT_DIR (lit "docs.json")) ;;;
          dump_json (JList meta) (Path.join OUT_DIR (lit "meta.json")) ;;;
          print msg_built ;;;
          print msg_saved ;;;
          ret (index, docs, meta)
      end
  end.

Lemma build_main_from w :
  build_main w = bind (makedirs OUT_DIR) (λ _, build_from (build_paths w)) w.
Proof.
  unfold build_main.
  destruct (makedirs OUT_DIR w) as [[[]|e] w1] eqn:Hmk;
    [|by rewrite !(bind_Raise _ _ _ _ _ Hmk)].
  assert (listing w1 = listing w) as Hl.
  { unfold makedirs in Hmk. destruct (files w !! OUT_DIR) as [[b|]|]; by simplify_eq. }
  rewrite !(bind_Ret _ _ _ _ _ Hmk).
  erewrite bind_Ret by apply glob_sorted_run.
  unfold build_paths. by rewrite Hl.
Qed.

Lemma listing_free_build_from paths : listing_free (build_from paths).
Proof.
  unfold build_from.
  apply listing_free_bind; [apply listing_free_emit|intros _].
  destruct paths as [|p paths]; [apply listing_free_raise|].
  apply listing_free_bind; [apply listing_free_build_read|intros [docs meta]].
  destruct docs as [|d docs]; [apply listing_free_raise|].
  unfold SentenceTransformer, model_encode, print.
  repeat first
    [ apply listing_free_bind; [|intros ?]
    | apply listing_free_emit
    | apply listing_free_ret
    | apply listing_free_faiss_write_index
    | apply listing_free_dump_json ].
Qed.

(** X5.  Of the directory listing a run sees only the names that match
    [*.txt]: names with another ending and names that start with a dot can
    be added, removed or reordered without any effect on the result, on the
    files left behind or on what is printed, and the page's cache and the
    earlier log play no role either. *)
Theorem build_ignores_other_names w1 w2 :
  filter (glob_match (lit ".txt")) (listing w1)
    ≡ₚ filter (glob_match (lit ".txt")) (listing w2) →
  files w1 = files w2 →
  (build_main w1).1 = (build_main w2).1
  ∧ files (build_main w1).2 = files (build_main w2).2
  ∧ ∃ evs, log (build_main w1).2 = log w1 ++ evs
           ∧ log (build_main w2).2 = log w2 ++ evs.
Proof.
  intros Hl Hf.
  assert (build_paths w1 = build_paths w2) as Hpaths.
  { unfold build_paths. apply sorted_order_irrelevant. by rewrite Hl. }
  rewrite !build_main_from, <-Hpaths.
  assert (listing_free (bind (makedirs OUT_DIR) (λ _, build_from (build_paths w1))))
    as Hfree.
  { apply listing_free_bind; [apply listing_free_makedirs|intros _].
    apply listing_free_build_from. }
  destruct (Hfree (files w1)) as (o & fs' & evs & Hrun).
  destruct w1 as [l1 f1 c1 lg1], w2 as [l2 f2 c2 lg2].
  cbn [files] in Hf, Hrun. subst f2.
  rewrite !Hrun. cbn [fst snd files log]. eauto.
Qed.

(** *** A file that cannot be read *)

Lemma build_read_stops pre p post docs meta w :
  Forall (readable (files w)) pre → text_of (files w) p = None →
  build_read (pre ++ p :: post) docs meta w = (Raise (read_error (files w) p), w).
Proof.
  intros Hpre Hp. revert docs meta.
  induction Hpre as [|q pre [s Hs] _ IH]; intros docs meta.
  - cbn [app build_read]. unfold bind at 1 2. by rewrite read_text_run, Hp.
  - cbn [app build_read]. unfold bind at 1 2. rewrite read_text_run, Hs. unfold ret.
    destruct (strip s); apply IH.
Qed.

(** X6.  When a listed file cannot be read (it is missing, a directory, or
    not UTF-8), the run ends with the error of the first such path in sorted
    order: files that come later are not opened, the only change is that
    the output directory exists, no artifact is written and the model is not
    loaded; the one line printed is the count of listed files. *)
Theorem build_stops_at_first_unreadable w pre p post :
  (∀ b, files w !! OUT_DIR ≠ Some (File b)) →
  build_paths w = pre ++ p :: post →
  Forall (readable (files w)) pre →
  text_of (files w) p = None →
  build_main w
  = (Raise (match files w !! p with
            | None => FileNotFoundError p
            | Some Dir => IsADirectoryError p
            | Some (File _) => UnicodeDecodeError p
            end),
     mkWorld (listing w) (out_fs (files w)) (cache w)
       (log w ++ [Print (msg_found (length (pre ++ p :: post)))])).
Proof.
  intros Hout Hpaths Hpre Hp.
  assert (p ∈ build_paths w) as Hin
    by (rewrite Hpaths; apply elem_of_app; right; apply list_elem_of_here).
  assert (∀ q, q ∈ pre → q ∈ build_paths w) as Hsub
    by (intros q Hq; rewrite Hpaths; apply elem_of_app; by left).
  rewrite build_main_from.
  erewrite bind_Ret by (by apply makedirs_run).
  unfold build_from. rewrite Hpaths.
  unfold print at 1. erewrite bind_Ret by apply emit_run.
  set (w1 := add_logs _ _).
  assert (files w1 = out_fs (files w)) as Hw1 by done.
  assert (build_read (pre ++ p :: post) [] [] w1
          = (Raise (read_error (files w) p), w1)) as Hread.
  { rewrite build_read_stops.
    - by rewrite Hw1, read_error_out_fs.
    - rewrite Hw1. rewrite Forall_forall in Hpre |- *. intros q Hq. unfold readable.
      rewrite text_of_out_fs by (by apply Hsub). by apply Hpre.
    - by rewrite Hw1, text_of_out_fs. }
  destruct (pre ++ p :: post) as [|p0 rest] eqn:Hlist; [by destruct pre|].
  by erewrite bind_Raise by exact Hread.
Qed.

(** *** When a run returns *)

(** X7.  A run returns exactly when the output directory can be used (no
    file sits at its path), no artifact path is taken by a directory, every
    listed file can be read and at least one has a text left after
    stripping; in every other case it raises.  When it returns, the store is
    the one determined by the sorted paths and the files. *)
Theorem build_succeeds_exactly_when w :
  ((∃ store, (build_main w).1 = Ret store)
   ↔ out_writable (files w)
     ∧ Forall (readable (files w)) (build_paths w)
     ∧ build_kept w ≠ [])
  ∧ (∀ store, (build_main w).1 = Ret store →
       store = (build_index w, build_docs w, build_meta w)).
Proof.
  split; [split|].
  - intros [store Hret].
    destruct (build_main_run w) as (o & fs & evs & Hrun & Hcase).
    rewrite Hrun in Hret. cbn [fst] in Hret. subst o.
    inversion Hcase as [| | | | | | |Hr Hk H1 H2 H3]; subst.
    split; [|done].
    apply write_error_None_inv in H1 as [Hi Hdir].
    apply write_error_None_inv in H2 as [Hd _].
    apply write_error_None_inv in H3 as [Hm _].
    destruct artifact_paths_distinct as (N1 & N2 & N3 & N4 & N5 & N6).
    destruct artifact_dirname as (D1 & _). rewrite D1 in Hdir.
    unfold fs_docs, fs_index in *.
    rewrite lookup_insert_ne in Hd by done.
    rewrite !lookup_insert_ne in Hm by done.
    rewrite out_fs_lookup_ne in Hi by done.
    rewrite out_fs_lookup_ne in Hd by done.
    rewrite out_fs_lookup_ne in Hm by done.
    repeat split; try done.
    intros b Hb. unfold out_fs in Hdir. rewrite Hb in Hdir. congruence.
  - intros (Hw & Hall & Hkept). rewrite build_main_succeeds by done. by eexists.
  - intros [[ix docs] meta] Hret.
    by destruct (build_main_Ret_files w ix docs meta Hret) as (_ & -> & -> & ->).
Qed.

(** ** Further properties of [search.py] *)

(** The rows an answer shows when the index holds one row per document. *)
Lemma search_answer_run ix ds query w :
  embedder_contract → search_contract →
  ntotal ix = length ds → (1 ≤ length ds)%nat →
  ∃ shown,
    length shown = 3%nat
    ∧ Forall (λ r, (r < length ds)%nat) shown
    ∧ ((3 ≤ length ds)%nat → NoDup shown)
    ∧ search_answer ix (docs_json ds) query w
      = (Ret (), add_logs ([Encode [query]; Search 3; Print msg_top]
                           ++ cli_lines ds shown 1 ++ [Print []]) w).
Proof.
  intros Henc Hsearch Hix Hn1.
  pose proof (Henc [query]) as Hq.
  destruct (encode [query]) as [|qv [|??]] eqn:Hqv; try done. clear Hq.
  destruct (Hsearch ix qv 3%nat) as (found & Hnd & Hlt & Hlen & Hids).
  rewrite Hix in *.
  exists (found ++ replicate (3 - length ds) (length ds - 1)%nat).
  split; [rewrite length_app, length_replicate; lia|].
  split.
  { apply Forall_app. split; [done|]. apply Forall_replicate. lia. }
  split.
  { intros Hn3. replace (3 - length ds)%nat with 0%nat by lia.
    by rewrite app_nil_r. }
  unfold search_answer, model_encode, index_search.
  erewrite bind_Ret by (erewrite bind_Ret by apply emit_run; reflexivity).
  erewrite bind_Ret by (erewrite bind_Ret by apply emit_run; reflexivity).
  rewrite Hqv. cbn [fmap list_fmap ids_of Py.index Z.leb Z.to_nat lookup list_lookup lift].
  step. unfold print at 1. erewrite bind_Ret by apply emit_run.
  rewrite Hids.
  erewrite bind_Ret by (apply search_show_run; by apply found_labels_ok).
  unfold print. rewrite emit_run, found_rows, !add_logs_app.
  by rewrite <-?app_assoc.
Qed.

(** X8.  With at least three documents in the store, every query, the
    empty one included, is answered without an error by three different
    stored documents, printed as lines 1 to 3 between the heading and a
    blank line; no slot is padded. *)
Theorem cli_shows_three_documents ix ds query w :
  embedder_contract → search_contract →
  ntotal ix = length ds → (3 ≤ length ds)%nat →
  ∃ r1 r2 r3,
    NoDup [r1; r2; r3]
    ∧ (r1 < length ds)%nat ∧ (r2 < length ds)%nat ∧ (r3 < length ds)%nat
    ∧ search_answer ix (docs_json ds) query w
      = (Ret (),
         add_logs [Encode [query]; Search 3; Print msg_top;
                   Print (lit "1. " ++ preview (doc_at ds r1));
                   Print (lit "2. " ++ preview (doc_at ds r2));
                   Print (lit "3. " ++ preview (doc_at ds r3));
                   Print []] w).
Proof.
  intros Henc Hsearch Hix Hn3.
  destruct (search_answer_run ix ds query w) as (shown & Hlen & Hlt & Hnd & Hrun);
    [done..|lia|].
  destruct shown as [|r1 [|r2 [|r3 [|??]]]]; try done.
  exists r1, r2, r3. split; [by apply Hnd|].
  rewrite !Forall_cons in Hlt. destruct Hlt as (H1 & H2 & H3 & _).
  do 3 (split; [done|]). exact Hrun.
Qed.

(** The lines of a session that are answered, stripped: those before the
    first [exit] or [quit]. *)
Definition is_exit (line : str) : bool :=
  bool_decide (lower (strip line) ∈ [lit "exit"; lit "quit"]).

Fixpoint session_queries (stdin : list str) : list str :=
  match stdin with
  | [] => []
  | line :: stdin' =>
      if is_exit line then [] else strip line :: session_queries stdin'
  end.

Definition session_ends (stdin : list str) : bool := existsb is_exit stdin.

(** A session, line by line. *)
Lemma search_loop_run ix ds stdin w :
  embedder_contract → search_contract →
  ntotal ix = length ds → (1 ≤ length ds)%nat →
  ∃ answers : list (list event),
    Forall2 (λ q evs, ∃ shown,
               length shown = 3%nat ∧ Forall (λ r, (r < length ds)%nat) shown
               ∧ evs = [Prompt (lit "Query: "); Encode [q]; Search 3; Print msg_top]
                       ++ cli_lines ds shown 1 ++ [Print []])
            (session_queries stdin) answers
    ∧ search_loop ix (docs_json ds) stdin w
      = (if session_ends stdin then Ret () else Raise EOFError,
         add_logs (concat answers ++ [Prompt (lit "Query: ")]
                   ++ (if session_ends stdin then [Print msg_bye] else [])) w).
Proof.
  intros Henc Hsearch Hix Hn1. revert w.
  induction stdin as [|line stdin IH]; intros w.
  - exists []. split; [constructor|].
    cbn [search_loop]. by erewrite bind_Ret by apply emit_run.
  - cbn [search_loop session_queries session_ends existsb].
    erewrite bind_Ret by apply emit_run.
    fold (is_exit line). destruct (is_exit line) eqn:Hexit.
    + exists []. split; [constructor|].
      unfold print. rewrite emit_run, add_logs_app. done.
    + cbn [orb]. set (w1 := add_logs _ w).
      destruct (search_answer_run ix ds (strip line) w1)
        as (shown & Hlen & Hlt & _ & Hrun); [done..|].
      erewrite bind_Ret by exact Hrun.
      destruct (IH (add_logs ([Encode [strip line]; Search 3; Print msg_top]
                              ++ cli_lines ds shown 1 ++ [Print []]) w1))
        as (answers & Hans & Hloop).
      exists (([Prompt (lit "Query: "); Encode [strip line]; Search 3; Print msg_top]
               ++ cli_lines ds shown 1 ++ [Print []]) :: answers).
      split; [constructor; [by exists shown|done]|].
      fold (session_ends stdin). rewrite Hloop. unfold w1.
      rewrite !add_logs_app. cbn [concat]. by rewrite <-?app_assoc.
Qed.


Lemma session_until_exit pre cmd rest :
  Forall (λ line, is_exit line = false) pre → is_exit cmd = true →
  session_queries (pre ++ cmd :: rest) = strip <$> pre
  ∧ session_ends (pre ++ cmd :: rest) = true.
Proof.
  intros Hpre Hcmd. induction Hpre as [|line pre Hline _ [IH1 IH2]].
  - cbn [app session_queries session_ends existsb]. by rewrite Hcmd.
  - cbn [app session_queries session_ends existsb fmap list_fmap].
    rewrite Hline. split; [by rewrite IH1|exact IH2].
Qed.

Lemma session_no_exit stdin :
  Forall (λ line, is_exit line = false) stdin →
  session_queries stdin = strip <$> stdin ∧ session_ends stdin = false.
Proof.
  induction 1 as [|line stdin Hline _ [IH1 IH2]]; [done|].
  cbn [session_queries session_ends existsb fmap list_fmap].
  rewrite Hline. split; [by rewrite IH1|exact IH2].
Qed.

(** X9.  A session over a store of at least one document answers the
    lines typed before the first [exit] or [quit] (in any letter case, with
    any surrounding whitespace), each stripped, one after the other and each
    with three numbered lines, and never reads what is typed after it; it
    returns after the farewell line when there is such a command and ends
    with [EOFError] at the next prompt when the input runs out. *)
Theorem cli_session ix ds stdin w :
  embedder_contract → search_contract →
  ntotal ix = length ds → (1 ≤ length ds)%nat →
  ∃ (queries : list str) (ends : bool) (answers : list (list event)),
    (∀ pre cmd rest,
       stdin = pre ++ cmd :: rest →
       Forall (λ line, lower (strip line) ∉ [lit "exit"; lit "quit"]) pre →
       lower (strip cmd) ∈ [lit "exit"; lit "quit"] →
       queries = strip <$> pre ∧ ends = true)
    ∧ (Forall (λ line, lower (strip line) ∉ [lit "exit"; lit "quit"]) stdin →
       queries = strip <$> stdin ∧ ends = false)
    ∧ Forall2 (λ q evs, ∃ shown,
                 length shown = 3%nat ∧ Forall (λ r, (r < length ds)%nat) shown
                 ∧ evs = [Prompt (lit "Query: "); Encode [q]; Search 3; Print msg_top]
                         ++ cli_lines ds shown 1 ++ [Print []])
              queries answers
    ∧ search_loop ix (docs_json ds) stdin w
      = (if ends then Ret () else Raise EOFError,
         add_logs (concat answers ++ [Prompt (lit "Query: ")]
                   ++ (if ends then [Print msg_bye] else [])) w).
Proof.
  intros Henc Hsearch Hix Hn1.
  destruct (search_loop_run ix ds stdin w Henc Hsearch Hix Hn1)
    as (answers & Hans & Hrun).
  exists (session_queries stdin), (session_ends stdin), answers.
  assert (∀ l, Forall (λ line, lower (strip line) ∉ [lit "exit"; lit "quit"]) l →
               Forall (λ line, is_exit line = false) l) as Hno.
  { intros l Hl. eapply Forall_impl; [exact Hl|]. intros line Hline.
    unfold is_exit. by apply bool_decide_eq_false_2. }
  split; [|split; [|split; [exact Hans|exact Hrun]]].
  - intros pre cmd rest -> Hpre Hcmd.
    apply session_until_exit; [by apply Hno|].
    unfold is_exit. by apply bool_decide_eq_true_2.
  - intros Hall. by apply session_no_exit, Hno.
Qed.

(** ** Further properties of [app.py] *)

(** A computation that only adds to the log what it would add anywhere. *)
Definition log_only {A} (m : M A) : Prop :=
  ∃ o evs, ∀ w, m w = (o, add_logs evs w).

Lemma log_only_pure {A} (o : outcome A) (m : M A) :
  (∀ w, m w = (o, w)) → log_only m.
Proof. intros Hm. exists o, []. intros w. by rewrite Hm, add_logs_nil. Qed.

Lemma log_only_lift {A} (o : option A) e : log_only (lift o e).
Proof. destruct o; by eapply log_only_pure. Qed.

Lemma log_only_emit e : log_only (emit e).
Proof. by exists (Ret ()), [e]. Qed.

Lemma log_only_bind {A B} (m : M A) (k : A → M B) :
  log_only m → (∀ a, log_only (k a)) → log_only (bind m k).
Proof.
  intros (o & evs1 & H1) Hk. destruct o as [a|e].
  - destruct (Hk a) as (o2 & evs2 & H2). exists o2, (evs1 ++ evs2).
    intros w. unfold bind. by rewrite H1, H2, add_logs_app.
  - exists (Raise e), evs1. intros w. unfold bind. by rewrite H1.
Qed.

Lemma log_only_getitem v i : log_only (getitem v i).
Proof. destruct v; try apply log_only_lift; by eapply log_only_pure. Qed.

Lemma log_only_getkey v key : log_only (getkey v key).
Proof. destruct v; try apply log_only_lift; by eapply log_only_pure. Qed.

Lemma log_only_json_snippet d : log_only (json_snippet d).
Proof. destruct d; by eapply log_only_pure. Qed.

Lemma log_only_app_show docs meta hits rank : log_only (app_show docs meta hits rank).
Proof.
  revert rank. induction hits as [|[score id] hits IH]; intros rank.
  - by eapply log_only_pure.
  - cbn [app_show].
    apply log_only_bind; [apply log_only_getitem|intros m].
    apply log_only_bind; [apply log_only_getkey|intros s].
    apply log_only_bind; [apply log_only_emit|intros _].
    apply log_only_bind; [apply log_only_getitem|intros d].
    apply log_only_bind; [apply log_only_json_snippet|intros p].
    apply log_only_bind; [apply log_only_emit|intros _].
    apply log_only_bind; [apply log_only_emit|intros _]. apply IH.
Qed.

(** What the page does once it holds the store. *)
Definition app_render (index : IndexFlatIP) (docs meta : json)
    (query : str) (top_k : nat) : M unit :=
  match query with
  | _ :: _ =>
      q_emb <- model_encode [query] ;;
      res <- index_search index q_emb top_k ;;
      scores0 <- lift (Py.index (scores_of res) 0) IndexError ;;
      ids0 <- lift (Py.index (ids_of res) 0) IndexError ;;
      emit (StSubheader (lit "Results")) ;;;
      app_show docs meta (zip scores0 ids0) 1
  | [] => emit (StInfo msg_info)
  end.

Lemma log_only_app_render ix docs meta query top_k :
  log_only (app_render ix docs meta query top_k).
Proof.
  unfold app_render, model_encode, index_search. destruct query.
  - apply log_only_emit.
  - repeat first
      [ apply log_only_bind; [|intros ?]
      | apply log_only_emit
      | apply log_only_lift
      | apply log_only_app_show
      | by eapply log_only_pure ].
Qed.

Lemma app_main_render query top_k w ix docs meta :
  cache w = Some (ix, docs, meta) →
  app_main query top_k w = app_render ix docs meta query top_k (add_logs app_header w).
Proof. intros Hc. by rewrite (app_main_cached _ _ _ _ _ _ Hc). Qed.

(** X10.  Once the store is in the cache the page never looks at the files
    again: two runs with the same cached store, query and number of hits
    end the same way and render the same blocks whatever the files, the
    directory and the earlier output are at that moment, so artifacts that
    were rebuilt or deleted meanwhile are not noticed. *)
Theorem app_serves_cached_store query top_k store w1 w2 :
  cache w1 = Some store → cache w2 = Some store →
  (app_main query top_k w1).1 = (app_main query top_k w2).1
  ∧ ∃ evs, log (app_main query top_k w1).2 = log w1 ++ evs
           ∧ log (app_main query top_k w2).2 = log w2 ++ evs.
Proof.
  destruct store as [[ix docs] meta]. intros H1 H2.
  rewrite (app_main_render _ _ _ _ _ _ H1), (app_main_render _ _ _ _ _ _ H2).
  destruct (log_only_app_render ix docs meta query top_k) as (o & evs & Hrun).
  rewrite !Hrun, !add_logs_app. cbn [fst snd log add_logs].
  split; [done|]. by exists (app_header ++ evs).
Qed.

Lemma bind_reads_same {A B} (m : M A) (k : A → M B) w1 w2 :
  m w1 = ((m w2).1, w1) → (m w2).2 = w2 →
  (∀ a, (k a w1).1 = (k a w2).1) →
  (bind m k w1).1 = (bind m k w2).1.
Proof.
  intros H1 H2 Hk. unfold bind. rewrite H1.
  destruct (m w2) as [[a|e] w2']; cbn [fst snd] in *; subst; [apply Hk|done].
Qed.

Lemma load_data_files w1 w2 :
  files w1 = files w2 → (load_data w1).1 = (load_data w2).1.
Proof.
  intros Hf. unfold load_data.
  apply bind_reads_same; [by rewrite !faiss_read_index_run, Hf
                         |by rewrite faiss_read_index_run|intros ix].
  apply bind_reads_same; [by rewrite !load_json_run, Hf
                         |by rewrite load_json_run|intros docs].
  apply bind_reads_same; [by rewrite !load_json_run, Hf
                         |by rewrite load_json_run|done].
Qed.

Lemma load_data_world w : (load_data w).2 = w.
Proof. by destruct (load_data_cases w) as [H _]. Qed.

Lemma app_main_start query top_k w :
  app_main query top_k w
  = bind (cache_resource load_data)
      (λ '(index, docs, meta), app_render index docs meta query top_k)
      (add_logs app_header w).
Proof.
  unfold app_main.
  do 6 (erewrite bind_Ret by apply emit_run).
  by rewrite !add_logs_app.
Qed.


(** ** Further properties of the previews *)

Lemma split_nil_spaces s : split s = [] → Forall (λ c, isspace c = true) s.
Proof.
  induction s as [|c s IH]; [constructor|].
  cbn [split]. destruct (isspace c) eqn:Hc.
  - intros Hs. constructor; [done|by apply IH].
  - destruct s as [|c' s]; [done|].
    destruct (isspace c'); [done|].
    unfold push_char. by destruct (split (c' :: s)).
Qed.

Lemma collapse_split text : split (collapse text) = split text.
Proof.
  unfold collapse. rewrite split_join by apply split_words. apply split_strip.
Qed.

Lemma collapse_words text : collapse text = join (lit " ") (split text).
Proof. unfold collapse. by rewrite split_strip. Qed.

Lemma snippet_collapse text n :
  snippet text n
  = if (length (collapse text) <=? n)%nat then collapse text
    else take n (collapse text) ++ [8230].
Proof. done. Qed.

(** X12.  The page's snippet depends on the document only through its
    words: two texts have the same snippet as soon as they split into the
    same words, whatever their whitespace.  Collapsing is idempotent, the
    snippet of a text is the snippet of its collapsed form, a snippet cut at
    [n] has at most [n + 1] characters and agrees with the collapsed text on
    the first [n], and the snippet is empty exactly for a text of
    whitespace only. *)
Theorem snippet_depends_on_words (t1 t2 : str) (n : nat) :
  (split t1 = split t2 ↔ collapse t1 = collapse t2)
  ∧ (split t1 = split t2 → snippet t1 n = snippet t2 n)
  ∧ collapse (collapse t1) = collapse t1
  ∧ snippet (collapse t1) n = snippet t1 n
  ∧ (length (snippet t1 n) ≤ S n)%nat
  ∧ take n (snippet t1 n) = take n (collapse t1)
  ∧ (snippet t1 n = [] ↔ Forall (λ c, isspace c = true) t1).
Proof.
  assert (∀ t, collapse (collapse t) = collapse t) as Hidem.
  { intros t. by rewrite (collapse_words (collapse t)), collapse_split, collapse_words. }
  split.
  { split; intros H.
    - by rewrite !collapse_words, H.
    - by rewrite <-(collapse_split t1), <-(collapse_split t2), H. }
  split.
  { intros H. by rewrite !snippet_collapse, !collapse_words, H. }
  split; [apply Hidem|].
  split; [by rewrite !snippet_collapse, Hidem|].
  rewrite snippet_collapse.
  destruct (length (collapse t1) <=? n)%nat eqn:Hlen.
  - apply Nat.leb_le in Hlen. split; [lia|]. split; [done|].
    split.
    + intros Hnil. apply split_nil_spaces.
      rewrite <-collapse_split, Hnil. done.
    + intros Hsp. by rewrite collapse_words, split_spaces.
  - apply Nat.leb_gt in Hlen. split; [|split].
    + rewrite length_app, length_take. simpl. lia.
    + rewrite take_app_le by (rewrite length_take; lia).
      rewrite take_take. f_equal. lia.
    + split; [by intros [_ [=]]%app_eq_nil|].
      intros Hsp. rewrite collapse_words, split_spaces in Hlen by done.
      simpl in Hlen. lia.
Qed.

(** ** From the build to the answers *)

Lemma load_built w v :
  (∀ x, json_load (json_dump x) = Some x) →
  (∀ ix, read_index (write_index ix) = Some ix) →
  files v = fs_meta w →
  faiss_read_index index_file v = (Ret (build_index w), v)
  ∧ load_json docs_file v = (Ret (docs_json (build_docs w)), v)
  ∧ load_json meta_file v = (Ret (JList (build_meta w)), v).
Proof.
  intros Hjson Hindex Hfs.
  destruct (fs_meta_lookup w) as (Hi & Hd & Hm).
  rewrite faiss_read_index_run, !load_json_run, Hfs, Hi, Hd, Hm.
  by rewrite Hindex, !Hjson.
Qed.

(** The rows of a built store are the kept paths. *)
Lemma build_row_path w r :
  (r < length (build_docs w))%nat →
  ∃ p, build_kept w !! r = Some p
       ∧ p ∈ build_paths w
       ∧ doc_at (build_docs w) r = doc_text (files w) p
       ∧ doc_at (Path.basename <$> build_kept w) r = Path.basename p.
Proof.
  unfold build_docs. rewrite length_fmap. intros Hr.
  destruct (lookup_lt_is_Some_2 _ _ Hr) as [p Hp].
  exists p. split; [done|]. split.
  { apply list_elem_of_lookup_2 in Hp. unfold build_kept in Hp.
    by apply list_elem_of_filter in Hp as [_ ?]. }
  unfold doc_at. by rewrite !list_lookup_fmap, Hp.
Qed.

Lemma build_meta_json w : JList (build_meta w) = meta_json (Path.basename <$> build_kept w).
Proof.
  unfold meta_json, build_meta. f_equal. rewrite <-list_fmap_compose.
  by apply list_fmap_ext.
Qed.

(** X13.  A session of [search.py] that follows a build which returned
    cannot fail on the store: it loads the index and the documents the
    build wrote, answers every line typed before [exit] or [quit] with three
    numbered previews, each the preview of the stripped text of a listed
    corpus file, and ends as the input decides, with the farewell or with
    [EOFError]. *)
Theorem search_after_build w ix docs meta stdin :
  (∀ x, json_load (json_dump x) = Some x) →
  (∀ ix, read_index (write_index ix) = Some ix) →
  embedder_contract → search_contract →
  (build_main w).1 = Ret (ix, docs, meta) →
  let w' := (build_main w).2 in
  ∃ answers : list (list event),
    Forall2 (λ q evs, ∃ p1 p2 p3,
               p1 ∈ build_paths w ∧ p2 ∈ build_paths w ∧ p3 ∈ build_paths w
               ∧ evs = [Prompt (lit "Query: "); Encode [q]; Search 3; Print msg_top;
                        Print (lit "1. " ++ preview (doc_text (files w) p1));
                        Print (lit "2. " ++ preview (doc_text (files w) p2));
                        Print (lit "3. " ++ preview (doc_text (files w) p3));
                        Print []])
            (session_queries stdin) answers
    ∧ search_main stdin w'
      = (if session_ends stdin then Ret () else Raise EOFError,
         add_logs ([Print msg_ready; Print msg_help; LoadModel MODEL_NAME]
                   ++ concat answers ++ [Prompt (lit "Query: ")]
                   ++ (if session_ends stdin then [Print msg_bye] else [])) w').
Proof.
  intros Hjson Hindex Henc Hsearch Hret w'.
  destruct (build_main_Ret_files w ix docs meta Hret) as (Hfs & -> & -> & ->).
  fold w' in Hfs. clearbody w'.
  assert (build_docs w ≠ []) as Hne.
  { destruct (build_main_run w) as (o & fs & evs & Hrun & Hcase).
    rewrite Hrun in Hret. simpl in Hret. subst o.
    inversion Hcase; subst. unfold build_docs. by intros ?%fmap_nil_inv. }
  assert (ntotal (build_index w) = length (build_docs w)) as Hix
    by (unfold ntotal, build_index, add; cbn [ix_xb app]; apply Henc).
  assert (1 ≤ length (build_docs w))%nat as Hn1
    by (destruct (build_docs w); [done|simpl; lia]).
  set (w2 := add_logs [Print msg_ready; Print msg_help] w').
  destruct (load_built w w2 Hjson Hindex Hfs) as (Li & Ld & _).
  destruct artifact_paths as (P1 & P2 & _).
  set (w3 := add_logs [LoadModel MODEL_NAME] w2).
  destruct (search_loop_run (build_index w) (build_docs w) stdin w3)
    as (answers & Hans & Hloop); [done..|].
  exists answers. split.
  - eapply Forall2_impl; [exact Hans|].
    intros q evs (shown & Hlen & Hlt & ->).
    destruct shown as [|r1 [|r2 [|r3 [|??]]]]; try done.
    rewrite !Forall_cons in Hlt. destruct Hlt as (H1 & H2 & H3 & _).
    destruct (build_row_path w r1 H1) as (p1 & _ & Hp1 & D1 & _).
    destruct (build_row_path w r2 H2) as (p2 & _ & Hp2 & D2 & _).
    destruct (build_row_path w r3 H3) as (p3 & _ & Hp3 & D3 & _).
    exists p1, p2, p3. do 3 (split; [done|]).
    cbn [cli_lines app]. by rewrite D1, D2, D3.
  - unfold search_main, print, SentenceTransformer. rewrite P1, P2.
    erewrite bind_Ret by apply emit_run.
    erewrite bind_Ret by apply emit_run.
    rewrite add_logs_app. cbn [app]. fold w2.
    erewrite bind_Ret by exact Li.
    erewrite bind_Ret by exact Ld.
    erewrite bind_Ret by apply emit_run. fold w3.
    rewrite Hloop. unfold w3, w2. rewrite !add_logs_app.
    by rewrite <-?app_assoc.
Qed.

(** What the page renders when the index holds one row per document. *)
Lemma app_render_run ix ds srcs c query top_k w :
  embedder_contract → search_contract →
  ntotal ix = length ds → length srcs = length ds → (1 ≤ length ds)%nat →
  ∃ hits : list (f32 * nat),
    length hits = top_k
    ∧ Forall (λ h, (h.2 < length ds)%nat) hits
    ∧ app_render ix (docs_json ds) (meta_json srcs) (c :: query) top_k w
      = (Ret (), add_logs ([Encode [c :: query]; Search top_k;
                            StSubheader (lit "Results")]
                           ++ app_blocks ds srcs hits 1) w).
Proof.
  intros Henc Hsearch Hix Hsrcs Hn1.
  pose proof (Henc [c :: query]) as Hq.
  destruct (encode [c :: query]) as [|qv [|??]] eqn:Hqv; try done. clear Hq.
  destruct (Hsearch ix qv top_k) as (found & Hnd & Hlt & Hlen & Hids).
  rewrite Hix in *.
  assert (length (search ix qv top_k) = top_k) as Hk.
  { rewrite <-(length_fmap snd), Hids, length_app, length_fmap, length_replicate. lia. }
  assert (Forall (label_ok (length ds)) (search ix qv top_k).*2) as Hok
    by (rewrite Hids; by apply found_labels_ok).
  exists ((λ h, (h.1, row_of (length ds) h.2)) <$> search ix qv top_k).
  split; [by rewrite length_fmap|].
  split.
  { rewrite Forall_fmap.
    eapply Forall_impl; [exact (proj1 (Forall_fmap _ _ _) Hok)|].
    intros [score id]. cbn.
    unfold label_ok, row_of. intros [Hlo Hhi].
    destruct (0 <=? id)%Z eqn:H0; [apply Z.leb_le in H0|apply Z.leb_gt in H0]; lia. }
  unfold app_render, model_encode, index_search.
  erewrite bind_Ret by (erewrite bind_Ret by apply emit_run; reflexivity).
  erewrite bind_Ret by (erewrite bind_Ret by apply emit_run; reflexivity).
  rewrite Hqv. cbn [fmap list_fmap scores_of ids_of Py.index Z.leb Z.to_nat lookup list_lookup lift].
  do 2 step. erewrite bind_Ret by apply emit_run.
  rewrite zip_fst_snd, !add_logs_app.
  rewrite app_show_run; [|done|exact (proj1 (Forall_fmap _ _ _) Hok)].
  rewrite add_logs_app. by rewrite <-?app_assoc.
Qed.

(** X14.  The first run of the page after a build that returned, on any
    non-empty query, loads what the build wrote, caches it and renders
    exactly [top_k] blocks without an error; every block pairs the base name
    of a listed corpus file with the snippet of the stripped text of that
    same file. *)
Theorem app_after_build w ix docs meta c query top_k :
  (∀ x, json_load (json_dump x) = Some x) →
  (∀ ix, read_index (write_index ix) = Some ix) →
  embedder_contract → search_contract →
  (build_main w).1 = Ret (ix, docs, meta) →
  cache w = None →
  let w' := (build_main w).2 in
  ∃ hits : list (f32 * str),
    length hits = top_k
    ∧ Forall (λ h, h.2 ∈ build_paths w) hits
    ∧ app_main (c :: query) top_k w'
      = (Ret (),
         set_cache (Some (ix, JList (JStr <$> docs), JList meta))
           (add_logs
              (app_header
               ++ [Encode [c :: query]; Search top_k; StSubheader (lit "Results")]
               ++ mjoin ((λ '(rank, (score, p)),
                            [StMarkdown (lit "**" ++ str_of_nat rank ++ lit ". "
                                         ++ Path.basename p ++ lit "** " ++ [8212]
                                         ++ lit " score `" ++ fmt3 score ++ lit "`");
                             StWrite (snippet (doc_text (files w) p) snippet_n);
                             StDivider])
                         <$> zip (seq 1 top_k) hits)) w')).
Proof.
  intros Hjson Hindex Henc Hsearch Hret Hc w'.
  destruct (build_main_Ret_files w ix docs meta Hret) as (Hfs & -> & -> & ->).
  fold w' in Hfs.
  assert (cache w' = None) as Hc'.
  { unfold w'. destruct (build_main_run w) as (o & fs & evs & -> & _). done. }
  clearbody w'.
  assert (build_docs w ≠ []) as Hne.
  { destruct (build_main_run w) as (o & fs & evs & Hrun & Hcase).
    rewrite Hrun in Hret. simpl in Hret. subst o.
    inversion Hcase; subst. unfold build_docs. by intros ?%fmap_nil_inv. }
  assert (ntotal (build_index w) = length (build_docs w)) as Hix
    by (unfold ntotal, build_index, add; cbn [ix_xb app]; apply Henc).
  assert (1 ≤ length (build_docs w))%nat as Hn1
    by (destruct (build_docs w); [done|simpl; lia]).
  set (store := (build_index w, docs_json (build_docs w), JList (build_meta w))).
  assert (load_data w' = (Ret store, w')) as Hload.
  { destruct (load_built w w' Hjson Hindex Hfs) as (Li & Ld & Lm).
    destruct artifact_paths as (_ & _ & P3 & P4 & P5).
    unfold load_data. rewrite P3, P4, P5.
    erewrite bind_Ret by exact Li. erewrite bind_Ret by exact Ld.
    by erewrite bind_Ret by exact Lm. }
  set (names := Path.basename <$> build_kept w).
  set (w1 := set_cache (Some store) w').
  destruct (app_render_run (build_index w) (build_docs w) names c query top_k
              (add_logs app_header w1))
    as (hits & Hlen & Hlt & Hrun); [done..| |done|].
  { unfold names, build_docs. by rewrite !length_fmap. }
  assert (app_main (c :: query) top_k w' = app_main (c :: query) top_k w1) as ->.
  { rewrite !app_main_start. unfold bind, cache_resource.
    cbn [cache add_logs set_cache w1]. rewrite Hc'.
    pose proof (load_data_files (add_logs app_header w') w' eq_refl) as Hsame.
    pose proof (load_data_world (add_logs app_header w')) as Hw.
    destruct (load_data (add_logs app_header w')) as [o v].
    rewrite Hload in Hsame. cbn [fst snd] in *. by subst. }
  rewrite (app_main_render _ _ w1 (build_index w) (docs_json (build_docs w))
             (JList (build_meta w))) by done.
  rewrite build_meta_json. fold names. rewrite Hrun.
  assert (∀ (hs : list (f32 * nat)) rank,
            Forall (λ h, (h.2 < length (build_docs w))%nat) hs →
            ∃ ps : list (f32 * str),
              length ps = length hs ∧ Forall (λ h, h.2 ∈ build_paths w) ps
              ∧ app_blocks (build_docs w) names hs rank
                = mjoin ((λ '(rank, (score, p)),
                            [StMarkdown (lit "**" ++ str_of_nat rank ++ lit ". "
                                         ++ Path.basename p ++ lit "** " ++ [8212]
                                         ++ lit " score `" ++ fmt3 score ++ lit "`");
                             StWrite (snippet (doc_text (files w) p) snippet_n);
                             StDivider])
                         <$> zip (seq rank (length hs)) ps)) as Hblocks.
  { intros hs. induction hs as [|[score r] hs IH]; intros rank Hhs.
    - by exists [].
    - apply Forall_cons in Hhs as [Hr Hhs].
      destruct (IH (S rank) Hhs) as (ps & Hl & Hin & Heq).
      destruct (build_row_path w r Hr) as (p & _ & Hp & D1 & D2).
      exists ((score, p) :: ps). split; [simpl; by rewrite Hl|].
      split; [by constructor|].
      cbn [app_blocks length seq zip zip_with fmap list_fmap mjoin list_join app].
      fold names in D2. rewrite D1, D2. do 3 f_equal. exact Heq. }
  destruct (Hblocks hits 1%nat Hlt) as (ps & Hl & Hin & Heq).
  exists ps. split; [lia|]. split; [done|].
  rewrite Heq, Hlen, add_logs_app. unfold w1, store. rewrite ?build_meta_json. reflexivity.
Qed.

End scripts.

Arguments world : clear implicits.
Arguments node : clear implicits.
Arguments IndexFlatIP : clear implicits.
Arguments M : clear implicits.

(** * [brainyai.py]: the helpers of the chat page

    The page asks DuckDuckGo for sources and Groq for an answer.  The two
    services are parameters: what [DDGS().text] yields and what
    [requests.post] comes back with.  The state is [st.session_state], of
    which [run_query] writes [answer] and [web]; the calls made to the two
    services are recorded beside it. *)

Section brainy_data.
Import Py.

(** The dict [{"title": ..., "url": ..., "snippet": ...}] that [ddg_search]
    builds for a result; its three keys are fixed. *)
Record web_hit := mkHit {
  hit_title : str;
  hit_url : str;
  hit_snippet : str
}.

(** The arguments of [requests.post] that vary, with the constant ones. *)
Record request := mkRequest {
  rq_url : str;
  rq_authorization : str;
  rq_content_type : str;
  rq_model : str;
  rq_temperature : str;
  rq_system : str;
  rq_user : str;
  rq_timeout : Z
}.

(** What [requests.post] comes back with: an exception of [requests] other
    than [HTTPError], or a response with its status, the text
    [raise_for_status] gives its [HTTPError], and the value [resp.json()]
    parses or the text of its exception. *)
Inductive reply :=
| NoResponse (msg : str)
| Response (status : Z) (status_msg : str) (body : json + str).

(** Where indexing into the reply can fail: [KeyError], [IndexError],
    [TypeError], and [AttributeError] for [.strip()] on a value that is no
    string. *)
Inductive fault :=
| KeyMissing (key : str)
| IndexOut
| NotSubscriptable (v : json)
| NoStrip (v : json).

(** The exceptions [groq_chat] can raise; all are [Exception]s, and only
    [HTTPError] is a [requests.HTTPError]. *)
Inductive error :=
| RuntimeError (msg : str)
| HTTPError (status : Z) (msg : str)
| RequestError (msg : str)
| ReplyError (f : fault).

(** A value or an exception. *)
Inductive result (A : Type) :=
| Ok (a : A)
| Err (e : error).

(** A call to one of the two services. *)
Inductive call :=
| CallDdg (query : str) (max_results : Z)
| CallPost (req : request).

End brainy_data.

Arguments Ok {A} a.
Arguments Err {A} e.

Section brainy.
Import Py.

(** [s[:stop]] for an integer [stop] of either sign. *)
Definition slice_stop {A} (stop : Z) (s : list A) : list A :=
  if (0 <=? stop)%Z then take (Z.to_nat stop) s
  else take (length s - Z.to_nat (- stop)) s.

(** [clip(s, n)]; the argument is a string or [None]. *)
Definition clip (s : option str) (n : Z) : str :=
  let s := strip (default [] s) in
  if (Z.of_nat (length s) <=? n)%Z then s else slice_stop (n - 1) s ++ [8230].

(** [clip] of [brainyai_backup.py], which does not strip. *)
Definition clip_backup (s : option str) (n : Z) : str :=
  let s := default [] s in
  if (Z.of_nat (length s) <=? n)%Z then s else slice_stop (n - 1) s ++ [8230].

(** One result of [DDGS().text]: a dict whose values are strings or
    [None]. *)
Definition raw_hit : Type := gmap (list N) (option str).

(** [(r.get(key) or "")]. *)
Definition get_or_empty (r : raw_hit) (key : str) : str :=
  match r !! key with
  | Some (Some s) => s
  | _ => []
  end.

(** The environment variable [GROQ_API_KEY], when it is set. *)
Variable env_key : option str.
(** [DDGS().text(query, max_results=...)] inside its [with] block: the
    results, or [None] when an exception is raised on the way. *)
Variable ddgs_text : str → Z → option (list raw_hit).
(** [requests.post] on a request. *)
Variable http_post : request → reply.
(** [str(e)] for the exceptions raised while indexing into the reply. *)
Variable fault_text : fault → str.

(** [st.session_state.answer] and [.web], with the calls made so far. *)
Record page := mkPage {
  answer : str;
  web : list web_hit;
  calls : list call
}.

Definition W (A : Type) : Type := page → result A * page.

Definition wret {A} (a : A) : W A := λ p, (Ok a, p).

Definition wraise {A} (e : error) : W A := λ p, (Err e, p).

Definition wbind {A B} (m : W A) (k : A → W B) : W B :=
  λ p, match m p with
       | (Ok a, p') => k a p'
       | (Err e, p') => (Err e, p')
       end.

(** [try: m  except ... as e: h e]. *)
Definition try_except {A} (m : W A) (h : error → W A) : W A :=
  λ p, match m p with
       | (Ok a, p') => (Ok a, p')
       | (Err e, p') => h e p'
       end.

Definition called (c : call) : W unit :=
  λ p, (Ok (), mkPage (answer p) (web p) (calls p ++ [c])).

Definition set_answer (a : str) : W unit :=
  λ p, (Ok (), mkPage a (web p) (calls p)).

Definition set_web (l : list web_hit) : W unit :=
  λ p, (Ok (), mkPage (answer p) l (calls p)).

(** [str(e)]. *)
Definition error_text (e : error) : str :=
  match e with
  | RuntimeError msg | HTTPError _ msg | RequestError msg => msg
  | ReplyError f => fault_text f
  end.

(** [GROQ_API_KEY = os.getenv("GROQ_API_KEY", "").strip()]. *)
Definition GROQ_API_KEY : str := strip (default [] env_key).

Definition GROQ_BASE_URL : str := lit "https://api.groq.com/openai/v1/chat/completions".

(** [ddg_search(query, max_results)]. *)
Definition ddg_hit (r : raw_hit) : web_hit :=
  mkHit (strip (get_or_empty r (lit "title")))
        (strip (get_or_empty r (lit "href")))
        (strip (get_or_empty r (lit "body"))).

Definition ddg_search (query : str) (max_results : Z) : W (list web_hit) :=
  let query := strip query in
  match query with
  | [] => wret []
  | _ :: _ =>
      wbind (called (CallDdg query max_results)) (λ _,
      match ddgs_text query max_results with
      | None => wret []
      | Some raw => wret (filter (λ r, hit_url r ≠ []) (ddg_hit <$> raw))
      end)
  end.

(** The lines of [sources_block], numbered from [i]. *)
Fixpoint source_lines (rs : list web_hit) (i : nat) : list str :=
  match rs with
  | [] => []
  | r :: rs' =>
      (lit "[S" ++ str_of_nat i ++ lit "] " ++ clip (Some (hit_title r)) 120 ++ [10]
       ++ lit "URL: " ++ hit_url r ++ [10]
       ++ lit "Snippet: " ++ clip (Some (hit_snippet r)) 220)
      :: source_lines rs' (S i)
  end.

Definition system_prompt : str :=
  lit "You are BrainyAI, a helpful assistant." ++ [10]
  ++ lit "Answer clearly and concisely." ++ [10]
  ++ lit "If sources are provided, use them." ++ [10]
  ++ lit "If you use sources, end with: Sources: [S1], [S2] ..." ++ [10].

Definition user_prompt (user_query : str) (web_results : list web_hit) : str :=
  let sources_block :=
    match web_results with
    | [] => []
    | _ :: _ => join [10; 10] (source_lines web_results 1)
    end in
  lit "User question:" ++ [10] ++ strip user_query ++ [10]
  ++ match sources_block with
     | [] => []
     | _ :: _ => [10] ++ lit "Web sources:" ++ [10] ++ sources_block ++ [10]
     end.

(** [v[key]] and [v[0]] on a parsed reply (the keys of a parsed dict are
    distinct); a dict has no key [0], its keys being strings. *)
Definition reply_key (v : json) (key : str) : result json :=
  match v with
  | JDict kvs =>
      match list_find (λ kv, kv.1 = key) kvs with
      | Some r => Ok r.2.2
      | None => Err (ReplyError (KeyMissing key))
      end
  | JList _ | JStr _ | JNull | JNum _ => Err (ReplyError (NotSubscriptable v))
  end.

Definition reply_first (v : json) : result json :=
  match v with
  | JList (x :: _) => Ok x
  | JList [] => Err (ReplyError IndexOut)
  | JStr (c :: _) => Ok (JStr [c])
  | JStr [] => Err (ReplyError IndexOut)
  | JDict _ => Err (ReplyError (KeyMissing (lit "0")))
  | JNull | JNum _ => Err (ReplyError (NotSubscriptable v))
  end.

(** [(content or "").strip()]. *)
Definition content_text (content : json) : result str :=
  match content with
  | JNull | JNum 0%Z | JStr [] | JList [] | JDict [] => Ok []
  | JStr s => Ok (strip s)
  | _ => Err (ReplyError (NoStrip content))
  end.

Definition result_bind {A B} (r : result A) (k : A → result B) : result B :=
  match r with
  | Ok a => k a
  | Err e => Err e
  end.

(** [data["choices"][0]["message"]["content"]], then the text. *)
Definition reply_content (data : json) : result str :=
  result_bind (reply_key data (lit "choices")) (λ choices,
  result_bind (reply_first choices) (λ choice,
  result_bind (reply_key choice (lit "message")) (λ message,
  result_bind (reply_key message (lit "content")) content_text))).

(** [groq_chat(user_query, model, web_results)]. *)
Definition groq_request (user_query model : str) (web_results : list web_hit) : request :=
  mkRequest GROQ_BASE_URL (lit "Bearer " ++ GROQ_API_KEY) (lit "application/json")
            model (lit "0.2") system_prompt (user_prompt user_query web_results) 45.

Definition groq_chat (user_query model : str) (web_results : list web_hit) : W str :=
  match GROQ_API_KEY with
  | [] => wraise (RuntimeError (lit "GROQ_API_KEY is not set."))
  | _ :: _ =>
      let req := groq_request user_query model web_results in
      wbind (called (CallPost req)) (λ _,
      match http_post req with
      | NoResponse msg => wraise (RequestError msg)
      | Response status status_msg body =>
          if ((400 <=? status) && (status <? 600))%Z
          then wraise (HTTPError status status_msg)
          else match body with
               | inr msg => wraise (RequestError msg)
               | inl data =>
                   match reply_content data with
                   | Ok text => wret text
                   | Err e => wraise e
                   end
               end
      end)
  end.

Definition msg_type_first : str := lit "Type a question first.".

Definition msg_unauthorized : str :=
  lit "Unauthorized (401). Your GROQ_API_KEY is missing/invalid." ++ [10]
  ++ lit "Fix: set GROQ_API_KEY correctly and restart.".

(** [run_query(query, use_web, n_web, model)]. *)
Definition run_query (query : str) (use_web : bool) (n_web : Z) (model : str) : W unit :=
  let query := strip query in
  match query with
  | [] =>
      wbind (set_answer msg_type_first) (λ _, set_web [])
  | _ :: _ =>
      wbind (if use_web then ddg_search query n_web else wret []) (λ web_results,
      wbind (set_web web_results) (λ _,
      try_except
        (wbind (groq_chat query model (if use_web then web_results else []))
               set_answer)
        (λ e, match e with
              | HTTPError code _ =>
                  if (code =? 401)%Z then set_answer msg_unauthorized
                  else set_answer (lit "Request failed: " ++ clip (Some (error_text e)) 220)
              | _ => set_answer (lit "Error: " ++ clip (Some (error_text e)) 220)
              end)))
  end.


(** ** Properties of the helpers *)

Lemma strip_fixed t :
  (∀ c, head t = Some c → isspace c = false) →
  (∀ c, last t = Some c → isspace c = false) → strip t = t.
Proof.
  intros Hh Hl. unfold strip. rewrite (lstrip_fixed t Hh). by apply rstrip_fixed.
Qed.

Lemma clip_short s n :
  (Z.of_nat (length (strip (default [] s))) ≤ n)%Z → clip s n = strip (default [] s).
Proof. intros H. unfold clip. by rewrite (proj2 (Z.leb_le _ _)). Qed.

Lemma clip_long s n :
  (1 ≤ n)%Z → (n < Z.of_nat (length (strip (default [] s))))%Z →
  clip s n = take (Z.to_nat n - 1) (strip (default [] s)) ++ [8230].
Proof.
  intros Hn H. unfold clip, slice_stop.
  rewrite (proj2 (Z.leb_gt _ _)) by done.
  rewrite (proj2 (Z.leb_le _ _)) by lia.
  do 2 f_equal. lia.
Qed.

Lemma clip_stripped s n : (1 ≤ n)%Z → strip (clip s n) = clip s n.
Proof.
  intros Hn.
  destruct (decide (Z.of_nat (length (strip (default [] s))) ≤ n)%Z) as [Hle|Hgt].
  - rewrite clip_short by done. apply strip_idemp.
  - rewrite clip_long by lia. apply strip_fixed.
    + destruct (Z.to_nat n - 1)%nat as [|m] eqn:Hm.
      * simpl. by intros c [= <-].
      * destruct (strip (default [] s)) as [|x t'] eqn:Ht; [simpl in Hgt; lia|].
        simpl. intros c [= <-]. apply (strip_head (default [] s)).
        by rewrite Ht.
    + intros c. rewrite last_snoc. by intros [= <-].
Qed.

Lemma clip_length s n : (1 ≤ n)%Z → (Z.of_nat (length (clip s n)) ≤ n)%Z.
Proof.
  intros Hn.
  destruct (decide (Z.of_nat (length (strip (default [] s))) ≤ n)%Z) as [Hle|Hgt].
  - by rewrite clip_short.
  - rewrite clip_long by lia. rewrite length_app, length_take. simpl. lia.
Qed.

(** X15.  [clip] keeps a text within [n] characters exactly when [n] is at
    least 1: then the result is the stripped text when that fits and its
    first [n - 1] characters followed by an ellipsis, [n] characters in all,
    when it does not; it has no whitespace at either end, and clipping it
    again changes nothing.  For [n] below 1 a text that is not blank comes
    back longer than [n].  The variant of [brainyai_backup.py], which does
    not strip, keeps to the same bound. *)
Theorem clip_fits (s : option str) (n : Z) :
  let t := strip (default [] s) in
  (t ≠ [] → (Z.of_nat (length (clip s n)) ≤ n)%Z ↔ (1 ≤ n)%Z)
  ∧ ((1 ≤ n)%Z →
     (Z.of_nat (length (clip s n)) ≤ n)%Z
     ∧ ((Z.of_nat (length t) ≤ n)%Z → clip s n = t)
     ∧ ((n < Z.of_nat (length t))%Z →
        clip s n = take (Z.to_nat n - 1) t ++ [8230]
        ∧ Z.of_nat (length (clip s n)) = n)
     ∧ strip (clip s n) = clip s n
     ∧ clip (Some (clip s n)) n = clip s n
     ∧ (Z.of_nat (length (clip_backup s n)) ≤ n)%Z).
Proof.
  cbv zeta. split.
  - intros Ht. split; [|apply clip_length].
    intros Hlen. destruct (decide (1 ≤ n)%Z) as [|Hn]; [done|].
    unfold clip in Hlen.
    destruct (Z.of_nat (length (strip (default [] s))) <=? n)%Z eqn:Hle.
    + apply Z.leb_le in Hle. destruct (strip (default [] s)); [done|].
      simpl in Hle. lia.
    + rewrite length_app in Hlen. simpl in Hlen. lia.
  - intros Hn. split; [by apply clip_length|].
    split; [apply clip_short|].
    split.
    { intros Hgt. rewrite clip_long by done. split; [done|].
      rewrite length_app, length_take. simpl. lia. }
    split; [by apply clip_stripped|].
    split.
    { rewrite clip_short; simpl; rewrite clip_stripped by done; [done|].
      by apply clip_length. }
    unfold clip_backup, slice_stop.
    destruct (Z.of_nat (length (default [] s)) <=? n)%Z eqn:Hle.
    + by apply Z.leb_le.
    + apply Z.leb_gt in Hle. rewrite (proj2 (Z.leb_le _ _)) by lia.
      rewrite length_app, length_take. simpl. lia.
Qed.

(** *** [ddg_search] *)

Definition add_call (c : call) (p : page) : page :=
  mkPage (answer p) (web p) (calls p ++ [c]).

(** The hits kept of what the service yields for [query]. *)
Definition found_hits (query : str) (max_results : Z) : list web_hit :=
  match ddgs_text query max_results with
  | None => []
  | Some raw => filter (λ r, hit_url r ≠ []) (ddg_hit <$> raw)
  end.

Lemma ddg_search_run query max_results p :
  ddg_search query max_results p
  = match strip query with
    | [] => (Ok [], p)
    | _ :: _ =>
        (Ok (found_hits (strip query) max_results),
         add_call (CallDdg (strip query) max_results) p)
    end.
Proof.
  unfold ddg_search, found_hits. destruct (strip query) as [|c q]; [done|].
  unfold wbind, called, add_call. by destruct (ddgs_text (c :: q) max_results).
Qed.

Lemma filter_fmap_hits (raw : list raw_hit) :
  filter (λ r, hit_url r ≠ []) (ddg_hit <$> raw)
  = ddg_hit <$> filter (λ r, strip (get_or_empty r (lit "href")) ≠ []) raw.
Proof.
  induction raw as [|r raw IH]; [done|].
  cbn [fmap list_fmap]. rewrite !filter_cons, IH.
  change (hit_url (ddg_hit r)) with (strip (get_or_empty r (lit "href"))).
  by destruct (decide (strip (get_or_empty r (lit "href")) ≠ [])).
Qed.

Lemma found_hits_stripped query max_results :
  Forall (λ h, hit_url h ≠ []
               ∧ strip (hit_url h) = hit_url h
               ∧ strip (hit_title h) = hit_title h
               ∧ strip (hit_snippet h) = hit_snippet h)
         (found_hits query max_results).
Proof.
  unfold found_hits. destruct (ddgs_text query max_results) as [raw|]; [|constructor].
  apply Forall_forall. intros h [Hurl Hin]%list_elem_of_filter.
  apply list_elem_of_fmap in Hin as (r & -> & _).
  split; [done|]. unfold ddg_hit. cbn [hit_url hit_title hit_snippet].
  by rewrite !strip_idemp.
Qed.

(** X16.  [ddg_search] never raises.  For a blank query it returns no hit
    and does not call the service; otherwise it calls it once, with the
    stripped query, and returns no hit when the call fails in any way and
    else the results that have a non-blank link, in the order received, with
    title, link and snippet stripped ([None] counting as empty); so every
    hit returned has a non-empty link.  It leaves the answer and the
    sources of the page alone. *)
Theorem ddg_search_hits (query : str) (max_results : Z) (p : page) :
  ∃ hits,
    ddg_search query max_results p
    = (Ok hits,
       mkPage (answer p) (web p)
         (calls p ++ match strip query with
                     | [] => []
                     | _ :: _ => [CallDdg (strip query) max_results]
                     end))
    ∧ (strip query = [] → hits = [])
    ∧ (ddgs_text (strip query) max_results = None → hits = [])
    ∧ (∀ raw, strip query ≠ [] →
         ddgs_text (strip query) max_results = Some raw →
         hits = ddg_hit <$> filter (λ r, strip (get_or_empty r (lit "href")) ≠ []) raw)
    ∧ Forall (λ h, hit_url h ≠ []
                   ∧ strip (hit_url h) = hit_url h
                   ∧ strip (hit_title h) = hit_title h
                   ∧ strip (hit_snippet h) = hit_snippet h) hits.
Proof.
  rewrite ddg_search_run. destruct (strip query) as [|c q] eqn:Hq.
  - exists []. split; [destruct p; simpl; by rewrite app_nil_r|].
    by repeat split.
  - exists (found_hits (c :: q) max_results). split; [done|]. split; [done|].
    split; [|split; [|apply found_hits_stripped]].
    + intros Hnone. unfold found_hits. by rewrite Hnone.
    + intros raw _ Hraw. unfold found_hits. rewrite Hraw. apply filter_fmap_hits.
Qed.

(** *** [groq_chat] and [run_query] *)

Lemma content_text_stripped content text :
  content_text content = Ok text → strip text = text.
Proof.
  destruct content as [|z|s|l|kvs]; simpl.
  - by intros [= <-].
  - destruct z; [by intros [= <-]|done..].
  - destruct s; [by intros [= <-]|]. intros [= <-]. apply strip_idemp.
  - destruct l; [by intros [= <-]|done].
  - destruct kvs; [by intros [= <-]|done].
Qed.

Lemma reply_content_stripped data text :
  reply_content data = Ok text → strip text = text.
Proof.
  unfold reply_content, result_bind.
  destruct (reply_key data (lit "choices")) as [choices|]; [|done].
  destruct (reply_first choices) as [choice|]; [|done].
  destruct (reply_key choice (lit "message")) as [message|]; [|done].
  destruct (reply_key message (lit "content")) as [content|]; [|done].
  apply content_text_stripped.
Qed.

(** What [groq_chat] comes to, as a function of the reply. *)
Definition chat_result (req : request) : result str :=
  match http_post req with
  | NoResponse msg => Err (RequestError msg)
  | Response status status_msg body =>
      if ((400 <=? status) && (status <? 600))%Z
      then Err (HTTPError status status_msg)
      else match body with
           | inr msg => Err (RequestError msg)
           | inl data => reply_content data
           end
  end.

Lemma groq_chat_run user_query model web_results p :
  groq_chat user_query model web_results p
  = match GROQ_API_KEY with
    | [] => (Err (RuntimeError (lit "GROQ_API_KEY is not set.")), p)
    | _ :: _ =>
        (chat_result (groq_request user_query model web_results),
         add_call (CallPost (groq_request user_query model web_results)) p)
    end.
Proof.
  unfold groq_chat, chat_result. destruct GROQ_API_KEY; [done|].
  unfold wbind, called, add_call.
  destruct (http_post _) as [msg|status smsg [data|msg]]; try done.
  - destruct ((400 <=? status) && (status <? 600))%Z; [done|].
    by destruct (reply_content data).
  - by destruct ((400 <=? status) && (status <? 600))%Z.
Qed.

(** The answer [run_query] shows for an outcome of [groq_chat]. *)
Definition answer_for (r : result str) : str :=
  match r with
  | Ok text => text
  | Err (HTTPError code msg) =>
      if (code =? 401)%Z then msg_unauthorized
      else lit "Request failed: " ++ clip (Some msg) 220
  | Err e => lit "Error: " ++ clip (Some (error_text e)) 220
  end.

Lemma answer_for_length r :
  (∀ text, r ≠ Ok text) → (length (answer_for r) ≤ 236)%nat.
Proof.
  intros Herr. destruct r as [text|e]; [by destruct (Herr text)|].
  assert (∀ m, (length (clip (Some m) 220) ≤ 220)%nat) as Hclip.
  { intros m. pose proof (clip_length (Some m) 220). lia. }
  destruct e as [msg|code msg|msg|f]; cbn [answer_for error_text].
  - rewrite length_app. specialize (Hclip msg). simpl. lia.
  - destruct (code =? 401)%Z.
    + vm_compute. lia.
    + rewrite length_app. specialize (Hclip msg).
      change (length (lit "Request failed: ")) with 16%nat. lia.
  - rewrite length_app. specialize (Hclip msg). simpl. lia.
  - rewrite length_app. specialize (Hclip (fault_text f)). simpl. lia.
Qed.

(** The sources [run_query] stores and the request it posts. *)
Definition stored_sources (q : str) (use_web : bool) (n_web : Z) : list web_hit :=
  if use_web then found_hits q n_web else [].

Lemma run_query_run query use_web n_web model p :
  run_query query use_web n_web model p
  = match strip query with
    | [] => (Ok (), mkPage msg_type_first [] (calls p))
    | _ :: _ =>
        let q := strip query in
        let req := groq_request q model (stored_sources q use_web n_web) in
        (Ok (),
         mkPage match GROQ_API_KEY with
                | [] => lit "Error: GROQ_API_KEY is not set."
                | _ :: _ => answer_for (chat_result req)
                end
                (stored_sources q use_web n_web)
                (calls p ++ (if use_web then [CallDdg q n_web] else [])
                         ++ match GROQ_API_KEY with
                            | [] => []
                            | _ :: _ => [CallPost req]
                            end))
    end.
Proof.
  unfold run_query.
  assert (strip (strip query) = strip query) as Hidem by apply strip_idemp.
  destruct (strip query) as [|c q] eqn:Hq; [done|].
  cbv zeta. set (sq := c :: q) in *.
  set (web' := stored_sources sq use_web n_web).
  set (p1 := mkPage (answer p) web'
               (calls p ++ (if use_web then [CallDdg sq n_web] else []))).
  assert (wbind (if use_web then ddg_search sq n_web else wret [])
            (λ web_results, set_web web_results) p = (Ok (), p1)) as Hweb.
  { unfold wbind, p1, web', stored_sources. destruct use_web.
    - rewrite ddg_search_run, Hidem. reflexivity.
    - unfold wret, set_web. simpl. by rewrite app_nil_r. }
  unfold wbind at 1. unfold wbind at 1 in Hweb.
  destruct ((if use_web then ddg_search sq n_web else wret []) p)
    as [[web_results|e] p0] eqn:H0; [|done].
  assert (web_results = web' ∧ mkPage (answer p0) web_results (calls p0) = p1)
    as [-> Hp1].
  { unfold set_web in Hweb. injection Hweb as Ha Hw Hc.
    split; [exact Hw|]. unfold p1. by rewrite Ha, Hw, Hc. }
  unfold wbind at 1, set_web at 1. rewrite Hp1.
  replace (if use_web then web' else []) with web'
    by (unfold web', stored_sources; by destruct use_web).
  unfold try_except, wbind. rewrite groq_chat_run.
  destruct GROQ_API_KEY as [|k key].
  - cbn [answer web calls p1 set_answer]. unfold set_answer. cbn [error_text].
    by rewrite app_nil_r.
  - unfold add_call, set_answer. cbn [answer web calls p1].
    rewrite <-app_assoc.
    destruct (chat_result (groq_request sq model web')) as [text|[msg|code msg|msg|f]];
      try reflexivity.
    cbn [answer_for error_text]. by destruct (code =? 401)%Z.
Qed.

Lemma stored_sources_links q use_web n_web :
  Forall (λ h, hit_url h ≠ []) (stored_sources q use_web n_web).
Proof.
  unfold stored_sources. destruct use_web; [|constructor].
  eapply Forall_impl; [apply found_hits_stripped|]. by intros h [? _].
Qed.

(** X17.  [run_query] never raises, whatever the two services do.  For a
    blank query it shows a fixed hint, clears the sources and calls neither
    service.  Otherwise it searches at most once (only with web sources
    on) and posts at most once (only with a key set), in this order; the
    sources it stores are the hits of the search, all with a link, and none
    with web sources off, and the request it posts cites exactly the
    sources it stores.  Without a key the answer is
    [Error: GROQ_API_KEY is not set.] although a search was made; status
    401 gives a fixed text; every answer that is not the model's own text
    has at most 236 characters, and the model's text is shown stripped. *)
Theorem run_query_outcome (query : str) (use_web : bool) (n_web : Z) (model : str)
    (p : page) :
  let q := strip query in
  let r := run_query query use_web n_web model p in
  let req := groq_request q model (web r.2) in
  r.1 = Ok ()
  ∧ (q = [] → r.2 = mkPage msg_type_first [] (calls p))
  ∧ (q ≠ [] →
     calls r.2
     = calls p ++ (if use_web then [CallDdg q n_web] else [])
               ++ match GROQ_API_KEY with
                  | [] => []
                  | _ :: _ => [CallPost req]
                  end
     ∧ (use_web = false → web r.2 = [])
     ∧ (use_web = true →
        web r.2 = match ddgs_text q n_web with
                  | None => []
                  | Some raw =>
                      ddg_hit
                        <$> filter (λ h, strip (get_or_empty h (lit "href")) ≠ []) raw
                  end)
     ∧ Forall (λ h, hit_url h ≠ []) (web r.2)
     ∧ (GROQ_API_KEY = [] → answer r.2 = lit "Error: GROQ_API_KEY is not set.")
     ∧ (GROQ_API_KEY ≠ [] → answer r.2 = answer_for (chat_result req))
     ∧ (∀ smsg body, GROQ_API_KEY ≠ [] → http_post req = Response 401 smsg body →
        answer r.2 = msg_unauthorized)
     ∧ ((GROQ_API_KEY ≠ [] ∧ chat_result req = Ok (answer r.2)
         ∧ strip (answer r.2) = answer r.2)
        ∨ (length (answer r.2) ≤ 236)%nat)).
Proof.
  cbv zeta. rewrite run_query_run.
  destruct (strip query) as [|c q] eqn:Hq.
  { split; [done|]. split; [done|]. by intros []. }
  cbv zeta. set (sq := c :: q) in *.
  cbn [fst snd answer web calls].
  set (web' := stored_sources sq use_web n_web).
  split; [done|]. split; [done|]. intros _.
  split; [done|].
  split; [intros ->; done|].
  split.
  { intros ->. unfold web', stored_sources, found_hits.
    destruct (ddgs_text sq n_web) as [raw|]; [apply filter_fmap_hits|done]. }
  split; [apply stored_sources_links|].
  destruct GROQ_API_KEY as [|k key] eqn:Hkey.
  - split; [done|]. split; [done|]. split; [done|].
    right. vm_compute. lia.
  - split; [done|]. split; [done|].
    split.
    { intros smsg body _ Hpost. unfold chat_result. rewrite Hpost. reflexivity. }
    destruct (chat_result (groq_request sq model web')) as [text|e] eqn:Hchat.
    + left. split; [done|]. split; [done|]. cbn [answer_for].
      unfold chat_result in Hchat.
      destruct (http_post _) as [msg|status smsg [data|msg]]; [done| |].
      * destruct ((400 <=? status) && (status <? 600))%Z; [done|].
        by eapply reply_content_stripped.
      * by destruct ((400 <=? status) && (status <? 600))%Z.
    + right. by apply answer_for_length.
Qed.


(** *** The numbered sources *)

(** The chips under the answer:
    [for i, r in enumerate(st.session_state.web, 1): ...]. *)
Definition chip (i : nat) (r : web_hit) : str :=
  let title :=
    clip (Some match hit_title r with
               | [] => lit "Source " ++ str_of_nat i
               | _ :: _ => hit_title r
               end) 52 in
  lit "<a class=" ++ [34] ++ lit "chip" ++ [34] ++ lit " href=" ++ [34]
  ++ hit_url r ++ [34] ++ lit " target=" ++ [34] ++ lit "_blank" ++ [34]
  ++ lit ">S" ++ str_of_nat i ++ lit " " ++ [183] ++ lit " " ++ title ++ lit "</a>".

Fixpoint chip_items (rs : list web_hit) (i : nat) : list str :=
  match rs with
  | [] => []
  | r :: rs' =>
      match hit_url r with
      | [] => chip_items rs' (S i)
      | _ :: _ => chip i r :: chip_items rs' (S i)
      end
  end.

(** One entry of the prompt's [sources_block]. *)
Definition source_line (i : nat) (r : web_hit) : str :=
  lit "[S" ++ str_of_nat i ++ lit "] " ++ clip (Some (hit_title r)) 120 ++ [10]
  ++ lit "URL: " ++ hit_url r ++ [10]
  ++ lit "Snippet: " ++ clip (Some (hit_snippet r)) 220.

Lemma source_lines_numbered rs i :
  source_lines rs i = (λ ir, source_line ir.1 ir.2) <$> zip (seq i (length rs)) rs.
Proof.
  revert i. induction rs as [|r rs IH]; intros i; [done|].
  cbn [source_lines length seq zip zip_with fmap list_fmap fst snd].
  by rewrite IH.
Qed.

Lemma chip_items_numbered rs i :
  Forall (λ h, hit_url h ≠ []) rs →
  chip_items rs i = (λ ir, chip ir.1 ir.2) <$> zip (seq i (length rs)) rs.
Proof.
  intros Hrs. revert i. induction Hrs as [|r rs Hr _ IH]; intros i; [done|].
  cbn [chip_items length seq zip zip_with fmap list_fmap fst snd].
  destruct (hit_url r); [done|]. by rewrite IH.
Qed.

(** X18.  The numbers of the sources agree between the prompt and the
    page: after [run_query] every stored source has a link, so the page
    shows one chip per stored source, in order, the chip of the [i]-th
    source labelled [S i], and the prompt that was posted lists the same
    sources under the same numbers [S1], [S2], ...; without stored sources
    the prompt is the question alone. *)
Theorem source_numbers_agree (query : str) (use_web : bool) (n_web : Z) (model : str)
    (p : page) :
  let sources := web (run_query query use_web n_web model p).2 in
  let numbered := zip (seq 1 (length sources)) sources in
  chip_items sources 1 = (λ ir, chip ir.1 ir.2) <$> numbered
  ∧ length (chip_items sources 1) = length sources
  ∧ source_lines sources 1 = (λ ir, source_line ir.1 ir.2) <$> numbered
  ∧ user_prompt (strip query) sources
    = lit "User question:" ++ [10] ++ strip query ++ [10]
      ++ match sources with
         | [] => []
         | _ :: _ =>
             [10] ++ lit "Web sources:" ++ [10]
             ++ join [10; 10] ((λ ir, source_line ir.1 ir.2) <$> numbered) ++ [10]
         end
  ∧ (strip query ≠ [] → GROQ_API_KEY ≠ [] →
     ∃ req, last (calls (run_query query use_web n_web model p).2) = Some (CallPost req)
            ∧ rq_user req = user_prompt (strip query) sources).
Proof.
  cbv zeta. rewrite run_query_run.
  assert (Forall (λ h, hit_url h ≠ [])
            (web (match strip query with
                  | [] => (Ok (), mkPage msg_type_first [] (calls p))
                  | _ :: _ =>
                      let q := strip query in
                      let req := groq_request q model (stored_sources q use_web n_web) in
                      (Ok (),
                       mkPage match GROQ_API_KEY with
                              | [] => lit "Error: GROQ_API_KEY is not set."
                              | _ :: _ => answer_for (chat_result req)
                              end
                              (stored_sources q use_web n_web)
                              (calls p ++ (if use_web then [CallDdg q n_web] else [])
                                       ++ match GROQ_API_KEY with
                                          | [] => []
                                          | _ :: _ => [CallPost req]
                                          end))
                  end).2)) as Hlinks.
  { destruct (strip query); [constructor|apply stored_sources_links]. }
  match type of Hlinks with Forall _ (web ?r.2) => set (res := r) in * end.
  set (sources := web res.2) in *.
  split; [by apply chip_items_numbered|].
  split.
  { rewrite chip_items_numbered by done.
    rewrite length_fmap, length_zip_with, length_seq. lia. }
  split; [apply source_lines_numbered|].
  split.
  { unfold user_prompt. rewrite strip_idemp, source_lines_numbered.
    destruct sources as [|r rs] eqn:Hs; [done|].
    set (block := join [10; 10] _).
    assert (block ≠ []) as Hne.
    { unfold block. cbn [length seq zip zip_with fmap list_fmap fst snd].
      destruct (zip_with pair (seq 2 (length rs)) rs); done. }
    by destruct block. }
  intros Hq Hkey. unfold sources, res.
  destruct (strip query) as [|ch q] eqn:Hsq; [done|].
  destruct GROQ_API_KEY as [|k key] eqn:Hk; [done|].
  cbv zeta. cbn [fst snd web calls]. eexists. split.
  - rewrite !app_assoc. apply last_snoc.
  - reflexivity.
Qed.

End brainy.

(** ** A concrete instance of the libraries

    Files hold tagged values instead of bytes, a text is embedded as the
    one-dimensional vector of its length, scores are integers, and the index
    search is an exhaustive scan that sorts the rows by descending inner
    product and pads with label [-1].  A JSON file is a text file whose
    text is a code of the value, which the parser decodes.  The instance
    serves to run the scripts on concrete inputs. *)

(** JSON values as trees, for the code of a value. *)
Fixpoint json_to_tree (v : json) : gen_tree (Z + list N) :=
  match v with
  | JNull => GenNode 0 []
  | JNum z => GenLeaf (inl z)
  | JStr s => GenLeaf (inr s)
  | JList l => GenNode 1 (json_to_tree <$> l)
  | JDict kvs =>
      GenNode 2 ((λ kv, let '(k, x) := kv in
                        GenNode 3 [GenLeaf (inr k); json_to_tree x]) <$> kvs)
  end.

Fixpoint json_of_tree (t : gen_tree (Z + list N)) : json :=
  match t with
  | GenLeaf (inl z) => JNum z
  | GenLeaf (inr s) => JStr s
  | GenNode 1 ts => JList (json_of_tree <$> ts)
  | GenNode 2 ts =>
      JDict ((λ t, match t with
                   | GenNode _ [GenLeaf (inr k); x] => (k, json_of_tree x)
                   | _ => ([], JNull)
                   end) <$> ts)
  | GenNode _ _ => JNull
  end.

Section json_induction.

Variable P : json → Prop.
Hypothesis Hnull : P JNull.
Hypothesis Hnum : ∀ z, P (JNum z).
Hypothesis Hstr : ∀ s, P (JStr s).
Hypothesis Hlist : ∀ l, Forall P l → P (JList l).
Hypothesis Hdict : ∀ kvs, Forall (λ kv, P kv.2) kvs → P (JDict kvs).

Fixpoint json_nested_ind (v : json) : P v :=
  match v with
  | JNull => Hnull
  | JNum z => Hnum z
  | JStr s => Hstr s
  | JList l =>
      Hlist l ((fix go (l : list json) : Forall P l :=
                  match l with
                  | [] => @List.Forall_nil _ P
                  | x :: l' => @List.Forall_cons _ P x l' (json_nested_ind x) (go l')
                  end) l)
  | JDict kvs =>
      Hdict kvs ((fix go (kvs : list (Py.str * json)) : Forall (λ kv, P kv.2) kvs :=
                    match kvs with
                    | [] => @List.Forall_nil _ (λ kv, P kv.2)
                    | (k, x) :: kvs' =>
                        @List.Forall_cons _ (λ kv, P kv.2) (k, x) kvs' (json_nested_ind x) (go kvs')
                    end) kvs)
  end.

End json_induction.

Lemma json_of_to_tree v : json_of_tree (json_to_tree v) = v.
Proof.
  induction v as [|z|s|l IH|kvs IH] using json_nested_ind; try done.
  - cbn [json_to_tree json_of_tree]. f_equal.
    rewrite <-list_fmap_compose. rewrite <-(list_fmap_id l) at 2.
    apply Forall_fmap_ext_1. eapply Forall_impl; [exact IH|]. done.
  - cbn [json_to_tree json_of_tree]. f_equal.
    rewrite <-list_fmap_compose. rewrite <-(list_fmap_id kvs) at 2.
    apply Forall_fmap_ext_1. eapply Forall_impl; [exact IH|].
    intros [k x] Hx. simpl in *. by rewrite Hx.
Qed.

Module Toy.
Import Py.

Inductive bytes :=
| BText (s : str)
| BJson (v : json)
| BIndex (d : nat) (xb : list (list Z))
| BJunk.

(** The text of a JSON file: one character, the code of the value. *)
Definition json_text (v : json) : str :=
  [Npos (countable.encode (json_to_tree v))].

Definition utf8_read (b : bytes) : option str :=
  match b with
  | BText s => Some s
  | BJson v => Some (json_text v)
  | _ => None
  end.

Definition json_dump (v : json) : bytes := BJson v.

Definition json_loads (text : str) : option json :=
  match text with
  | [Npos c] => json_of_tree <$> countable.decode c
  | _ => None
  end.

Definition json_load : bytes → option json := json_load utf8_read json_loads.

Definition write_index (ix : IndexFlatIP Z) : bytes := BIndex (ix_d ix) (ix_xb ix).

Definition read_index (b : bytes) : option (IndexFlatIP Z) :=
  match b with
  | BIndex d xb => Some (mkIndex d xb)
  | _ => None
  end.

Definition encode (texts : list str) : list (list Z) :=
  (λ s, [Z.of_nat (length s)]) <$> texts.

Fixpoint dot (a b : list Z) : Z :=
  match a, b with
  | x :: a', y :: b' => (x * y + dot a' b')%Z
  | _, _ => 0%Z
  end.

Definition by_score (a b : Z * Z) : Prop := (b.1 ≤ a.1)%Z.

Global Instance by_score_dec a b : Decision (by_score a b).
Proof. unfold by_score. apply _. Defined.

Definition scored (ix : IndexFlatIP Z) (q : list Z) : list (Z * Z) :=
  zip (dot q <$> ix_xb ix) (Z.of_nat <$> seq 0 (ntotal ix)).

Definition lowest : Z := (-340282346638528859811704183484516925440)%Z.

Definition search (ix : IndexFlatIP Z) (q : list Z) (k : nat) : list (Z * Z) :=
  take k (merge_sort by_score (scored ix q))
  ++ replicate (k - ntotal ix) (lowest, (-1)%Z).

Definition fmt3 (x : Z) : str :=
  lit (NilZero.string_of_int (Z.to_int x)) ++ lit ".000".

Definition repr (v : json) : str := lit "<json>".

Abbreviation world := (world bytes Z).
Abbreviation M := (M bytes Z).

Definition build_main : M _ := build_main utf8_read json_dump write_index encode.
Definition load_data : M _ := load_data utf8_read json_loads read_index.
Definition search_main : list str → M unit :=
  search_main utf8_read json_loads read_index encode search.
Definition app_main : str → nat → M unit :=
  app_main utf8_read json_loads read_index encode search fmt3 repr.

(** A world from a directory listing with the files' texts. *)
Definition corpus (entries : list (str * bytes)) : world :=
  mkWorld (fst <$> entries)
          (list_to_map ((λ e, (Path.join DATA_DIR e.1, File e.2)) <$> entries))
          None [].

End Toy.

(** ** The instance meets the contracts *)

Section toy_facts.
Import Py.

Lemma toy_json_roundtrip v : Toy.json_load (Toy.json_dump v) = Some v.
Proof.
  unfold Toy.json_load, json_load, Toy.json_dump. cbn [Toy.utf8_read mbind option_bind].
  unfold Toy.json_text, Toy.json_loads.
  by rewrite decode_encode; simpl; rewrite json_of_to_tree.
Qed.

Lemma toy_index_roundtrip ix : Toy.read_index (Toy.write_index ix) = Some ix.
Proof. by destruct ix. Qed.

Lemma toy_embedder_contract : embedder_contract Toy.encode.
Proof. intros texts. unfold Toy.encode. by rewrite length_fmap. Qed.

Lemma toy_scored_labels ix q :
  (Toy.scored ix q).*2 = Z.of_nat <$> seq 0 (ntotal ix).
Proof.
  unfold Toy.scored. apply snd_zip.
  rewrite !length_fmap, length_seq. done.
Qed.

Lemma toy_search_contract : search_contract Toy.search.
Proof.
  intros ix q k. unfold Toy.search.
  set (ranked := merge_sort Toy.by_score (Toy.scored ix q)).
  assert (ranked.*2 ≡ₚ Z.of_nat <$> seq 0 (ntotal ix)) as Hperm.
  { unfold ranked. by rewrite merge_sort_Permutation, toy_scored_labels. }
  assert (∀ x, x ∈ ranked.*2 → ∃ i : nat, x = Z.of_nat i ∧ (i < ntotal ix)%nat) as Hin.
  { intros x. rewrite Hperm. intros (i & -> & Hi%elem_of_seq)%list_elem_of_fmap.
    exists i. split; [done|lia]. }
  assert (NoDup ranked.*2) as Hnd.
  { rewrite Hperm. apply NoDup_fmap; [apply _|apply NoDup_seq]. }
  exists (Z.to_nat <$> take k ranked.*2).
  split; [|split; [|split]].
  - apply NoDup_fmap_2_strong.
    + intros x y Hx%subseteq_take Hy%subseteq_take Hxy.
      destruct (Hin x Hx) as (i & -> & _), (Hin y Hy) as (j & -> & _). lia.
    + eapply sublist_NoDup; [exact Hnd|apply sublist_take].
  - apply Forall_fmap, Forall_forall. intros x Hx%subseteq_take.
    destruct (Hin x Hx) as (i & -> & Hi). simpl. lia.
  - rewrite length_fmap, length_take. f_equal.
    by rewrite Hperm, length_fmap, length_seq.
  - rewrite fmap_app, fmap_replicate, fmap_take. f_equal.
    rewrite <-list_fmap_compose.
    rewrite <-(list_fmap_id (take k ranked.*2)) at 1.
    apply list_fmap_ext. intros i x Hx.
    apply list_elem_of_lookup_2, subseteq_take in Hx.
    destruct (Hin x Hx) as (j & -> & _). simpl. lia.
Qed.

End toy_facts.

(** ** Concrete worlds *)

Module Scenario.
Import Py Toy.

Definition cat : str := lit "the cat sat".
Definition dogs : str := lit "dogs run fast".

(** The corpus [a.txt], [b.txt], listed [b.txt] first. *)
Definition two_docs : world :=
  corpus [(lit "b.txt", BText dogs); (lit "a.txt", BText cat)].

(** One file that strips to empty and one that does not. *)
Definition one_empty : world :=
  corpus [(lit "empty.txt", BText (lit "  ")); (lit "a.txt", BText cat)].

(** Two corpora of two files each that differ in the file left out. *)
Definition skip_a : world :=
  corpus [(lit "a.txt", BText []); (lit "b.txt", BText cat)].
Definition skip_c : world :=
  corpus [(lit "b.txt", BText cat); (lit "c.txt", BText (lit " "))].

(** One document, with a directory in the place of [artifacts/docs.json]. *)
Definition docs_is_dir : world :=
  mkWorld [lit "a.txt"]
          (<[lit "artifacts/docs.json" := Dir]>
             (<[lit "artifacts" := Dir]>
                (<[lit "data/a.txt" := File (BText cat)]> ∅)))
          None [].

(** The files a run leaves, for a new process: no cache, no output yet. *)
Definition later (w : world) : world := mkWorld (listing w) (files w) None [].

(** The world a build of one document leaves. *)
Definition one_doc_built : world :=
  later (build_main (corpus [(lit "a.txt", BText cat)])).2.

(** The world a build of [two_docs] leaves. *)
Definition two_docs_built : world := later (build_main two_docs).2.

(** Artifacts of a store without rows. *)
Definition empty_store : world :=
  mkWorld []
          (<[lit "artifacts/meta.json" := File (BJson (JList []))]>
             (<[lit "artifacts/docs.json" := File (BJson (JList []))]>
                (<[lit "artifacts/faiss.index" := File (BIndex 1 [])]> ∅)))
          None [].


(** The artifacts of one document, with [docs.json] replaced by [b]. *)
Definition docs_replaced (b : bytes) : world :=
  mkWorld []
          (<[lit "artifacts/meta.json" := File (BJson (JList []))]>
             (<[lit "artifacts/docs.json" := File b]>
                (<[lit "artifacts/faiss.index" := File (BIndex 1 [[11%Z]])]> ∅)))
          None [].

(** A page run that finds the store of [a.txt] and [b.txt] in its cache. *)
Definition two_docs_index : IndexFlatIP Z := mkIndex 1%nat [[11%Z]; [13%Z]].

(** The store a build of [two_docs] returns. *)
Definition two_docs_store : IndexFlatIP Z * list str * list json :=
  (two_docs_index, [cat; dogs],
   [source_of (lit "data/a.txt"); source_of (lit "data/b.txt")]).

Definition cached_two : world :=
  mkWorld [] ∅
          (Some (two_docs_index, docs_json [cat; dogs],
                 meta_json [lit "a.txt"; lit "b.txt"]))
          [].

(** The texts [st.write] showed. *)
Definition written (evs : list event) : list str :=
  omap (λ e, match e with StWrite s => Some s | _ => None end) evs.

End Scenario.

(** ** The statements at concrete inputs *)

Section instances.
Import Py Toy Scenario.

Lemma two_docs_env :
  out_writable (files two_docs)
  ∧ Forall (readable utf8_read (files two_docs)) (build_paths two_docs)
  ∧ filter (indexed utf8_read (files two_docs)) (build_paths two_docs) ≠ [].
Proof.
  split; [|split].
  - split; [intros b H; vm_compute in H; discriminate H|].
    repeat split; intros H; vm_compute in H; discriminate H.
  - refine (bool_decide_unpack _ _); vm_compute; exact I.
  - intros H; vm_compute in H; discriminate H.
Qed.

(** The rows of [two_docs] are [a.txt], then [b.txt], whichever way the
    directory is listed. *)
Lemma build_row_order_witness :
  listing two_docs = [lit "b.txt"; lit "a.txt"]
  ∧ listing two_docs ≡ₚ [lit "a.txt"; lit "b.txt"]
  ∧ (build_main two_docs).1 = Ret two_docs_store
  ∧ (build_main (mkWorld [lit "a.txt"; lit "b.txt"] (files two_docs)
                         (cache two_docs) (log two_docs))).1
    = Ret two_docs_store.
Proof.
  assert (listing two_docs ≡ₚ [lit "a.txt"; lit "b.txt"]) as Hperm
    by apply perm_swap.
  split; [reflexivity|]. split; [exact Hperm|].
  destruct two_docs_env as (Hw & Hall & Hkept).
  destruct (build_row_order_deterministic
              utf8_read json_dump write_index encode two_docs _ Hperm)
    as (_ & _ & _ & _ & _ & _ & Hrows).
  destruct (Hrows [lit "a.txt"; lit "b.txt"]) as [H1 H2].
  - vm_compute. apply perm_swap.
  - refine (bool_decide_unpack _ _). vm_compute. exact I.
  - exact Hw.
  - refine (bool_decide_unpack _ _). vm_compute. exact I.
  - intros H. vm_compute in H. discriminate H.
  - unfold Toy.build_main. rewrite H1, H2. split; vm_compute; reflexivity.
Defined.

Lemma one_empty_env :
  (∀ b, files one_empty !! OUT_DIR ≠ Some (File b))
  ∧ Forall (readable utf8_read (files one_empty)) (build_paths one_empty)
  ∧ filter (indexed utf8_read (files one_empty)) (build_paths one_empty) ≠ []
  ∧ files one_empty !! index_file ≠ Some Dir
  ∧ files one_empty !! docs_file ≠ Some Dir
  ∧ files one_empty !! meta_file ≠ Some Dir.
Proof.
  split; [intros b H; vm_compute in H; discriminate H|].
  split; [refine (bool_decide_unpack _ _); vm_compute; exact I|].
  split; [intros H; vm_compute in H; discriminate H|].
  repeat split; intros H; vm_compute in H; discriminate H.
Qed.

(** The scenario of one empty and one non-empty file: two files found, one
    document built. *)
Lemma build_skips_empty_files_witness :
  (∀ b, files one_empty !! OUT_DIR ≠ Some (File b))
  ∧ Forall (readable utf8_read (files one_empty)) (build_paths one_empty)
  ∧ length (build_paths one_empty) = 2%nat
  ∧ (build_main one_empty).1
    = Ret (mkIndex 1%nat [[11%Z]], [cat], [source_of (lit "data/a.txt")]).
Proof.
  destruct one_empty_env as (Hout & Hall & Hkept & Hi & Hd & Hm).
  split; [exact Hout|]. split; [exact Hall|]. split; [reflexivity|].
  destruct (build_skips_empty_files utf8_read json_dump write_index encode
              one_empty Hout Hall) as (_ & _ & _ & Hok & _).
  unfold Toy.build_main. rewrite (Hok Hkept Hi Hd Hm). vm_compute. reflexivity.
Defined.

Lemma load_after_build_witness :
  (∀ v, json_load (json_dump v) = Some v)
  ∧ (∀ ix, read_index (write_index ix) = Some ix)
  ∧ ∃ ix docs meta,
      (build_main two_docs).1 = Ret (ix, docs, meta)
      ∧ load_data (build_main two_docs).2
        = (Ret (ix, JList (JStr <$> docs), JList meta), (build_main two_docs).2).
Proof.
  split; [exact toy_json_roundtrip|]. split; [exact toy_index_roundtrip|].
  destruct (load_after_build_same_store utf8_read json_dump json_loads write_index
              read_index encode search two_docs
              toy_json_roundtrip toy_index_roundtrip) as [Hex Hload].
  destruct two_docs_env as (Hw & Hall & Hkept).
  destruct (Hex Hw Hall Hkept) as (ix & docs & meta & Hret & _).
  exists ix, docs, meta. split; [exact Hret|].
  exact (proj1 (Hload ix docs meta Hret)).
Defined.

Lemma app_renders_k_hits_witness :
  embedder_contract encode ∧ search_contract search
  ∧ ∃ found : list nat,
      length found = 2%nat
      ∧ (app_main (lit "cat") 5 cached_two).1 = Ret ()
      ∧ length (written (log (app_main (lit "cat") 5 cached_two).2)) = 5%nat.
Proof.
  split; [exact toy_embedder_contract|]. split; [exact toy_search_contract|].
  destruct (app_renders_k_hits utf8_read json_loads read_index encode search fmt3 repr
              two_docs_index [cat; dogs] [lit "a.txt"; lit "b.txt"]
              99 [97; 116] 5 cached_two
              toy_embedder_contract toy_search_contract
              eq_refl eq_refl eq_refl)
    as (qv & found & Hqv & Hnd & Hlt & Hlen & Hshown & Hok & _).
  exists found. split; [exact Hlen|].
  destruct Hok as [Hrun _]; [simpl; lia|].
  split; [|vm_compute; reflexivity].
  change (lit "cat") with [99; 97; 116]. unfold Toy.app_main.
  rewrite Hrun. reflexivity.
Defined.


(** Counterexamples to the claims as the specification words them. *)

(** C2: one document, two hits asked for: two results, the document twice;
    and on an empty store the page raises. *)
Lemma app_shows_more_than_stored :
  let r := app_main (lit "cat") 2 one_doc_built in
  r.1 = Ret () ∧ written (log r.2) = [cat; cat]
  ∧ (app_main (lit "cat") 1 empty_store).1 = Raise IndexError.
Proof. cbv zeta. split; [|split]; vm_compute; reflexivity. Qed.


(** C5: the second write fails and the index of this build stays. *)
Lemma build_leaves_index_behind :
  let r := build_main docs_is_dir in
  r.1 = Raise (IsADirectoryError docs_file)
  ∧ files docs_is_dir !! index_file = None
  ∧ files r.2 !! index_file = Some (File (BIndex 1 [[11%Z]]))
  ∧ files r.2 !! docs_file = Some Dir
  ∧ files r.2 !! meta_file = None.
Proof. cbv zeta. split; [|split; [|split; [|split]]]; vm_compute; reflexivity. Qed.


(** Bytes that are not UTF-8 and a text that is not JSON fail differently,
    in the page and on the command line. *)
Example load_data_undecodable :
  (load_data (docs_replaced BJunk)).1 = Raise (UnicodeDecodeError docs_file)
  ∧ (load_data (docs_replaced (BText cat))).1 = Raise (JSONDecodeError docs_file)
  ∧ (search_main [] (docs_replaced BJunk)).1 = Raise (UnicodeDecodeError docs_file)
  ∧ (search_main [] (docs_replaced (BText cat))).1
    = Raise (JSONDecodeError docs_file).
Proof. split; [|split; [|split]]; vm_compute; reflexivity. Qed.

(** C7: which file was left out shows nowhere: same result, same output,
    same artifacts, and the count printed is that of the files listed. *)
Lemma skipped_files_leave_no_trace :
  let ra := build_main skip_a in
  let rc := build_main skip_c in
  ra.1 = rc.1 ∧ log ra.2 = log rc.2
  ∧ files ra.2 !! index_file = files rc.2 !! index_file
  ∧ files ra.2 !! docs_file = files rc.2 !! docs_file
  ∧ files ra.2 !! meta_file = files rc.2 !! meta_file
  ∧ log ra.2 = [Print (msg_found 2); LoadModel MODEL_NAME; Encode [cat];
                Print msg_built; Print msg_saved].
Proof.
  cbv zeta. split; [|split; [|split; [|split; [|split]]]]; vm_compute; reflexivity.
Qed.

(** C9: the command-line preview keeps two spaces and cuts at 160. *)
Lemma cli_preview_keeps_whitespace :
  preview (lit "a  b") = lit "a  b"
  ∧ snippet (lit "a  b") snippet_n = lit "a b"
  ∧ preview (replicate 200 120) = replicate 160 120 ++ lit "..."
  ∧ snippet (replicate 200 120) snippet_n = replicate 200 120.
Proof. split; [|split; [|split]]; vm_compute; reflexivity. Qed.


End instances.

(** ** More concrete worlds *)

Module Cases.
Import Py Toy Scenario.

Definition fish : str := lit "fish swim".

(** The directory of [two_docs] with two more names in it: one that does
    not end in [.txt] and one that starts with a dot. *)
Definition other_names : world :=
  mkWorld [lit "notes.md"; lit "a.txt"; lit ".draft.txt"; lit "b.txt"]
          (files two_docs) None [].

(** A corpus whose second file is not UTF-8. *)
Definition one_unreadable : world :=
  corpus [(lit "a.txt", BText cat); (lit "b.txt", BJunk); (lit "c.txt", BText dogs)].

(** The store of [a.txt] and [b.txt] in the cache, with the artifacts on
    disk. *)
Definition cached_on_disk : world :=
  mkWorld (listing two_docs_built) (files two_docs_built) (cache cached_two) [].

(** An index of three rows, for the texts [cat], [dogs] and [fish]. *)
Definition three_docs_index : IndexFlatIP Z := mkIndex 1%nat [[11%Z]; [13%Z]; [9%Z]].

(** The lines printed and the texts embedded, as a log shows them. *)
Definition printed (evs : list event) : list str :=
  omap (λ e, match e with Print s => Some s | _ => None end) evs.

Definition encoded (evs : list event) : list (list str) :=
  omap (λ e, match e with Encode ts => Some ts | _ => None end) evs.

End Cases.

(** ** The further statements at concrete inputs *)

Section more_instances.
Import Py Toy Scenario Cases.

Lemma two_docs_returns :
  (build_main two_docs).1
  = Ret (mkIndex 1%nat [[11%Z]; [13%Z]], [cat; dogs],
         [source_of (lit "data/a.txt"); source_of (lit "data/b.txt")]).
Proof. vm_compute. reflexivity. Qed.

Lemma build_rows_invariant_witness :
  (build_main two_docs).1
  = Ret (mkIndex 1%nat [[11%Z]; [13%Z]], [cat; dogs],
         [source_of (lit "data/a.txt"); source_of (lit "data/b.txt")])
  ∧ length [source_of (lit "data/a.txt"); source_of (lit "data/b.txt")]
    = length [cat; dogs]
  ∧ Forall (λ d, d ≠ [] ∧ strip d = d) [cat; dogs].
Proof.
  split; [exact two_docs_returns|].
  destruct (build_rows_invariant utf8_read json_dump write_index encode
              two_docs _ _ _ two_docs_returns) as (Hlen & _ & Hdocs & _).
  split; [exact Hlen|exact Hdocs].
Defined.

Lemma two_docs_names :
  Forall (λ name, Path.has_slash name = false) (listing two_docs).
Proof. refine (bool_decide_unpack _ _). vm_compute. exact I. Qed.

Lemma build_meta_names_witness :
  Forall (λ name, Path.has_slash name = false) (listing two_docs)
  ∧ ∃ names,
      [source_of (lit "data/a.txt"); source_of (lit "data/b.txt")]
      = (λ name, JDict [(lit "source", JStr name)]) <$> names
      ∧ Forall (λ name, name ∈ listing two_docs
                        ∧ Path.endswith (lit ".txt") name = true
                        ∧ Path.ishidden name = false) names.
Proof.
  split; [exact two_docs_names|].
  destruct (build_meta_names utf8_read json_dump write_index encode
              two_docs _ _ _ two_docs_names two_docs_returns)
    as (names & Hmeta & _ & _ & _ & Hall).
  exists names. split; [exact Hmeta|exact Hall].
Defined.

Lemma other_names_match :
  filter (glob_match (lit ".txt")) (listing other_names)
    ≡ₚ filter (glob_match (lit ".txt")) (listing two_docs).
Proof.
  assert (filter (glob_match (lit ".txt")) (listing other_names)
          = [lit "a.txt"; lit "b.txt"]) as -> by (vm_compute; reflexivity).
  assert (filter (glob_match (lit ".txt")) (listing two_docs)
          = [lit "b.txt"; lit "a.txt"]) as -> by (vm_compute; reflexivity).
  apply perm_swap.
Qed.

Lemma build_ignores_other_names_witness :
  filter (glob_match (lit ".txt")) (listing other_names)
    ≡ₚ filter (glob_match (lit ".txt")) (listing two_docs)
  ∧ files other_names = files two_docs
  ∧ (build_main other_names).1 = (build_main two_docs).1
  ∧ files (build_main other_names).2 = files (build_main two_docs).2.
Proof.
  split; [exact other_names_match|]. split; [reflexivity|].
  destruct (build_ignores_other_names utf8_read json_dump write_index encode
              other_names two_docs other_names_match eq_refl) as (Ho & Hf & _).
  split; [exact Ho|exact Hf].
Defined.

Lemma build_twice_same_witness :
  (build_main two_docs).1
  = Ret (mkIndex 1%nat [[11%Z]; [13%Z]], [cat; dogs],
         [source_of (lit "data/a.txt"); source_of (lit "data/b.txt")])
  ∧ (build_main (build_main two_docs).2).1 = (build_main two_docs).1
  ∧ files (build_main (build_main two_docs).2).2 = files (build_main two_docs).2.
Proof.
  split; [exact two_docs_returns|].
  destruct (build_twice_same utf8_read json_dump write_index encode
              two_docs _ _ _ two_docs_returns) as (Hret & Hfiles).
  split; [|exact Hfiles].
  unfold Toy.build_main in *. rewrite Hret. symmetry. exact two_docs_returns.
Defined.

Lemma one_unreadable_env :
  (∀ b, files one_unreadable !! OUT_DIR ≠ Some (File b))
  ∧ build_paths one_unreadable
    = [lit "data/a.txt"] ++ lit "data/b.txt" :: [lit "data/c.txt"]
  ∧ Forall (readable utf8_read (files one_unreadable)) [lit "data/a.txt"]
  ∧ text_of utf8_read (files one_unreadable) (lit "data/b.txt") = None.
Proof.
  split; [intros b H; vm_compute in H; discriminate H|].
  split; [vm_compute; reflexivity|].
  split; [|vm_compute; reflexivity].
  refine (bool_decide_unpack _ _); vm_compute; exact I.
Qed.

Lemma build_stops_at_first_unreadable_witness :
  (∀ b, files one_unreadable !! OUT_DIR ≠ Some (File b))
  ∧ build_paths one_unreadable
    = [lit "data/a.txt"] ++ lit "data/b.txt" :: [lit "data/c.txt"]
  ∧ Forall (readable utf8_read (files one_unreadable)) [lit "data/a.txt"]
  ∧ text_of utf8_read (files one_unreadable) (lit "data/b.txt") = None
  ∧ (build_main one_unreadable).1 = Raise (UnicodeDecodeError (lit "data/b.txt"))
  ∧ log (build_main one_unreadable).2 = [Print (msg_found 3)].
Proof.
  destruct one_unreadable_env as (Hout & Hpaths & Hpre & Hp).
  split; [exact Hout|]. split; [exact Hpaths|]. split; [exact Hpre|].
  split; [exact Hp|].
  unfold Toy.build_main.
  rewrite (build_stops_at_first_unreadable utf8_read json_dump write_index encode
             one_unreadable _ _ _ Hout Hpaths Hpre Hp).
  split; vm_compute; reflexivity.
Defined.

Lemma cli_shows_three_documents_witness :
  embedder_contract encode ∧ search_contract search
  ∧ ntotal three_docs_index = length [cat; dogs; fish]
  ∧ ∃ r1 r2 r3 : nat,
      NoDup [r1; r2; r3]
      ∧ (search_answer encode search three_docs_index (docs_json [cat; dogs; fish])
           (lit "cat") cached_two).1 = Ret ().
Proof.
  split; [exact toy_embedder_contract|]. split; [exact toy_search_contract|].
  split; [reflexivity|].
  destruct (cli_shows_three_documents encode search
              three_docs_index [cat; dogs; fish] (lit "cat") cached_two
              toy_embedder_contract toy_search_contract eq_refl)
    as (r1 & r2 & r3 & Hnd & _ & _ & _ & Hrun); [simpl; lia|].
  exists r1, r2, r3. split; [exact Hnd|]. rewrite Hrun. reflexivity.
Defined.

Lemma cli_session_witness :
  embedder_contract encode ∧ search_contract search
  ∧ ∃ answers : list (list event),
      search_loop encode search two_docs_index (docs_json [cat; dogs])
        ([lit " cat "; lit "dogs"] ++ lit " QUIT" :: [lit "fish"]) cached_two
      = (Ret (), add_logs (concat answers
                           ++ [Prompt (lit "Query: "); Print msg_bye]) cached_two)
      ∧ encoded (concat answers) = [[lit "cat"]; [lit "dogs"]].
Proof.
  split; [exact toy_embedder_contract|]. split; [exact toy_search_contract|].
  destruct (cli_session encode search two_docs_index [cat; dogs]
              ([lit " cat "; lit "dogs"] ++ lit " QUIT" :: [lit "fish"]) cached_two
              toy_embedder_contract toy_search_contract eq_refl)
    as (queries & ends & answers & Hexit & _ & Hans & Hrun); [simpl; lia|].
  destruct (Hexit [lit " cat "; lit "dogs"] (lit " QUIT") [lit "fish"] eq_refl)
    as [-> ->].
  { refine (bool_decide_unpack _ _). vm_compute. exact I. }
  { refine (bool_decide_unpack _ _). vm_compute. exact I. }
  exists answers. split; [exact Hrun|].
  change (strip <$> _) with [lit "cat"; lit "dogs"] in Hans.
  inversion Hans as [|q1 e1 qs1 es1 (s1 & _ & _ & ->) Hans1]; subst.
  inversion Hans1 as [|q2 e2 qs2 es2 (s2 & _ & _ & ->) Hans2]; subst.
  inversion Hans2; subst.
  assert (∀ shown rank, encoded (cli_lines [cat; dogs] shown rank) = []) as Hnone.
  { induction shown as [|r shown IH]; intros rank; [done|apply IH]. }
  cbn [concat]. unfold encoded in *. rewrite !omap_app, !Hnone. reflexivity.
Defined.

Lemma app_serves_cached_store_witness :
  cache cached_two = cache cached_on_disk
  ∧ files cached_two ≠ files cached_on_disk
  ∧ (app_main (lit "cat") 2 cached_two).1 = (app_main (lit "cat") 2 cached_on_disk).1
  ∧ log (app_main (lit "cat") 2 cached_two).2
    = log (app_main (lit "cat") 2 cached_on_disk).2.
Proof.
  split; [reflexivity|].
  split; [intros H; apply (f_equal (λ m, m !! index_file)) in H;
          vm_compute in H; discriminate H|].
  destruct (app_serves_cached_store utf8_read json_loads read_index encode search fmt3 repr
              (lit "cat") 2 _ cached_two cached_on_disk eq_refl eq_refl)
    as (Ho & (evs & H1 & H2)).
  split; [exact Ho|].
  unfold Toy.app_main. rewrite H1, H2. reflexivity.
Defined.



Lemma search_after_build_witness :
  (∀ x, json_load (json_dump x) = Some x)
  ∧ (∀ ix, read_index (write_index ix) = Some ix)
  ∧ embedder_contract encode ∧ search_contract search
  ∧ (search_main [lit "cat"; lit "exit"] (build_main two_docs).2).1 = Ret ()
  ∧ printed (log (search_main [lit "cat"; lit "exit"] (later (build_main two_docs).2)).2)
    = [msg_ready; msg_help; msg_top; lit "1. dogs run fast"; lit "2. the cat sat";
       lit "3. dogs run fast"; []; msg_bye].
Proof.
  split; [exact toy_json_roundtrip|]. split; [exact toy_index_roundtrip|].
  split; [exact toy_embedder_contract|]. split; [exact toy_search_contract|].
  destruct (search_after_build utf8_read json_dump json_loads write_index read_index
              encode search two_docs _ _ _ [lit "cat"; lit "exit"]
              toy_json_roundtrip toy_index_roundtrip
              toy_embedder_contract toy_search_contract two_docs_returns)
    as (answers & _ & Hrun).
  split; [|vm_compute; reflexivity].
  unfold Toy.search_main, Toy.build_main. rewrite Hrun. reflexivity.
Defined.

Lemma app_after_build_witness :
  (∀ x, json_load (json_dump x) = Some x)
  ∧ (∀ ix, read_index (write_index ix) = Some ix)
  ∧ embedder_contract encode ∧ search_contract search
  ∧ cache two_docs = None
  ∧ (app_main (lit "cat") 5 (build_main two_docs).2).1 = Ret ()
  ∧ length (written (log (app_main (lit "cat") 5 (build_main two_docs).2).2)) = 5%nat.
Proof.
  split; [exact toy_json_roundtrip|]. split; [exact toy_index_roundtrip|].
  split; [exact toy_embedder_contract|]. split; [exact toy_search_contract|].
  split; [reflexivity|].
  destruct (app_after_build utf8_read json_dump json_loads write_index read_index
              encode search fmt3 repr two_docs _ _ _ 99 [97; 116] 5
              toy_json_roundtrip toy_index_roundtrip
              toy_embedder_contract toy_search_contract two_docs_returns eq_refl)
    as (hits & _ & _ & Hrun).
  split; [|vm_compute; reflexivity].
  change (lit "cat") with [99; 97; 116]. unfold Toy.app_main, Toy.build_main.
  rewrite Hrun. reflexivity.
Defined.

End more_instances.

(** ** The chat helpers at concrete inputs *)

Module ToyWeb.
Import Py.

Definition env_key : option str := Some (lit " gsk-test ").

(** Two results, the second without a link; no result at all for the
    query [down]. *)
Definition ddgs_text (query : str) (max_results : Z) : option (list raw_hit) :=
  if decide (query = lit "down") then None
  else Some [ {[ lit "title" := Some (lit " Cats ");
                 lit "href" := Some (lit "https://cats.example");
                 lit "body" := None ]};
              {[ lit "title" := Some (lit "No link");
                 lit "href" := Some (lit "  ") ]} ].

(** Status 404 for the model [missing], an answer otherwise. *)
Definition http_post (req : request) : reply :=
  if decide (rq_model req = lit "missing")
  then Response 404 (lit "404 Client Error") (inr [])
  else Response 200 []
         (inl (JDict [(lit "choices",
                       JList [JDict [(lit "message",
                                      JDict [(lit "content",
                                              JStr (lit " Cats purr. "))])]])])).

Definition fault_text (f : fault) : str := lit "fault".

Definition run_query : str → bool → Z → str → W unit :=
  run_query env_key ddgs_text http_post fault_text.

Definition blank : page := mkPage [] [] [].

End ToyWeb.

Section web_instances.
Import Py ToyWeb.

Example clip_ex :
  clip (Some (lit "  hello world ")) 5 = lit "hell" ++ [8230]
  ∧ clip (Some (lit "  hello world ")) 11 = lit "hello world"
  ∧ clip None 3 = []
  ∧ clip (Some (lit "abc")) 0 = lit "ab" ++ [8230]
  ∧ clip_backup (Some (lit "  hello world ")) 5 = lit "  he" ++ [8230].
Proof. repeat split. Qed.

Example run_query_ex :
  let r := run_query (lit "  why do cats purr ") true 5 (lit "llama") blank in
  r.1 = Ok ()
  ∧ answer r.2 = lit "Cats purr."
  ∧ web r.2 = [mkHit (lit "Cats") (lit "https://cats.example") []]
  ∧ calls r.2
    = [CallDdg (lit "why do cats purr") 5;
       CallPost (groq_request env_key (lit "why do cats purr") (lit "llama")
                   [mkHit (lit "Cats") (lit "https://cats.example") []])].
Proof. cbv zeta. repeat split; vm_compute; reflexivity. Qed.

Example run_query_fails_ex :
  answer (run_query (lit "down") true 5 (lit "missing") blank).2
  = lit "Request failed: 404 Client Error"
  ∧ web (run_query (lit "down") true 5 (lit "missing") blank).2 = []
  ∧ run_query (lit "   ") true 5 (lit "llama") blank
    = (Ok (), mkPage (lit "Type a question first.") [] []).
Proof. repeat split; vm_compute; reflexivity. Qed.

End web_instances.
